(** * Mandelbrot zoom renderer: a shallow embedding of [mandelbrot.cpp]

    The development follows the source file function by function:
    [computeEscapeValues], [computeHistogram], [computeCDF],
    [colorizeImage], [writeFrame], [computeFrame] and the render loop of
    [main].

    Modelling conventions.
    - [int] and [long] are [Z]; where the source can overflow (histogram
      counters, the running sum of the CDF) the wrap-around is written
      out with [wrap32] and [wrap64].
    - [std::vector] and [cv::Mat] are lists; every indexed access is
      checked, and an access out of range (undefined behaviour in C++)
      makes the function return [None].
    - [double] is an abstract type with the operations the program uses
      (class [Double]).  Facts of IEEE-754 arithmetic that a proof needs
      are collected in the classes [OrderLaws], [DivisionLaws],
      [ConversionLaws] and [Log2Laws], and a statement assumes only the
      class it uses; exact real arithmetic ([Rdouble]) is an instance of
      all of them and serves to run examples.
    - The OpenMP team is a number of threads and a schedule that maps
      every row to the thread that runs it.  The threads write disjoint
      cells of the field and private histograms, so the parallel loop is
      modelled by the sequential loop over the rows, each row charged to
      the histogram of its thread.
    - A C string printed by [sprintf] is the list of its characters,
      without the final NUL; the conversions [%d] and [%05d] are written
      out in the module [Sprintf].

    After the statements of the specification come properties of the
    code beyond them: what the per-thread histograms hold, when each
    function is defined, what a run that returns has written, and the
    names of its files. *)

From Stdlib Require Import ZArith QArith Reals Lia Lra.
From Stdlib Require Ascii String.
From stdpp Require Import base option list numbers.

Local Open Scope Z_scope.

(** ** Machine integers *)

Definition INT_MIN : Z := - 2 ^ 31.
Definition INT_MAX : Z := 2 ^ 31 - 1.
Definition LONG_MAX : Z := 2 ^ 63 - 1.

(** Two's complement wrap-around of a 32-bit [int] and a 64-bit [long]. *)
Definition wrap32 (z : Z) : Z := (z + 2 ^ 31) mod 2 ^ 32 - 2 ^ 31.
Definition wrap64 (z : Z) : Z := (z + 2 ^ 63) mod 2 ^ 64 - 2 ^ 63.

(** The bounds of [int] as numerals, for the arithmetic tactics. *)
Ltac int_bounds :=
  unfold INT_MIN, INT_MAX in *;
  change (- 2 ^ 31)%Z with (-2147483648)%Z in *;
  change (2 ^ 31 - 1)%Z with 2147483647%Z in *.

(** ** Vectors with checked accesses *)

Definition vec_new {A} (n : Z) (a : A) : option (list A) :=
  if decide (0 ≤ n) then Some (replicate (Z.to_nat n) a) else None.

Definition vec_get {A} (v : list A) (i : Z) : option A :=
  if decide (0 ≤ i) then v !! Z.to_nat i else None.

Definition vec_set {A} (v : list A) (i : Z) (a : A) : option (list A) :=
  if decide (0 ≤ i < Z.of_nat (length v)) then Some (<[Z.to_nat i := a]> v)
  else None.

(** ** Loops *)

(** A [for] loop over the elements of [l], threading the state [s]; the
    loop is undefined as soon as one iteration is. *)
Fixpoint foldM {A S} (body : A → S → option S) (l : list A) (s : S) : option S :=
  match l with
  | [] => Some s
  | a :: l' => s' ← body a s; foldM body l' s'
  end.

(** [for (int i = lo; i < hi; i++) body] *)
Definition for_loop {S} (lo hi : Z) (body : Z → S → option S) (s : S) : option S :=
  foldM body (seqZ lo (hi - lo)) s.

(** ** Floating point *)

(** The operations on [double] that the program uses.  [of_Q q] is the
    double denoted by a literal or obtained by converting an integer;
    [to_int] is the conversion [int(x)], undefined outside the range of
    [int].  [dhypot], [dpow] and [dlog2] are the <cmath> functions behind
    [std::abs] of a complex number, [pow] and [log2].  [dfloor] and
    [dround] are <cmath>'s [floor] and [round]: the program does not call
    them, they serve to write down the formulas of the specification. *)
Class Double := {
  double : Type;
  of_Q : Q → double;
  dadd : double → double → double;
  dsub : double → double → double;
  dmul : double → double → double;
  ddiv : double → double → double;
  dle : double → double → bool;
  dlt : double → double → bool;
  to_int : double → option Z;
  dhypot : double → double → double;
  dpow : double → double → double;
  dlog2 : double → double;
  dfloor : double → double;
  dround : double → double
}.

(** [(double)k] for an integer [k]. *)
Definition of_Z `{Double} (k : Z) : double := of_Q (inject_Z k).
Global Arguments of_Z : simpl never.

(** Facts of binary64 arithmetic that the proofs use, each class
    holding what one group of statements needs.  All of them hold of
    IEEE-754 binary64 with rounding to nearest, NaN, the infinities and
    the signed zeros included: a comparison with NaN is false, so a
    hypothesis [dle a b = true] excludes it. *)

(** [a <= b] excludes [b < a]. *)
Class OrderLaws (D : Double) : Prop := {
  dle_not_gt : ∀ a b : double, dle a b = true → dlt b a = false
}.

(** Division of converted integers by a positive converted integer:
    the conversions and the division round monotonically, and
    [x / x = 1.0] for a finite [x] that is not zero. *)
Class DivisionLaws (D : Double) : Prop := {
  ddiv_mono : ∀ a b c,
    Z.abs a ≤ 2 ^ 63 → Z.abs b ≤ 2 ^ 63 → 0 < c ≤ 2 ^ 63 → a ≤ b →
    dle (ddiv (of_Z a) (of_Z c)) (ddiv (of_Z b) (of_Z c)) = true;
  ddiv_diag : ∀ c, 0 < c ≤ 2 ^ 63 → ddiv (of_Z c) (of_Z c) = of_Z 1
}.

(** The conversion [int(x)] truncates toward zero and is monotone; the
    product of two non-negative integers below [2^26] is exact (the
    operands are not negative, so a zero product is [+0.0], the double
    of 0); multiplication by a positive integer is monotone. *)
Class ConversionLaws (D : Double) : Prop := {
  to_int_range : ∀ (a : double) k, to_int a = Some k → INT_MIN ≤ k ≤ INT_MAX;
  to_int_of_Z : ∀ k, INT_MIN ≤ k ≤ INT_MAX → to_int (of_Z k) = Some k;
  to_int_mono : ∀ (a b : double) ka kb,
    dle a b = true → to_int a = Some ka → to_int b = Some kb → ka ≤ kb;
  to_int_floor : ∀ a : double,
    dle (of_Z 0) a = true → to_int (dfloor a) = to_int a;
  dmul_of_Z : ∀ a b,
    0 ≤ a ≤ 2 ^ 26 → 0 ≤ b ≤ 2 ^ 26 → dmul (of_Z a) (of_Z b) = of_Z (a * b);
  dmul_mono : ∀ (a b : double) k,
    0 < k ≤ 2 ^ 53 → dle a b = true → dle (dmul a (of_Z k)) (dmul b (of_Z k)) = true
}.

(** A libm whose [log2] is exact at 1 and 2 and monotone. *)
Class Log2Laws (D : Double) : Prop := {
  dlog2_1 : dlog2 (of_Z 1) = of_Z 0;
  dlog2_2 : dlog2 (of_Z 2) = of_Z 1;
  dlog2_nonneg : ∀ a : double, dle (of_Z 1) a = true → dle (of_Z 0) (dlog2 a) = true;
  dlog2_mono : ∀ a b : double,
    dlt (of_Z 0) a = true → dle a b = true → dle (dlog2 a) (dlog2 b) = true
}.

(** *** Exact real arithmetic *)

Module RealArith.

Definition Rleb (a b : R) : bool := if Rle_dec a b then true else false.
Definition Rltb (a b : R) : bool := if Rlt_dec a b then true else false.

(** Truncation toward zero. *)
Definition Rtrunc (x : R) : Z :=
  if Rle_dec 0 x then Int_part x else - Int_part (- x).

Definition Rto_int (x : R) : option Z :=
  if Rlt_dec (IZR INT_MIN - 1) x then
    if Rlt_dec x (IZR INT_MAX + 1) then Some (Rtrunc x) else None
  else None.

(** [pow x y] for [0 <= x]; a negative base is outside the use the
    program makes of [pow]. *)
Definition Rpow (x y : R) : R := if Rlt_dec 0 x then Rpower x y else 0%R.

Definition Rlog2 (x : R) : R := (ln x / ln 2)%R.

Definition Rhypot (x y : R) : R := sqrt (x * x + y * y).

Definition Rfloor (x : R) : R := IZR (Int_part x).

(** Nearest integer, halves away from zero. *)
Definition Rround (x : R) : R :=
  if Rle_dec 0 x then IZR (Int_part (x + / 2)) else (- IZR (Int_part (- x + / 2)))%R.

End RealArith.

#[export] Instance Rdouble : Double := {|
  double := R;
  of_Q := Q2R;
  dadd := Rplus;
  dsub := Rminus;
  dmul := Rmult;
  ddiv := Rdiv;
  dle := RealArith.Rleb;
  dlt := RealArith.Rltb;
  to_int := RealArith.Rto_int;
  dhypot := RealArith.Rhypot;
  dpow := RealArith.Rpow;
  dlog2 := RealArith.Rlog2;
  dfloor := RealArith.Rfloor;
  dround := RealArith.Rround
|}.

(** ** External collaborators *)

(** A pixel of a [CV_8UC3] matrix: three [uchar] channels. *)
Record Vec3b := mkVec3b { ch0 : Z; ch1 : Z; ch2 : Z }.

(** A [cv::Mat] of [Vec3b]: its dimensions and its rows. *)
Record Mat := mkMat { rows : Z; cols : Z; pixels : list (list Vec3b) }.

(** OpenCV's [cvtColor(hsv, rgb, COLOR_HSV2BGR)] on a one-pixel matrix. *)
Class OpenCV := { cvtColor_HSV2BGR : Vec3b → Vec3b }.

(** The OpenMP runtime: [omp_get_max_threads()], which is also the size
    of the team, and the thread that [#pragma omp for] gives row [y] to. *)
Record OpenMP := mkOpenMP { omp_max_threads : Z; omp_schedule : Z → Z }.

(** [cv::saturate_cast<uchar>] of an integer value. *)
Definition saturate_uchar (v : Z) : Z := Z.max 0 (Z.min 255 v).

(** [Mat(rows, cols, CV_8UC3)]: the content is whatever the allocator
    left there, [fill]; a negative dimension raises an exception. *)
Definition Mat_create (r c : Z) (fill : Vec3b) : option Mat :=
  row ← vec_new c fill;
  px ← vec_new r row;
  Some (mkMat r c px).

(** [image.at<Vec3b>(y, x)] read and written. *)
Definition Mat_at (m : Mat) (y x : Z) : option Vec3b :=
  row ← vec_get (pixels m) y; vec_get row x.

Definition Mat_put (m : Mat) (y x : Z) (v : Vec3b) : option Mat :=
  row ← vec_get (pixels m) y;
  row' ← vec_set row x v;
  px ← vec_set (pixels m) y row';
  Some (mkMat (rows m) (cols m) px).

(** The result of running a loop with a bound on the number of its
    iterations. *)
Inductive outcome (A : Type) : Type :=
  | Returned (a : A)
  | Undefined
  | OutOfFuel.
Arguments Returned {A} a.
Arguments Undefined {A}.
Arguments OutOfFuel {A}.

(** ** The program *)

Section Program.
Context {D : Double} {CV : OpenCV}.

(** [std::complex<double>] *)
Record complex := Complex { real : double; imag : double }.

Definition cadd (a b : complex) : complex :=
  Complex (dadd (real a) (real b)) (dadd (imag a) (imag b)).

(** The product of the library, without the branch that repairs a
    result whose two parts are NaN. *)
Definition cmul (a b : complex) : complex :=
  Complex (dsub (dmul (real a) (real b)) (dmul (imag a) (imag b)))
          (dadd (dmul (real a) (imag b)) (dmul (imag a) (real b))).

(** [std::abs(z)] *)
Definition cabs (z : complex) : double := dhypot (real z) (imag z).

(** *** computeEscapeValues *)

(** The complex point of pixel [(x, y)]. *)
Definition pixel_point (width height : Z) (x_min x_max y_min y_max : double)
    (x y : Z) : complex :=
  Complex (dadd x_min (dmul (ddiv (of_Z x) (of_Z width)) (dsub x_max x_min)))
          (dadd y_min (dmul (ddiv (of_Z y) (of_Z height)) (dsub y_max y_min))).

(** [while (abs(z) <= 2.0 && n < maxIter) { z = z * z + c; n++; }]
    run for at most [fuel] iterations; [n < maxIter <= INT_MAX] at the
    increment, which therefore does not overflow. *)
Fixpoint escape_loop (fuel : nat) (maxIter : Z) (c z : complex) (n : Z) : option Z :=
  if dle (cabs z) (of_Z 2) && (n <? maxIter) then
    match fuel with
    | O => None
    | S fuel' => escape_loop fuel' maxIter c (cadd (cmul z z) c) (n + 1)
    end
  else Some n.

(** The body of the two loops, for pixel [(x, y)] run by thread [tid]. *)
Definition escape_pixel (maxIter width height : Z)
    (x_min x_max y_min y_max : double) (tid y x : Z)
    (st : list (list Z) * list (list Z)) : option (list (list Z) * list (list Z)) :=
  let '(storeN, histPerThread) := st in
  let c := pixel_point width height x_min x_max y_min y_max x y in
  n ← escape_loop (Z.to_nat maxIter) maxIter c (Complex (of_Z 0) (of_Z 0)) 0;
  row ← vec_get storeN y;
  row' ← vec_set row x n;
  storeN' ← vec_set storeN y row';
  localHist ← vec_get histPerThread tid;
  count ← vec_get localHist n;
  localHist' ← vec_set localHist n (wrap32 (count + 1));
  histPerThread' ← vec_set histPerThread tid localHist';
  Some (storeN', histPerThread').

Definition computeEscapeValues (omp : OpenMP)
    (storeN histPerThread : list (list Z)) (maxIter width height : Z)
    (x_min x_max y_min y_max : double) : option (list (list Z) * list (list Z)) :=
  (* every thread of the team binds [localHist = histPerThread[tid]] *)
  if decide (omp_max_threads omp ≤ Z.of_nat (length histPerThread)) then
    for_loop 0 height (λ y st,
      let tid := omp_schedule omp y in
      for_loop 0 width
        (escape_pixel maxIter width height x_min x_max y_min y_max tid y) st)
      (storeN, histPerThread)
  else None.

(** *** computeHistogram *)

Definition computeHistogram (histPerThread : list (list Z)) (maxIter : Z)
    : option (list Z) :=
  let nThreads := wrap32 (Z.of_nat (length histPerThread)) in
  hist ← vec_new (wrap32 (maxIter + 1)) 0;
  for_loop 0 nThreads (λ t hist,
    for_loop 0 (maxIter + 1) (λ i hist,
      perThread ← vec_get histPerThread t;
      v ← vec_get perThread i;
      old ← vec_get hist i;
      vec_set hist i (wrap32 (old + v))) hist) hist.

(** *** computeCDF *)

Definition computeCDF (hist : list Z) (totalPixels : Z) : option (list double) :=
  let maxIter := wrap32 (Z.of_nat (length hist) - 1) in
  cdf ← vec_new (wrap32 (maxIter + 1)) (of_Z 0);
  r ← for_loop 0 (maxIter + 1) (λ i (st : Z * list double),
        h ← vec_get hist i;
        let accum := wrap64 (st.1 + h) in
        cdf' ← vec_set st.2 i (ddiv (of_Z accum) (of_Z totalPixels));
        Some (accum, cdf')) (0, cdf);
  Some r.2.

(** *** colorizeImage *)

(** [int V = int(255 * vGamma)] for [v = cdf[n]]. *)
Definition intensity (v : double) : option Z :=
  let gamma := of_Q (1 # 2) in
  let vGamma := dpow v gamma in
  to_int (dmul (of_Z 255) vGamma).

(** The colour of a pixel that left the disc after [n < maxIter] steps. *)
Definition escaped_color (cdf : list double) (n : Z) : option Vec3b :=
  v ← vec_get cdf n;
  V ← intensity v;
  let H := 110 in
  let S := 255 in
  let hsv := mkVec3b (saturate_uchar H) (saturate_uchar S) (saturate_uchar V) in
  Some (cvtColor_HSV2BGR hsv).

Definition colorize_pixel (storeN : list (list Z)) (cdf : list double)
    (maxIter y x : Z) (image : Mat) : option Mat :=
  row ← vec_get storeN y;
  n ← vec_get row x;
  if decide (n = maxIter) then Mat_put image y x (mkVec3b 0 0 0)
  else rgb ← escaped_color cdf n; Mat_put image y x rgb.

Definition colorizeImage (image : Mat) (storeN : list (list Z))
    (cdf : list double) (maxIter : Z) : option Mat :=
  let width := cols image in
  let height := rows image in
  for_loop 0 height (λ y image,
    for_loop 0 width (colorize_pixel storeN cdf maxIter y) image) image.

(** *** writeFrame *)

(** [imwrite] of the file [images/frame_<frame>.png]; the directory is
    the list of the files written so far. *)
Definition writeFrame (img : Mat) (frame : Z) (dir : list (Z * Mat))
    : list (Z * Mat) :=
  dir ++ [(frame, img)].

(** *** computeFrame *)

(** What [computeFrame] can reach: [zoom] and [image], which it
    receives by reference, its static [frameCount] and the directory. *)
Record Memory := mkMemory {
  zoom : double;
  image : Mat;
  frameCount : Z;
  images_dir : list (Z * Mat)
}.

(** [int maxIter = 64 + int(log2(zoom) * 64)] *)
Definition frame_maxIter (zoom : double) : option Z :=
  k ← to_int (dmul (dlog2 zoom) (of_Z 64));
  Some (wrap32 (64 + k)).

(** The viewport of a frame: [(x_min, x_max, y_min, y_max)]. *)
Definition frame_viewport (centerX centerY xRangeStart yRangeStart zoom : double)
    : double * double * double * double :=
  let scale := ddiv (of_Z 1) zoom in
  let xRange := dmul xRangeStart scale in
  let yRange := dmul yRangeStart scale in
  (dsub centerX (ddiv xRange (of_Z 2)), dadd centerX (ddiv xRange (of_Z 2)),
   dsub centerY (ddiv yRange (of_Z 2)), dadd centerY (ddiv yRange (of_Z 2))).

(** The numeric part of [computeFrame]: field, merged histogram, CDF. *)
Definition frame_data (omp : OpenMP) (width height maxIter : Z)
    (x_min x_max y_min y_max : double)
    : option (list (list Z) * list Z * list double) :=
  let nThreads := omp_max_threads omp in
  row ← vec_new width 0;
  storeN ← vec_new height row;
  perThread ← vec_new (wrap32 (maxIter + 1)) 0;
  histPerThread ← vec_new nThreads perThread;
  r ← computeEscapeValues omp storeN histPerThread maxIter width height
        x_min x_max y_min y_max;
  hist ← computeHistogram r.2 maxIter;
  cdf ← computeCDF hist (wrap64 (width * height));
  Some (r.1, hist, cdf).

Definition computeFrame (omp : OpenMP) (width height : Z)
    (centerX centerY xRangeStart yRangeStart : double) (m : Memory)
    : option Memory :=
  let '(x_min, x_max, y_min, y_max) :=
    frame_viewport centerX centerY xRangeStart yRangeStart (zoom m) in
  maxIter ← frame_maxIter (zoom m);
  d ← frame_data omp width height maxIter x_min x_max y_min y_max;
  let '(storeN, hist, cdf) := d in
  image' ← colorizeImage (image m) storeN cdf maxIter;
  let dir := writeFrame image' (frameCount m) (images_dir m) in
  Some (mkMemory (zoom m) image' (wrap32 (frameCount m + 1)) dir).

(** *** main *)

(** The state of the render loop: the memory, the counter [frame] and
    the progress lines printed so far (frame number and zoom). *)
Record LoopState := mkLoopState {
  mem : Memory;
  frame : Z;
  progress : list (Z * double)
}.

(** [while (zoom < zoomEnd) { zoom *= scalePerFrame; computeFrame(..);
    cout << frame << zoom; frame++; }] run for at most [fuel]
    iterations. *)
Fixpoint render_loop (fuel : nat) (omp : OpenMP) (width height : Z)
    (centerX centerY xRangeStart yRangeStart zoomEnd scalePerFrame : double)
    (s : LoopState) : outcome LoopState :=
  if dlt (zoom (mem s)) zoomEnd then
    match fuel with
    | O => OutOfFuel
    | S fuel' =>
        let m := mem s in
        let m1 := mkMemory (dmul (zoom m) scalePerFrame) (image m)
                           (frameCount m) (images_dir m) in
        match computeFrame omp width height centerX centerY
                           xRangeStart yRangeStart m1 with
        | None => Undefined
        | Some m2 =>
            render_loop fuel' omp width height centerX centerY
              xRangeStart yRangeStart zoomEnd scalePerFrame
              (mkLoopState m2 (wrap32 (frame s + 1))
                           (progress s ++ [(frame s, zoom m2)]))
        end
    end
  else Returned s.

(** The figures of the final report. *)
Record Report := mkReport {
  frames_generated : Z;
  final_zoom : double;
  total_time : double;
  time_per_frame : double;
  frames_written : list (Z * Mat);
  progress_lines : list (Z * double)
}.

(** [pow(pow(2.0, 1.0 / secondsPerZoomDoubling), 1.0 / fps)] *)
Definition scalePerFrame_of (fps : Z) : double :=
  let secondsPerZoomDoubling := of_Q (5 # 4) in
  let zoomScalePerSecond := dpow (of_Z 2) (ddiv (of_Z 1) secondsPerZoomDoubling) in
  dpow zoomScalePerSecond (ddiv (of_Z 1) (of_Z fps)).

(** The constants of [main]: the centre of the zoom and the ranges of
    the first viewport. *)
Definition centerX : double :=
  of_Q (-74364388703715870475 # 100000000000000000000).
Definition centerY : double :=
  of_Q (13182590420531197049 # 100000000000000000000).
Definition xRangeStart : double := of_Z 3.
Definition yRangeStart (width height : Z) : double :=
  let aspect := ddiv (of_Z width) (of_Z height) in
  ddiv xRangeStart aspect.

(** [main] after the parsing of its arguments.  [fill] is the content
    of the freshly allocated image and [elapsedSec] the time the clock
    measures; the shell commands and the video encoder are left out. *)
Definition main (fuel : nat) (omp : OpenMP) (width height fps : Z)
    (zoomEnd : double) (fill : Vec3b) (elapsedSec : double) : outcome Report :=
  match Mat_create height width fill with
  | None => Undefined
  | Some img =>
      let zoom0 := of_Z 1 in
      let scalePerFrame := scalePerFrame_of fps in
      match render_loop fuel omp width height centerX centerY
              xRangeStart (yRangeStart width height) zoomEnd scalePerFrame
              (mkLoopState (mkMemory zoom0 img 0 []) 0 []) with
      | Returned s =>
          Returned (mkReport (frame s) (zoom (mem s)) elapsedSec
                             (ddiv elapsedSec (of_Z (frame s)))
                             (images_dir (mem s)) (progress s))
      | Undefined => Undefined
      | OutOfFuel => OutOfFuel
      end
  end.

End Program.

(** ** Notions used in the statements *)

(** The sum of a list of integers. *)
Definition Zsum (l : list Z) : Z := foldr Z.add 0 l.

(** A matrix stored as a vector of [r] rows of [c] elements. *)
Definition shape {A} (r c : Z) (m : list (list A)) : Prop :=
  Z.of_nat (length m) = r ∧ Forall (λ row, Z.of_nat (length row) = c) m.

(** The element [(y, x)] of a vector of rows. *)
Definition cell {A} (m : list (list A)) (y x : Z) : option A :=
  row ← vec_get m y; vec_get row x.

(** The number of pixels of a field whose escape value is [i]. *)
Definition count_value (field : list (list Z)) (i : Z) : Z :=
  Z.of_nat (length (filter (λ n, n = i) (concat field))).

(** The sum over the workers of their counters for the value [i]. *)
Definition column_sum (hs : list (list Z)) (i : Z) : Z :=
  Zsum ((λ h, default 0 (vec_get h i)) <$> hs).

(** [hs] distributes the pixel counts of [field] over per-worker
    histograms of length [maxIter + 1]. *)
Definition partition_of (field : list (list Z)) (maxIter : Z)
    (hs : list (list Z)) : Prop :=
  Forall (λ h, Z.of_nat (length h) = maxIter + 1) hs ∧
  ∀ i, 0 ≤ i ≤ maxIter → column_sum hs i = count_value field i.

(** The sum of the entries [0 .. i] of a histogram. *)
Definition prefix_sum (hist : list Z) (i : Z) : Z :=
  Zsum (take (Z.to_nat (i + 1)) hist).

(** A team of at least one thread whose schedule names threads of the team. *)
Definition team_ok (omp : OpenMP) : Prop :=
  0 < omp_max_threads omp ≤ INT_MAX ∧
  ∀ y, 0 ≤ omp_schedule omp y < omp_max_threads omp.

(** A team of two threads that takes the rows in turn. *)
Definition two_threads : OpenMP := mkOpenMP 2 (λ y, y mod 2).

(** A team of two threads whose first thread runs every row. *)
Definition first_thread_only : OpenMP := mkOpenMP 2 (λ _, 0).

(** A stand-in for OpenCV's conversion, to run the program on an
    example: it reverses the order of the channels and leaves their
    values as they are. *)
Definition channel_swap : OpenCV :=
  {| cvtColor_HSV2BGR := λ hsv, mkVec3b (ch2 hsv) (ch1 hsv) (ch0 hsv) |}.

(** A two by two image of one colour. *)
Definition grey_image : Mat :=
  mkMat 2 2 [[mkVec3b 7 7 7; mkVec3b 7 7 7]; [mkVec3b 7 7 7; mkVec3b 7 7 7]].

(** A well-formed matrix: [rows] rows of [cols] pixels. *)
Definition Mat_ok (m : Mat) : Prop := shape (rows m) (cols m) (pixels m).

Section Notions.
Context {D : Double} {CV : OpenCV}.

(** The iterates [z_0 = 0], [z_(k+1) = z_k * z_k + c]. *)
Fixpoint orbit (c : complex) (k : nat) : complex :=
  match k with
  | O => Complex (of_Z 0) (of_Z 0)
  | S k' => cadd (cmul (orbit c k') (orbit c k')) c
  end.

(** The test [abs(z) <= 2.0] of the escape loop. *)
Definition inside (z : complex) : bool := dle (cabs z) (of_Z 2).

(** [n] is the number of the first iterate that is outside the disc of
    radius 2, or [maxIter] when the first [maxIter] iterates are inside. *)
Definition is_escape_count (maxIter : Z) (c : complex) (n : Z) : Prop :=
  0 ≤ n ≤ maxIter ∧
  (∀ k, 0 ≤ k < n → inside (orbit c (Z.to_nat k)) = true) ∧
  (n < maxIter → inside (orbit c (Z.to_nat n)) = false).

(** The value the escape loop computes for the point [c]. *)
Definition escape_count (maxIter : Z) (c : complex) : Z :=
  default 0 (escape_loop (Z.to_nat maxIter) maxIter c
               (Complex (of_Z 0) (of_Z 0)) 0).

(** The field of a frame, row by row. *)
Definition escape_field (maxIter width height : Z)
    (x_min x_max y_min y_max : double) : list (list Z) :=
  (λ y, (λ x, escape_count maxIter
                (pixel_point width height x_min x_max y_min y_max x y))
        <$> seqZ 0 width) <$> seqZ 0 height.

(** One pixel of the two loops of [computeEscapeValues] as a function
    on the field and as a function on the histograms. *)
Definition store_pixel (storeN : list (list Z)) (y x n : Z) : list (list Z) :=
  alter (λ row, <[Z.to_nat x := n]> row) (Z.to_nat y) storeN.

Definition count_pixel (histPerThread : list (list Z)) (tid n : Z)
    : list (list Z) :=
  alter (alter (λ count, wrap32 (count + 1)) (Z.to_nat n)) (Z.to_nat tid)
        histPerThread.

(** The state of the loops of [computeEscapeValues] is well formed:
    a field of [height] rows of [width] values and, for each thread of
    the team, a histogram of length [maxIter + 1]. *)
Definition escape_state_ok (maxIter width height threads : Z)
    (st : list (list Z) * list (list Z)) : Prop :=
  shape height width st.1 ∧
  Forall (λ h, Z.of_nat (length h) = maxIter + 1) st.2 ∧
  threads ≤ Z.of_nat (length st.2).

(** The colour [colorizeImage] gives to pixel [(y, x)]. *)
Definition pixel_color (storeN : list (list Z)) (cdf : list double)
    (maxIter y x : Z) : option Vec3b :=
  n ← cell storeN y x;
  if decide (n = maxIter) then Some (mkVec3b 0 0 0) else escaped_color cdf n.

(** [computeFrame] is defined on every memory whose zoom is [z] and
    whose image has the dimensions of the frame. *)
Definition frame_defined (omp : OpenMP) (width height : Z)
    (cX cY xRange yRange z : double) : Prop :=
  ∀ m : Memory,
    zoom m = z → Mat_ok (image m) →
    rows (image m) = height → cols (image m) = width →
    is_Some (computeFrame omp width height cX cY xRange yRange m).

(** The zoom after [k] iterations of the render loop. *)
Fixpoint zoom_at (scalePerFrame : double) (k : nat) : double :=
  match k with
  | O => of_Z 1
  | S k' => dmul (zoom_at scalePerFrame k') scalePerFrame
  end.

(** The progress lines of the first [k] frames. *)
Definition progress_upto (scalePerFrame : double) (k : nat) : list (Z * double) :=
  (λ j : nat, (Z.of_nat j, zoom_at scalePerFrame (S j))) <$> seq 0 k.

(** The iteration depth as the specification writes it:
    [64 + floor(log2(zoom) * 64)]. *)
Definition spec_maxIter (zoom : double) : option Z :=
  k ← to_int (dfloor (dmul (dlog2 zoom) (of_Z 64)));
  Some (64 + k).

(** The intensity as the specification writes it:
    [round(255 * v^0.5)]. *)
Definition spec_intensity (v : double) : option Z :=
  to_int (dround (dmul (of_Z 255) (dpow v (of_Q (1 # 2))))).

End Notions.

(** ** Formatted output *)

(** [sprintf] with the two formats of the program.  A C string is the
    list of its characters, without the final NUL. *)
Module Sprintf.
Import Ascii String.

(** The character of a decimal digit. *)
Definition digit_char (d : Z) : ascii :=
  match d with
  | 0 => "0" | 1 => "1" | 2 => "2" | 3 => "3" | 4 => "4"
  | 5 => "5" | 6 => "6" | 7 => "7" | 8 => "8" | _ => "9"
  end%char.

(** The decimal digits of [n >= 0], the most significant first;
    [fuel] bounds their number. *)
Fixpoint decimal_digits (fuel : nat) (n : Z) : list ascii :=
  match fuel with
  | O => []
  | S fuel' =>
      (if n <? 10 then [] else decimal_digits fuel' (n / 10))
      ++ [digit_char (n mod 10)]
  end.

(** The magnitude of an [int] has at most ten digits. *)
Definition decimal (n : Z) : list ascii := decimal_digits 10 n.

(** The conversion [%d]. *)
Definition format_d (k : Z) : list ascii :=
  if k <? 0 then "-"%char :: decimal (- k) else decimal k.

(** Zeros in front of [s] up to the width [w]. *)
Definition pad_zeros (w : nat) (s : list ascii) : list ascii :=
  replicate (w - List.length s) "0"%char ++ s.

(** The conversion [%05d]: at least five characters, the zeros between
    the sign and the digits. *)
Definition format_05d (k : Z) : list ascii :=
  if k <? 0 then "-"%char :: pad_zeros 4 (decimal (- k))
  else pad_zeros 5 (decimal k).

(** [sprintf(filename, "images/frame_%05d.png", frame)] in [writeFrame]. *)
Definition filename (frame : Z) : list ascii :=
  list_ascii_of_string "images/frame_" ++ format_05d frame
  ++ list_ascii_of_string ".png".

(** [sprintf(cmd, "ffmpeg -y -framerate %d -i images/frame_%%05d.png "
    "-c:v libx264 -pix_fmt yuv420p mandelbrot_zoom.mp4", fps)] in [main]. *)
Definition cmd (fps : Z) : list ascii :=
  list_ascii_of_string "ffmpeg -y -framerate " ++ format_d fps
  ++ list_ascii_of_string
       " -i images/frame_%05d.png -c:v libx264 -pix_fmt yuv420p mandelbrot_zoom.mp4".

(** The integer that a string of digits, with or without a sign,
    denotes. *)
Definition digit_value (c : ascii) : Z := Z.of_nat (nat_of_ascii c) - 48.

Definition decimal_value (s : list ascii) : Z :=
  foldl (λ a c, 10 * a + digit_value c) 0 s.

Definition int_value (s : list ascii) : Z :=
  match s with
  | c :: s' => if Ascii.eqb c "-" then - decimal_value s' else decimal_value s
  | [] => 0
  end.

End Sprintf.

(** ** Integers, vectors and loops *)

Lemma wrap32_id z : INT_MIN ≤ z ≤ INT_MAX → wrap32 z = z.
Proof.
  unfold INT_MIN, INT_MAX, wrap32. intros Hz.
  rewrite Z.mod_small; lia.
Qed.

Lemma wrap64_id z : - 2 ^ 63 ≤ z ≤ LONG_MAX → wrap64 z = z.
Proof.
  unfold LONG_MAX, wrap64. intros Hz.
  rewrite Z.mod_small; lia.
Qed.

Lemma wrap32_add_l a b : wrap32 (wrap32 a + b) = wrap32 (a + b).
Proof.
  unfold wrap32. f_equal.
  replace ((a + 2 ^ 31) mod 2 ^ 32 - 2 ^ 31 + b + 2 ^ 31)
    with ((a + 2 ^ 31) mod 2 ^ 32 + b) by lia.
  rewrite Zplus_mod_idemp_l. f_equal. lia.
Qed.

Lemma wrap32_add_r a b : wrap32 (a + wrap32 b) = wrap32 (a + b).
Proof. rewrite (Z.add_comm a), wrap32_add_l. f_equal. lia. Qed.

Lemma vec_new_Some {A} n (a : A) :
  0 ≤ n → vec_new n a = Some (replicate (Z.to_nat n) a).
Proof. intros Hn. unfold vec_new. by rewrite decide_True. Qed.

Lemma vec_get_Some {A} (v : list A) (i : nat) a :
  v !! i = Some a → vec_get v (Z.of_nat i) = Some a.
Proof.
  intros Hi. unfold vec_get. rewrite decide_True by lia.
  by rewrite Nat2Z.id.
Qed.

Lemma vec_get_lookup {A} (v : list A) i :
  0 ≤ i → vec_get v i = v !! Z.to_nat i.
Proof. intros Hi. unfold vec_get. by rewrite decide_True. Qed.

Lemma vec_get_lt {A} (v : list A) i :
  0 ≤ i < Z.of_nat (length v) → ∃ a, vec_get v i = Some a ∧ v !! Z.to_nat i = Some a.
Proof.
  intros Hi. rewrite vec_get_lookup by lia.
  destruct (lookup_lt_is_Some_2 v (Z.to_nat i)) as [a Ha]; [lia|]. eauto.
Qed.

Lemma vec_set_Some {A} (v : list A) i a :
  0 ≤ i < Z.of_nat (length v) → vec_set v i a = Some (<[Z.to_nat i := a]> v).
Proof. intros Hi. unfold vec_set. by rewrite decide_True. Qed.

(** A loop whose body computes a function [f] of the state, as long as
    the state satisfies [P], computes the fold of [f]. *)
Lemma foldM_pure {A S} (P : S → Prop) (f : S → A → S) (body : A → S → option S)
    (l : list A) (s : S) :
  P s →
  (∀ a s, a ∈ l → P s → body a s = Some (f s a) ∧ P (f s a)) →
  foldM body l s = Some (foldl f s l) ∧ P (foldl f s l).
Proof.
  revert s. induction l as [|a l IH]; intros s Hs Hbody; simpl; [done|].
  destruct (Hbody a s) as [-> HP]; [left | done |]. simpl.
  apply IH; [done|]. intros b s' Hb. apply Hbody. by right.
Qed.

Lemma for_loop_pure {S} (P : S → Prop) (f : S → Z → S) (body : Z → S → option S)
    (n : Z) (s : S) :
  P s →
  (∀ i s, 0 ≤ i < n → P s → body i s = Some (f s i) ∧ P (f s i)) →
  for_loop 0 n body s = Some (foldl f s (seqZ 0 n)) ∧ P (foldl f s (seqZ 0 n)).
Proof.
  intros Hs Hbody. unfold for_loop. rewrite Z.sub_0_r.
  apply foldM_pure; [done|]. intros i s' Hi. apply Hbody.
  apply elem_of_seqZ in Hi. lia.
Qed.

(** ** The escape loop *)

Section EscapeLoop.
Context {D : Double}.

Lemma escape_loop_from (maxIter : Z) (c : complex) (fuel j : nat) :
  Z.of_nat j ≤ maxIter →
  (Z.to_nat (maxIter - Z.of_nat j) ≤ fuel)%nat →
  (∀ k, 0 ≤ k < Z.of_nat j → inside (orbit c (Z.to_nat k)) = true) →
  ∃ n, escape_loop fuel maxIter c (orbit c j) (Z.of_nat j) = Some n ∧
       is_escape_count maxIter c n.
Proof.
  revert j. induction fuel as [|fuel IH]; intros j Hj Hfuel Hin.
  - assert (Z.of_nat j = maxIter) as Hjm by lia.
    exists (Z.of_nat j). split.
    + simpl. replace (Z.of_nat j <? maxIter) with false
        by (symmetry; apply Z.ltb_ge; lia).
      by rewrite andb_false_r.
    + split; [lia|]. split; [done|]. lia.
  - simpl. destruct (dle (cabs (orbit c j)) (of_Z 2)) eqn:Hz; simpl.
    + destruct (Z.ltb_spec (Z.of_nat j) maxIter) as [Hlt|Hge].
      * replace (Z.of_nat j + 1) with (Z.of_nat (S j)) by lia.
        change (cadd (cmul (orbit c j) (orbit c j)) c) with (orbit c (S j)).
        apply IH; [lia | lia |].
        intros k Hk. destruct (decide (k = Z.of_nat j)) as [->|Hne].
        -- by rewrite Nat2Z.id.
        -- apply Hin. lia.
      * exists (Z.of_nat j). split; [done|].
        split; [lia|]. split; [done|]. lia.
    + exists (Z.of_nat j). split; [done|].
      split; [lia|]. split; [done|].
      intros _. by rewrite Nat2Z.id.
Qed.

(** The loop of a pixel ends within [maxIter] iterations, with the
    escape count of its point. *)
Lemma escape_loop_count (maxIter : Z) (c : complex) :
  0 ≤ maxIter →
  escape_loop (Z.to_nat maxIter) maxIter c (Complex (of_Z 0) (of_Z 0)) 0
    = Some (escape_count maxIter c) ∧
  is_escape_count maxIter c (escape_count maxIter c).
Proof.
  intros Hm.
  destruct (escape_loop_from maxIter c (Z.to_nat maxIter) 0) as (n & Hn & Hc).
  - simpl. lia.
  - simpl. lia.
  - intros k Hk. simpl in Hk. lia.
  - change (orbit c 0) with (Complex (of_Z 0) (of_Z 0)) in Hn.
    change (Z.of_nat 0) with 0 in Hn.
    unfold escape_count. rewrite Hn. done.
Qed.

(** Whatever the bound, [maxIter] iterations are enough for the loop
    to end. *)
Lemma escape_loop_total (maxIter : Z) (c : complex) :
  ∃ n, escape_loop (Z.to_nat maxIter) maxIter c
         (Complex (of_Z 0) (of_Z 0)) 0 = Some n ∧
       0 ≤ n ≤ Z.max 0 maxIter.
Proof.
  destruct (Z_lt_le_dec maxIter 0) as [Hneg|Hm].
  - exists 0. replace (Z.to_nat maxIter) with 0%nat by lia.
    cbn [escape_loop]. rewrite (proj2 (Z.ltb_ge 0 maxIter)) by lia.
    rewrite andb_false_r. split; [done | lia].
  - destruct (escape_loop_count maxIter c Hm) as [Hloop (Hn & _)].
    exists (escape_count maxIter c). split; [done | lia].
Qed.

End EscapeLoop.

(** ** Filling a vector in place *)

Lemma insert_as_alter {A} (f : A → A) (l : list A) (i : nat) (a : A) :
  l !! i = Some a → <[i := f a]> l = alter f i l.
Proof.
  revert i. induction l as [|b l IH]; intros [|i] Hi; simpl in *; try done.
  - by simplify_eq.
  - f_equal. by apply IH.
Qed.

(** A loop that rewrites the elements [0 .. n-1] one after the other,
    each from its old value, yields the vector of the new values. *)
Lemma alter_fill {A} (F : Z → A → A) (g : Z → A) (l : list A) (n : Z) :
  Z.of_nat (length l) = n →
  (∀ i a, l !! i = Some a → F (Z.of_nat i) a = g (Z.of_nat i)) →
  foldl (λ l i, alter (F i) (Z.to_nat i) l) l (seqZ 0 n) = g <$> seqZ 0 n.
Proof.
  intros Hlen HF.
  assert (∀ k : nat, (k ≤ length l)%nat →
    foldl (λ l i, alter (F i) (Z.to_nat i) l) l (seqZ 0 (Z.of_nat k))
    = (g <$> seqZ 0 (Z.of_nat k)) ++ drop k l) as Hk.
  { induction k as [|k IH]; intros Hle.
    - simpl. by rewrite drop_0.
    - rewrite seqZ_S, foldl_snoc, fmap_app, IH by lia. simpl.
      destruct (lookup_lt_is_Some_2 l k) as [a Ha]; [lia|].
      rewrite !Z.add_0_l.
      rewrite Nat2Z.id, <- (insert_as_alter (F (Z.of_nat k)) _ k a).
      + rewrite insert_app_r_alt
          by (rewrite length_fmap, length_seqZ; lia).
        rewrite length_fmap, length_seqZ, Nat2Z.id, Nat.sub_diag.
        rewrite (drop_S l a k Ha). simpl.
        rewrite (HF k a Ha), <- app_assoc. done.
      + rewrite lookup_app_r by (rewrite length_fmap, length_seqZ; lia).
        rewrite length_fmap, length_seqZ, Nat2Z.id, Nat.sub_diag.
        by rewrite lookup_drop, Nat.add_0_r. }
  subst n. rewrite Hk by lia. by rewrite drop_all, app_nil_r.
Qed.

Lemma foldl_alter_same {A B} (h : B → A → A) (i : nat) (l : list A) (xs : list B) :
  foldl (λ l x, alter (h x) i l) l xs
  = alter (λ a, foldl (λ a x, h x a) a xs) i l.
Proof.
  revert l. induction xs as [|x xs IH]; intros l; simpl.
  - symmetry. by apply list_alter_id.
  - by rewrite IH, list_alter_alter_eq.
Qed.

Lemma foldl_ext {A S} (f g : S → A → S) (s : S) (l : list A) :
  (∀ s a, f s a = g s a) → foldl f s l = foldl g s l.
Proof.
  intros Hfg. revert s. induction l as [|a l IH]; intros s; simpl; [done|].
  by rewrite Hfg, IH.
Qed.

Lemma foldl_concat {A S} (f : S → A → S) (s : S) (ls : list (list A)) :
  foldl f s (concat ls) = foldl (λ s l, foldl f s l) s ls.
Proof.
  revert s. induction ls as [|l ls IH]; intros s; simpl; [done|].
  by rewrite foldl_app, IH.
Qed.

Lemma foldl_pair {A S T} (f : S → A → S) (g : T → A → T) (s : S) (t : T) l :
  foldl (λ st a, (f st.1 a, g st.2 a)) (s, t) l = (foldl f s l, foldl g t l).
Proof. revert s t. induction l as [|a l IH]; intros s t; simpl; [done|]. apply IH. Qed.

Lemma shape_lookup {A} r c (m : list (list A)) y :
  shape r c m → 0 ≤ y < r →
  ∃ row, m !! Z.to_nat y = Some row ∧ Z.of_nat (length row) = c.
Proof.
  intros [Hr Hc] Hy.
  destruct (lookup_lt_is_Some_2 m (Z.to_nat y)) as [row Hrow]; [lia|].
  exists row. split; [done|].
  by apply (Forall_lookup_1 _ _ _ _ Hc Hrow).
Qed.

Lemma shape_alter {A} r c (m : list (list A)) (f : list A → list A) i :
  (∀ row, length (f row) = length row) →
  shape r c m → shape r c (alter f i m).
Proof.
  intros Hf [Hr Hc]. split; [by rewrite length_alter|].
  apply Forall_lookup_2. intros j row. rewrite list_lookup_alter.
  destruct (decide (i = j)) as [->|].
  - destruct (m !! j) as [row0|] eqn:Hj; simpl; [|done].
    intros [= <-]. rewrite Hf. by apply (Forall_lookup_1 _ _ _ _ Hc Hj).
  - intros Hj. by apply (Forall_lookup_1 _ _ _ _ Hc Hj).
Qed.

(** ** computeEscapeValues *)

Section EscapeValues.
Context {D : Double}.
Variables (maxIter width height : Z) (x_min x_max y_min y_max : double).

Let point := pixel_point width height x_min x_max y_min y_max.
Let value (y x : Z) : Z := escape_count maxIter (point x y).

Lemma escape_pixel_pure threads tid y x st :
  0 ≤ maxIter → 0 ≤ y < height → 0 ≤ x < width → 0 ≤ tid < threads →
  escape_state_ok maxIter width height threads st →
  escape_pixel maxIter width height x_min x_max y_min y_max tid y x st
    = Some (store_pixel st.1 y x (value y x), count_pixel st.2 tid (value y x)) ∧
  escape_state_ok maxIter width height threads
    (store_pixel st.1 y x (value y x), count_pixel st.2 tid (value y x)).
Proof.
  intros Hm Hy Hx Ht (Hs & Hh & Hlen). destruct st as [storeN hists].
  simpl in *. unfold escape_pixel.
  destruct (escape_loop_count maxIter (point x y) Hm) as [Hloop (Hn & _)].
  fold (value y x) in Hloop, Hn. unfold point in Hloop. rewrite Hloop. simpl.
  destruct (shape_lookup _ _ _ y Hs Hy) as (row & Hrow & Hrowlen).
  rewrite (vec_get_lookup storeN y), Hrow by lia. simpl.
  rewrite (vec_set_Some row) by lia. simpl.
  rewrite (vec_set_Some storeN) by (destruct Hs; lia). simpl.
  destruct (lookup_lt_is_Some_2 hists (Z.to_nat tid)) as [h Hhist]; [lia|].
  rewrite (vec_get_lookup hists tid), Hhist by lia. simpl.
  pose proof (Forall_lookup_1 _ _ _ _ Hh Hhist) as Hhlen. simpl in Hhlen.
  destruct (lookup_lt_is_Some_2 h (Z.to_nat (value y x))) as [c Hc]; [lia|].
  rewrite (vec_get_lookup h), Hc by lia. simpl.
  rewrite (vec_set_Some h) by lia. simpl.
  rewrite (vec_set_Some hists) by lia. simpl.
  split.
  - unfold store_pixel, count_pixel. do 2 f_equal.
    + by apply (insert_as_alter (λ r, <[Z.to_nat x := value y x]> r)).
    + rewrite (insert_as_alter (λ count, wrap32 (count + 1)) h _ c Hc).
      by apply (insert_as_alter (alter (λ count, wrap32 (count + 1))
                                       (Z.to_nat (value y x)))).
  - split; [|split]; simpl.
    + apply shape_alter; [|done]. intros r. by rewrite length_insert.
    + unfold count_pixel. apply Forall_lookup_2. intros j h'.
      rewrite list_lookup_alter. destruct (decide (Z.to_nat tid = j)) as [<-|].
      * rewrite Hhist. simpl. intros [= <-]. by rewrite length_alter.
      * intros Hj. by apply (Forall_lookup_1 _ _ _ _ Hh Hj).
    + unfold count_pixel. by rewrite length_alter.
Qed.

(** The two loops store the escape count of every pixel and count it
    in the histogram of the thread that runs the row. *)
Lemma computeEscapeValues_pure omp storeN hists :
  0 ≤ maxIter → team_ok omp →
  escape_state_ok maxIter width height (omp_max_threads omp) (storeN, hists) →
  let events := concat ((λ y, (λ x, (omp_schedule omp y, value y x))
                              <$> seqZ 0 width) <$> seqZ 0 height) in
  computeEscapeValues omp storeN hists maxIter width height
    x_min x_max y_min y_max
  = Some (escape_field maxIter width height x_min x_max y_min y_max,
          foldl (λ hs e, count_pixel hs e.1 e.2) hists events).
Proof.
  intros Hm [Hthreads Hsched] Hok events.
  unfold computeEscapeValues.
  rewrite decide_True by (destruct Hok as (_ & _ & ?); done).
  set (step := λ y (st : list (list Z) * list (list Z)) x,
         (store_pixel st.1 y x (value y x),
          count_pixel st.2 (omp_schedule omp y) (value y x))).
  destruct (for_loop_pure
    (escape_state_ok maxIter width height (omp_max_threads omp))
    (λ st y, foldl (step y) st (seqZ 0 width))
    (λ y st, for_loop 0 width
       (escape_pixel maxIter width height x_min x_max y_min y_max
          (omp_schedule omp y) y) st)
    height (storeN, hists) Hok) as [-> _].
  { intros y st Hy Hst.
    apply (for_loop_pure
      (escape_state_ok maxIter width height (omp_max_threads omp))
      (step y)); [done|].
    intros x st' Hx Hst'. by apply escape_pixel_pure. }
  f_equal.
  assert (∀ y st, foldl (step y) st (seqZ 0 width)
    = (foldl (λ sN x, store_pixel sN y x (value y x)) st.1 (seqZ 0 width),
       foldl (λ hs e, count_pixel hs e.1 e.2) st.2
         ((λ x, (omp_schedule omp y, value y x)) <$> seqZ 0 width))) as Hrow.
  { intros y [sN hs]. unfold step.
    rewrite (foldl_pair (λ sN x, store_pixel sN y x (value y x))
               (λ hs x, count_pixel hs (omp_schedule omp y) (value y x))).
    f_equal. by rewrite foldl_fmap. }
  rewrite (foldl_ext _ (λ st y,
    ((λ sN y, foldl (λ sN x, store_pixel sN y x (value y x)) sN (seqZ 0 width)) st.1 y,
     (λ hs y, foldl (λ hs e, count_pixel hs e.1 e.2) hs
        ((λ x, (omp_schedule omp y, value y x)) <$> seqZ 0 width)) st.2 y)))
    by (intros; apply Hrow).
  rewrite (foldl_pair
    (λ sN y, foldl (λ sN x, store_pixel sN y x (value y x)) sN (seqZ 0 width))
    (λ hs y, foldl (λ hs e, count_pixel hs e.1 e.2) hs
        ((λ x, (omp_schedule omp y, value y x)) <$> seqZ 0 width))).
  f_equal.
  - destruct Hok as ([Hrows Hcols] & _). simpl in *.
    unfold escape_field. fold point. unfold store_pixel.
    rewrite (foldl_ext _ (λ sN y, alter
      (λ row, foldl (λ row x, <[Z.to_nat x := value y x]> row) row (seqZ 0 width))
      (Z.to_nat y) sN)) by (intros; apply foldl_alter_same).
    apply (alter_fill
      (λ y row, foldl (λ row x, <[Z.to_nat x := value y x]> row) row (seqZ 0 width))
      (λ y, value y <$> seqZ 0 width)); [done|].
    intros i row Hrow'.
    pose proof (Forall_lookup_1 _ _ _ _ Hcols Hrow') as Hlen. simpl in Hlen.
    rewrite (foldl_ext _ (λ row x, alter (λ _, value (Z.of_nat i) x) (Z.to_nat x) row))
      by (intros; apply list_insert_alter).
    by apply (alter_fill (λ x _, value (Z.of_nat i) x)).
  - unfold events. rewrite foldl_concat, foldl_fmap. done.
Qed.

End EscapeValues.

(** ** computeHistogram *)

Lemma Zsum_cons a l : Zsum (a :: l) = a + Zsum l.
Proof. done. Qed.

Lemma Zsum_app l1 l2 : Zsum (l1 ++ l2) = Zsum l1 + Zsum l2.
Proof.
  induction l1 as [|a l1 IH]; [done|].
  rewrite <- app_comm_cons, !Zsum_cons, IH. lia.
Qed.

Lemma column_sum_app hs1 hs2 i :
  column_sum (hs1 ++ hs2) i = column_sum hs1 i + column_sum hs2 i.
Proof. unfold column_sum. by rewrite fmap_app, Zsum_app. Qed.

Lemma fmap_seqZ_ext {A} (f g : Z → A) n :
  (∀ i, 0 ≤ i < n → f i = g i) → f <$> seqZ 0 n = g <$> seqZ 0 n.
Proof.
  intros Hfg. apply list_fmap_ext. intros k i Hi.
  apply lookup_seqZ in Hi. apply Hfg. lia.
Qed.

Lemma replicate_seqZ {A} (n : Z) (a : A) :
  replicate (Z.to_nat n) a = (λ _, a) <$> seqZ 0 n.
Proof.
  apply replicate_as_Forall. split.
  - by rewrite length_fmap, length_seqZ.
  - apply Forall_fmap. by apply Forall_true.
Qed.

Lemma lookup_fmap_seqZ {A} (f : Z → A) n i :
  0 ≤ i < n → (f <$> seqZ 0 n) !! Z.to_nat i = Some (f i).
Proof.
  intros Hi. rewrite list_lookup_fmap, lookup_seqZ_lt by lia. simpl.
  f_equal. f_equal. lia.
Qed.

Section Histogram.
Variables (hs : list (list Z)) (maxIter : Z).
Hypothesis maxIter_range : 0 ≤ maxIter < INT_MAX.
Hypothesis hs_length : Z.of_nat (length hs) ≤ INT_MAX.
Hypothesis hs_shape : Forall (λ h, maxIter + 1 ≤ Z.of_nat (length h)) hs.

Let entry (t i : Z) : Z := default 0 (cell hs t i).

Lemma merge_entry t i hist :
  0 ≤ t < Z.of_nat (length hs) → 0 ≤ i ≤ maxIter →
  Z.of_nat (length hist) = maxIter + 1 →
  (perThread ← vec_get hs t; v ← vec_get perThread i;
   old ← vec_get hist i; vec_set hist i (wrap32 (old + v)))
  = Some (alter (λ old, wrap32 (old + entry t i)) (Z.to_nat i) hist).
Proof.
  intros Ht Hi Hlen. unfold entry, cell.
  destruct (lookup_lt_is_Some_2 hs (Z.to_nat t)) as [h Hh]; [lia|].
  pose proof (Forall_lookup_1 _ _ _ _ hs_shape Hh) as Hhlen. simpl in Hhlen.
  rewrite (vec_get_lookup hs), Hh by lia. simpl.
  destruct (lookup_lt_is_Some_2 h (Z.to_nat i)) as [v Hv]; [lia|].
  rewrite (vec_get_lookup h), Hv by lia. simpl.
  destruct (lookup_lt_is_Some_2 hist (Z.to_nat i)) as [old Hold]; [lia|].
  rewrite (vec_get_lookup hist), Hold by lia. simpl.
  rewrite vec_set_Some by lia. f_equal.
  by apply (insert_as_alter (λ old, wrap32 (old + v))).
Qed.

(** The merged histogram is the index-wise sum of the first
    [maxIter + 1] entries of the histograms of the workers, in the
    arithmetic of [int]. *)
Lemma computeHistogram_sums_prefix :
  computeHistogram hs maxIter
  = Some ((λ i, wrap32 (column_sum hs i)) <$> seqZ 0 (maxIter + 1)).
Proof.
  unfold computeHistogram, INT_MAX in *.
  rewrite (wrap32_id (maxIter + 1)) by (unfold INT_MIN, INT_MAX; lia).
  rewrite (wrap32_id (Z.of_nat (length hs))) by (unfold INT_MIN, INT_MAX; lia).
  rewrite vec_new_Some by lia. simpl.
  set (P := λ hist : list Z, Z.of_nat (length hist) = maxIter + 1).
  set (add_row := λ (hist : list Z) (t : Z),
    (λ i, wrap32 (default 0 (hist !! Z.to_nat i) + entry t i))
      <$> seqZ 0 (maxIter + 1)).
  destruct (for_loop_pure P add_row
    (λ t hist, for_loop 0 (maxIter + 1) (λ i hist,
       perThread ← vec_get hs t; v ← vec_get perThread i;
       old ← vec_get hist i; vec_set hist i (wrap32 (old + v))) hist)
    (Z.of_nat (length hs)) (replicate (Z.to_nat (maxIter + 1)) 0)) as [-> _].
  { unfold P. rewrite length_replicate. lia. }
  { intros t hist Ht Hhist.
    destruct (for_loop_pure P
      (λ hist i, alter (λ old, wrap32 (old + entry t i)) (Z.to_nat i) hist)
      (λ i hist, perThread ← vec_get hs t; v ← vec_get perThread i;
         old ← vec_get hist i; vec_set hist i (wrap32 (old + v)))
      (maxIter + 1) hist Hhist) as [-> _].
    { intros i hist' Hi Hhist'. split.
      - apply merge_entry; [done | lia | done].
      - unfold P. by rewrite length_alter. }
    assert (foldl (λ hist i, alter (λ old, wrap32 (old + entry t i))
                                   (Z.to_nat i) hist) hist (seqZ 0 (maxIter + 1))
            = add_row hist t) as ->.
    { apply (alter_fill (λ i old, wrap32 (old + entry t i))); [done|].
      intros i a Ha. cbv beta. by rewrite Nat2Z.id, Ha. }
    split; [done|]. unfold P, add_row.
    rewrite length_fmap, length_seqZ. lia. }
  f_equal.
  assert (∀ k : nat, (k ≤ length hs)%nat →
    foldl add_row (replicate (Z.to_nat (maxIter + 1)) 0) (seqZ 0 (Z.of_nat k))
    = (λ i, wrap32 (column_sum (take k hs) i)) <$> seqZ 0 (maxIter + 1)) as Hk.
  { induction k as [|k IH]; intros Hle.
    - simpl. by rewrite replicate_seqZ.
    - rewrite seqZ_S, foldl_snoc, IH by lia. unfold add_row at 1.
      destruct (lookup_lt_is_Some_2 hs k) as [h Hh]; [lia|].
      rewrite (take_S_r hs k h Hh).
      apply fmap_seqZ_ext. intros i Hi.
      rewrite lookup_fmap_seqZ by lia. simpl.
      rewrite wrap32_add_l, column_sum_app. f_equal. f_equal.
      unfold entry, cell, column_sum. simpl.
      rewrite Z.add_0_l, (vec_get_Some hs k h Hh). simpl. lia. }
  rewrite Hk by lia. by rewrite firstn_all.
Qed.

End Histogram.

Lemma computeHistogram_sums (hs : list (list Z)) (maxIter : Z) :
  0 ≤ maxIter < INT_MAX →
  Z.of_nat (length hs) ≤ INT_MAX →
  Forall (λ h, Z.of_nat (length h) = maxIter + 1) hs →
  computeHistogram hs maxIter
  = Some ((λ i, wrap32 (column_sum hs i)) <$> seqZ 0 (maxIter + 1)).
Proof.
  intros Hm Hlen Hshape. apply computeHistogram_sums_prefix; [done | done |].
  clear Hlen. induction Hshape as [|h l Hh _ IH]; [constructor|].
  constructor; [lia | done].
Qed.

(** ** Counting the pixels *)

Lemma column_sum_cons h hs i :
  column_sum (h :: hs) i = default 0 (vec_get h i) + column_sum hs i.
Proof. done. Qed.

(** Counting one more pixel in bucket [n] of thread [t] adds one to the
    column [n], in the arithmetic of [int]. *)
Lemma column_sum_alter (hs : list (list Z)) (t n : nat) (i : Z) :
  (t < length hs)%nat →
  (∀ h, hs !! t = Some h → (n < length h)%nat) →
  0 ≤ i →
  wrap32 (column_sum (alter (alter (λ count, wrap32 (count + 1)) n) t hs) i)
  = wrap32 (column_sum hs i + (if decide (Z.of_nat n = i) then 1 else 0)).
Proof.
  revert t. induction hs as [|h hs IH]; intros t Ht Hn Hi; simpl in Ht; [lia|].
  destruct t as [|t]; simpl.
  - rewrite !column_sum_cons, !vec_get_lookup by done.
    rewrite list_lookup_alter.
    destruct (decide (n = Z.to_nat i)) as [->|Hne].
    + rewrite decide_True by lia.
      destruct (lookup_lt_is_Some_2 h (Z.to_nat i)) as [c Hc];
        [by apply Hn|].
      rewrite Hc. simpl. rewrite wrap32_add_l. f_equal. lia.
    + rewrite decide_False by lia. f_equal. lia.
  - rewrite !column_sum_cons.
    etrans; [symmetry; apply wrap32_add_r|].
    change (list_alter ?f t hs) with (alter f t hs).
    rewrite IH; [| lia | | done].
    + rewrite wrap32_add_r. f_equal. lia.
    + intros h' Hh'. by apply Hn.
Qed.

Lemma column_sum_events (L : Z) (events : list (Z * Z)) (hs : list (list Z)) (i : Z) :
  Forall (λ h, Z.of_nat (length h) = L) hs →
  Forall (λ e : Z * Z, 0 ≤ e.1 < Z.of_nat (length hs) ∧ 0 ≤ e.2 < L) events →
  0 ≤ i →
  wrap32 (column_sum (foldl (λ hs e, count_pixel hs e.1 e.2) hs events) i)
  = wrap32 (column_sum hs i
            + Z.of_nat (length (filter (λ n, n = i) (events.*2)))).
Proof.
  revert hs. induction events as [|[t n] events IH]; intros hs Hhs Hev Hi.
  - simpl. f_equal. lia.
  - destruct (Forall_cons_1 _ _ _ Hev) as [[Ht Hn] Hev']. simpl in Ht, Hn.
    clear Hev. rename Hev' into Hev.
    simpl foldl.
    rewrite IH; [| |by unfold count_pixel; rewrite length_alter|done].
    + rewrite <- wrap32_add_l. unfold count_pixel.
      rewrite column_sum_alter; [|lia| |done].
      * rewrite wrap32_add_l. f_equal. rewrite fmap_cons, filter_cons. simpl.
        rewrite Z2Nat.id by lia.
        destruct (decide (n = i)); simpl; lia.
      * intros h Hh. pose proof (Forall_lookup_1 _ _ _ _ Hhs Hh) as Hlen.
        simpl in Hlen. lia.
    + unfold count_pixel. apply Forall_lookup_2. intros j h'.
      rewrite list_lookup_alter. destruct (decide (Z.to_nat t = j)) as [<-|].
      * destruct (hs !! Z.to_nat t) as [h|] eqn:Hh; simpl; [|done].
        intros [= <-]. rewrite length_alter.
        by apply (Forall_lookup_1 _ _ _ _ Hhs Hh).
      * intros Hj. by apply (Forall_lookup_1 _ _ _ _ Hhs Hj).
Qed.

Lemma column_sum_zeros (k m : nat) (i : Z) :
  column_sum (replicate k (replicate m 0)) i = 0.
Proof.
  induction k as [|k IH]; [done|].
  rewrite replicate_S, column_sum_cons, IH.
  unfold vec_get. destruct (decide (0 ≤ i)); [|done].
  destruct (replicate m 0 !! Z.to_nat i) as [c|] eqn:Hc; [|done].
  apply lookup_replicate in Hc as [-> _]. done.
Qed.

Lemma Zsum_zero {A} (f : A → Z) (l : list A) :
  Forall (λ a, f a = 0) l → Zsum (f <$> l) = 0.
Proof.
  induction 1 as [|a l Ha _ IH]; [done|].
  rewrite fmap_cons, Zsum_cons. lia.
Qed.

Lemma Zsum_fmap_add {A} (f g : A → Z) (l : list A) :
  Zsum ((λ a, f a + g a) <$> l) = Zsum (f <$> l) + Zsum (g <$> l).
Proof.
  induction l as [|a l IH]; [done|].
  rewrite !fmap_cons, !Zsum_cons, IH. lia.
Qed.

(** Exactly one bucket of [0 .. m] counts a value of that range. *)
Lemma Zsum_indicator (v m : Z) :
  0 ≤ v ≤ m →
  Zsum ((λ i, if decide (v = i) then 1 else 0) <$> seqZ 0 (m + 1)) = 1.
Proof.
  intros Hv. replace (m + 1) with (v + (1 + (m - v))) by lia.
  rewrite seqZ_app, fmap_app, Zsum_app by lia.
  rewrite (seqZ_cons (0 + v)), fmap_cons, Zsum_cons by lia.
  rewrite decide_True by lia.
  rewrite !Zsum_zero; [lia | |].
  - apply Forall_seqZ. intros i Hi. rewrite decide_False; [done|lia].
  - apply Forall_seqZ. intros i Hi. rewrite decide_False; [done|lia].
Qed.

(** The buckets [0 .. m] of a list of values of that range count every
    value once. *)
Lemma Zsum_counts (vals : list Z) (m : Z) :
  Forall (λ v, 0 ≤ v ≤ m) vals →
  Zsum ((λ i, Z.of_nat (length (filter (λ n, n = i) vals))) <$> seqZ 0 (m + 1))
  = Z.of_nat (length vals).
Proof.
  induction 1 as [|v vals Hv _ IH].
  - apply Zsum_zero. by apply Forall_true.
  - rewrite <- (fmap_seqZ_ext (λ i, (if decide (v = i) then 1 else 0)
        + Z.of_nat (length (filter (λ n, n = i) vals)))).
    + rewrite Zsum_fmap_add, IH, Zsum_indicator by done. simpl length. lia.
    + intros i _. rewrite filter_cons.
      destruct (decide (v = i)); simpl; lia.
Qed.

(** ** computeCDF *)

Lemma wrap64_add_l a b : wrap64 (wrap64 a + b) = wrap64 (a + b).
Proof.
  unfold wrap64. f_equal.
  replace ((a + 2 ^ 63) mod 2 ^ 64 - 2 ^ 63 + b + 2 ^ 63)
    with ((a + 2 ^ 63) mod 2 ^ 64 + b) by lia.
  rewrite Zplus_mod_idemp_l. f_equal. lia.
Qed.

Lemma insert_next {A} (pre l : list A) (k : nat) (v : A) :
  length pre = k → (k < length l)%nat →
  <[k := v]> (pre ++ drop k l) = (pre ++ [v]) ++ drop (S k) l.
Proof.
  intros Hpre Hk.
  destruct (lookup_lt_is_Some_2 l k) as [a Ha]; [done|].
  rewrite insert_app_r_alt by lia.
  rewrite Hpre, Nat.sub_diag, (drop_S l a k Ha). simpl.
  by rewrite <- app_assoc.
Qed.

Lemma prefix_sum_next (hist : list Z) (k : nat) (h : Z) :
  hist !! k = Some h →
  Zsum (take (S k) hist) = Zsum (take k hist) + h.
Proof.
  intros Hh. rewrite (take_S_r hist k h Hh), Zsum_app.
  change (Zsum [h]) with (h + 0). lia.
Qed.

Section CDF.
Context {D : Double}.

(** The CDF is the running sum of the histogram, kept in a [long],
    divided by the number of pixels. *)
Lemma computeCDF_closed (hist : list Z) (totalPixels maxIter : Z) :
  0 ≤ maxIter < INT_MAX →
  Z.of_nat (length hist) = maxIter + 1 →
  computeCDF hist totalPixels
  = Some ((λ i, ddiv (of_Z (wrap64 (prefix_sum hist i))) (of_Z totalPixels))
          <$> seqZ 0 (maxIter + 1)).
Proof.
  intros Hm Hlen. unfold computeCDF, INT_MAX in *.
  rewrite Hlen. replace (maxIter + 1 - 1) with maxIter by lia.
  rewrite (wrap32_id maxIter) by (unfold INT_MIN, INT_MAX; lia).
  rewrite (wrap32_id (maxIter + 1)) by (unfold INT_MIN, INT_MAX; lia).
  rewrite vec_new_Some by lia. simpl.
  set (cdf0 := replicate (Z.to_nat (maxIter + 1)) (of_Z 0)).
  set (g := λ i, ddiv (of_Z (wrap64 (prefix_sum hist i))) (of_Z totalPixels)).
  set (f := λ (st : Z * list double) (i : Z),
    let accum := wrap64 (st.1 + default 0 (hist !! Z.to_nat i)) in
    (accum, <[Z.to_nat i := ddiv (of_Z accum) (of_Z totalPixels)]> st.2)).
  destruct (for_loop_pure
    (λ st : Z * list double, Z.of_nat (length st.2) = maxIter + 1) f
    (λ i st, h ← vec_get hist i;
       cdf' ← vec_set st.2 i (ddiv (of_Z (wrap64 (st.1 + h))) (of_Z totalPixels));
       Some (wrap64 (st.1 + h), cdf'))
    (maxIter + 1) (0, cdf0)) as [-> _].
  { simpl. unfold cdf0. rewrite length_replicate. lia. }
  { intros i [accum cdf] Hi Hcdf. simpl in *.
    destruct (lookup_lt_is_Some_2 hist (Z.to_nat i)) as [h Hh]; [lia|].
    rewrite vec_get_lookup, Hh by lia. simpl.
    rewrite vec_set_Some by lia. simpl.
    unfold f. simpl. rewrite Hh. simpl. split; [done|].
    by rewrite length_insert. }
  simpl. f_equal.
  assert (∀ k : nat, (k ≤ length hist)%nat →
    foldl f (0, cdf0) (seqZ 0 (Z.of_nat k))
    = (wrap64 (Zsum (take k hist)),
       (g <$> seqZ 0 (Z.of_nat k)) ++ drop k cdf0)) as Hk.
  { induction k as [|k IH]; intros Hle.
    - simpl. by rewrite drop_0.
    - rewrite seqZ_S, foldl_snoc, IH by lia.
      destruct (lookup_lt_is_Some_2 hist k) as [h Hh]; [lia|].
      unfold f at 1. simpl. rewrite !Z.add_0_l, Nat2Z.id, Hh. simpl.
      rewrite wrap64_add_l, <- (prefix_sum_next hist k h Hh).
      f_equal. rewrite fmap_app. simpl.
      rewrite insert_next.
      + do 3 f_equal. unfold g, prefix_sum.
        by replace (Z.to_nat (Z.of_nat k + 1)) with (S k) by lia.
      + by rewrite length_fmap, length_seqZ, Nat2Z.id.
      + unfold cdf0. rewrite length_replicate. lia. }
  replace (maxIter + 1) with (Z.of_nat (length hist)) by done.
  rewrite Hk by lia. simpl.
  rewrite drop_ge, app_nil_r; [done|].
  unfold cdf0. rewrite length_replicate. lia.
Qed.

End CDF.

(** ** The data of a frame *)

Lemma count_pixel_fold_shape (L : Z) (events : list (Z * Z)) (hs : list (list Z)) :
  Forall (λ h, Z.of_nat (length h) = L) hs →
  Forall (λ h, Z.of_nat (length h) = L)
    (foldl (λ hs e, count_pixel hs e.1 e.2) hs events) ∧
  length (foldl (λ hs e, count_pixel hs e.1 e.2) hs events) = length hs.
Proof.
  revert hs. induction events as [|e events IH]; intros hs Hhs; [done|].
  simpl. destruct (IH (count_pixel hs e.1 e.2)) as [H1 H2].
  - unfold count_pixel. apply Forall_lookup_2. intros j h'.
    rewrite list_lookup_alter. destruct (decide (Z.to_nat e.1 = j)) as [<-|].
    + destruct (hs !! Z.to_nat e.1) as [h|] eqn:Hh; simpl; [|done].
      intros [= <-]. rewrite length_alter.
      by apply (Forall_lookup_1 _ _ _ _ Hhs Hh).
    + intros Hj. by apply (Forall_lookup_1 _ _ _ _ Hhs Hj).
  - split; [done|]. rewrite H2. unfold count_pixel. by rewrite length_alter.
Qed.

Lemma events_values {A B C} (s : A → B) (v : A → Z → C) (xs : list Z) (ys : list A) :
  (concat ((λ y, (λ x, (s y, v y x)) <$> xs) <$> ys)).*2
  = concat ((λ y, v y <$> xs) <$> ys).
Proof.
  induction ys as [|y ys IH]; [done|].
  rewrite !fmap_cons. simpl. rewrite fmap_app, IH. f_equal.
  by rewrite <- list_fmap_compose.
Qed.

Lemma Forall_rows {A B} (P : B → Prop) (e : A → Z → B) (xs : list Z) (ys : list A) :
  (∀ y x, P (e y x)) → Forall P (concat ((λ y, e y <$> xs) <$> ys)).
Proof.
  intros HP. apply Forall_concat, Forall_fmap, Forall_true. intros y.
  simpl. apply Forall_fmap, Forall_true. intros x. apply HP.
Qed.

Lemma length_rows {A B} (e : A → Z → B) (xs : list Z) (ys : list A) :
  length (concat ((λ y, e y <$> xs) <$> ys)) = (length ys * length xs)%nat.
Proof.
  induction ys as [|y ys IH]; [done|].
  rewrite fmap_cons. simpl. rewrite length_app, IH, length_fmap. done.
Qed.

Lemma count_value_le (field : list (list Z)) (i : Z) :
  0 ≤ count_value field i ≤ Z.of_nat (length (concat field)).
Proof.
  unfold count_value.
  pose proof (length_filter (λ n, n = i) (concat field)). lia.
Qed.

Lemma cell_fmap_seqZ {A} (f : Z → Z → A) (r c y x : Z) :
  0 ≤ y < r → 0 ≤ x < c →
  cell ((λ y, f y <$> seqZ 0 c) <$> seqZ 0 r) y x = Some (f y x).
Proof.
  intros Hy Hx. unfold cell.
  rewrite vec_get_lookup, lookup_fmap_seqZ by lia. simpl.
  by rewrite vec_get_lookup, lookup_fmap_seqZ by lia.
Qed.

Section FrameData.
Context {D : Double}.
Variables (omp : OpenMP) (maxIter width height : Z).
Variables (x_min x_max y_min y_max : double).
Hypothesis maxIter_range : 0 ≤ maxIter < INT_MAX.
Hypothesis width_nonneg : 0 ≤ width.
Hypothesis height_nonneg : 0 ≤ height.
Hypothesis team : team_ok omp.

Let field := escape_field maxIter width height x_min x_max y_min y_max.

Lemma escape_field_range :
  Forall (λ v, 0 ≤ v ≤ maxIter) (concat field).
Proof.
  unfold field, escape_field.
  apply (Forall_rows (λ v, 0 ≤ v ≤ maxIter)
    (λ y x, escape_count maxIter
              (pixel_point width height x_min x_max y_min y_max x y))).
  intros y x.
  destruct (escape_loop_count maxIter
    (pixel_point width height x_min x_max y_min y_max x y)) as [_ [Hn _]];
    [lia | done].
Qed.

Lemma escape_field_size :
  Z.of_nat (length (concat field)) = width * height.
Proof.
  unfold field, escape_field.
  rewrite (length_rows (λ y x, escape_count maxIter
    (pixel_point width height x_min x_max y_min y_max x y))).
  rewrite !length_seqZ. lia.
Qed.

(** The histograms the workers hand over merge into the counts of the
    field, whatever the team and its schedule. *)
Lemma merged_counts (storeN hists : list (list Z)) :
  escape_state_ok maxIter width height (omp_max_threads omp) (storeN, hists) →
  Z.of_nat (length hists) ≤ INT_MAX →
  ∃ hists',
    computeEscapeValues omp storeN hists maxIter width height
      x_min x_max y_min y_max = Some (field, hists') ∧
    Forall (λ h, Z.of_nat (length h) = maxIter + 1) hists' ∧
    length hists' = length hists ∧
    (∀ i, 0 ≤ i → wrap32 (column_sum hists' i)
                  = wrap32 (column_sum hists i + count_value field i)) ∧
    computeHistogram hists' maxIter
    = Some ((λ i, wrap32 (column_sum hists i + count_value field i))
            <$> seqZ 0 (maxIter + 1)).
Proof.
  intros Hok Hlen.
  pose proof (computeEscapeValues_pure maxIter width height
    x_min x_max y_min y_max omp storeN hists) as Hpure.
  cbv zeta in Hpure. rewrite Hpure by (done || lia). clear Hpure.
  eexists. split; [done|].
  destruct Hok as (_ & Hshape & Hthreads). simpl in Hshape, Hthreads.
  destruct (count_pixel_fold_shape (maxIter + 1)
    (concat ((λ y, (λ x, (omp_schedule omp y, escape_count maxIter
       (pixel_point width height x_min x_max y_min y_max x y)))
       <$> seqZ 0 width) <$> seqZ 0 height)) hists Hshape) as [Hs' Hl'].
  split; [done|]. split; [done|].
  assert (∀ i, 0 ≤ i →
    wrap32 (column_sum (foldl (λ hs e, count_pixel hs e.1 e.2) hists
      (concat ((λ y, (λ x, (omp_schedule omp y, escape_count maxIter
         (pixel_point width height x_min x_max y_min y_max x y)))
         <$> seqZ 0 width) <$> seqZ 0 height))) i)
    = wrap32 (column_sum hists i + count_value field i)) as Hcol.
  { intros i Hi.
    rewrite (column_sum_events (maxIter + 1)); [|done| |done].
    - unfold count_value, field, escape_field.
      by rewrite (events_values (omp_schedule omp)
        (λ y x, escape_count maxIter
           (pixel_point width height x_min x_max y_min y_max x y))).
    - apply (Forall_rows
        (λ e : Z * Z, 0 ≤ e.1 < Z.of_nat (length hists) ∧ 0 ≤ e.2 < maxIter + 1)
        (λ y x, (omp_schedule omp y, escape_count maxIter
           (pixel_point width height x_min x_max y_min y_max x y)))).
      intros y x. simpl. destruct team as [_ Hsched].
      specialize (Hsched y).
      destruct (escape_loop_count maxIter
        (pixel_point width height x_min x_max y_min y_max x y))
        as [_ [Hn _]]; [lia|]. lia. }
  split; [done|].
  rewrite computeHistogram_sums by (done || lia).
  f_equal. apply fmap_seqZ_ext. intros i Hi. apply Hcol. lia.
Qed.

(** The field, the merged histogram and the CDF of a frame. *)
Lemma frame_data_closed :
  let total := wrap64 (width * height) in
  let hist := (λ i, wrap32 (count_value field i)) <$> seqZ 0 (maxIter + 1) in
  frame_data omp width height maxIter x_min x_max y_min y_max
  = Some (field, hist,
          (λ i, ddiv (of_Z (wrap64 (prefix_sum hist i))) (of_Z total))
          <$> seqZ 0 (maxIter + 1)).
Proof.
  intros total hist. unfold frame_data.
  destruct team as [Hthreads Hsched]. unfold INT_MAX in *.
  rewrite (wrap32_id (maxIter + 1)) by (unfold INT_MIN, INT_MAX; lia).
  repeat (rewrite vec_new_Some by lia; cbn [mbind option_bind]).
  destruct (merged_counts
    (replicate (Z.to_nat height) (replicate (Z.to_nat width) 0))
    (replicate (Z.to_nat (omp_max_threads omp))
               (replicate (Z.to_nat (maxIter + 1)) 0)))
    as (hists' & -> & _ & _ & _ & Hmerge).
  { split; [|split]; simpl.
    - split; [rewrite length_replicate; lia|].
      apply Forall_replicate. rewrite length_replicate. lia.
    - apply Forall_replicate. rewrite length_replicate. lia.
    - rewrite length_replicate. lia. }
  { rewrite length_replicate. unfold INT_MAX. lia. }
  cbn [mbind option_bind snd fst]. rewrite Hmerge. cbn [mbind option_bind].
  assert ((λ i, wrap32 (column_sum
            (replicate (Z.to_nat (omp_max_threads omp))
               (replicate (Z.to_nat (maxIter + 1)) 0)) i
            + count_value field i)) <$> seqZ 0 (maxIter + 1) = hist) as ->.
  { apply fmap_seqZ_ext. intros i Hi. by rewrite column_sum_zeros. }
  rewrite (computeCDF_closed hist total maxIter); [done | unfold INT_MAX; lia |].
  unfold hist. rewrite length_fmap, length_seqZ. lia.
Qed.

End FrameData.

(** The data of a frame do not depend on the team: one worker or many,
    and any schedule of the rows, give the same field, the same merged
    histogram and the same CDF. *)
Lemma frame_data_team_independent {D : Double} (omp1 omp2 : OpenMP)
    (maxIter width height : Z) (x_min x_max y_min y_max : double) :
  0 ≤ maxIter < INT_MAX → 0 ≤ width → 0 ≤ height →
  team_ok omp1 → team_ok omp2 →
  frame_data omp1 width height maxIter x_min x_max y_min y_max
  = frame_data omp2 width height maxIter x_min x_max y_min y_max.
Proof.
  intros Hm Hw Hh H1 H2.
  pose proof (frame_data_closed omp1 maxIter width height
    x_min x_max y_min y_max Hm Hw Hh H1) as Hd1.
  pose proof (frame_data_closed omp2 maxIter width height
    x_min x_max y_min y_max Hm Hw Hh H2) as Hd2.
  cbv zeta in Hd1, Hd2. by rewrite Hd1, Hd2.
Qed.

(** ** Exact real arithmetic satisfies the laws *)

Module RealFacts.
Import RealArith.
Local Open Scope R_scope.

Lemma Rleb_true a b : Rleb a b = true ↔ a <= b.
Proof. unfold Rleb. destruct (Rle_dec a b); split; (done || lra). Qed.

Lemma Rltb_true a b : Rltb a b = true ↔ a < b.
Proof. unfold Rltb. destruct (Rlt_dec a b); split; (done || lra). Qed.

Lemma Rltb_false a b : Rltb a b = false ↔ b <= a.
Proof. unfold Rltb. destruct (Rlt_dec a b); split; (done || lra). Qed.

Lemma of_Z_IZR k : of_Z (H := Rdouble) k = IZR k.
Proof. unfold of_Z. simpl. unfold Q2R. simpl. lra. Qed.

(** [Int_part] is the floor. *)
Lemma Int_part_bounds x : IZR (Int_part x) <= x < IZR (Int_part x) + 1.
Proof. destruct (base_Int_part x). lra. Qed.

Lemma Int_part_unique x (z : Z) : IZR z <= x < IZR z + 1 → Int_part x = z.
Proof. intros Hz. symmetry. apply Int_part_spec. lra. Qed.

Lemma Int_part_IZR (z : Z) : Int_part (IZR z) = z.
Proof. apply Int_part_unique. lra. Qed.

Lemma Int_part_mono x y : x <= y → (Int_part x ≤ Int_part y)%Z.
Proof.
  intros Hxy. pose proof (Int_part_bounds x). pose proof (Int_part_bounds y).
  apply Z.lt_succ_r, lt_IZR. rewrite succ_IZR. lra.
Qed.

Lemma Int_part_nonneg x : 0 <= x → (0 ≤ Int_part x)%Z.
Proof.
  intros Hx. rewrite <- (Int_part_IZR 0). by apply Int_part_mono.
Qed.

Lemma Rtrunc_IZR (z : Z) : Rtrunc (IZR z) = z.
Proof.
  unfold Rtrunc. destruct (Rle_dec 0 (IZR z)).
  - apply Int_part_IZR.
  - rewrite <- opp_IZR, Int_part_IZR. lia.
Qed.

Lemma Rtrunc_mono x y : x <= y → (Rtrunc x ≤ Rtrunc y)%Z.
Proof.
  intros Hxy. unfold Rtrunc.
  destruct (Rle_dec 0 x), (Rle_dec 0 y); try (exfalso; lra).
  - by apply Int_part_mono.
  - assert (0 <= - x) as Hx by lra.
    pose proof (Int_part_nonneg (- x) Hx). pose proof (Int_part_nonneg y r).
    lia.
  - assert (Int_part (- y) ≤ Int_part (- x))%Z by (apply Int_part_mono; lra).
    lia.
Qed.

Lemma Rto_int_Some x k :
  Rto_int x = Some k ↔
  IZR INT_MIN - 1 < x < IZR INT_MAX + 1 ∧ k = Rtrunc x.
Proof.
  unfold Rto_int.
  destruct (Rlt_dec (IZR INT_MIN - 1) x), (Rlt_dec x (IZR INT_MAX + 1));
    split; try done; try (intros [? _]; lra).
  - intros [= <-]. done.
  - intros [_ ->]. done.
Qed.

Lemma Rto_int_in_range x :
  IZR INT_MIN - 1 < x < IZR INT_MAX + 1 → Rto_int x = Some (Rtrunc x).
Proof. intros Hx. by apply Rto_int_Some. Qed.

Lemma ln_monotone x y : 0 < x → x <= y → ln x <= ln y.
Proof.
  intros Hx [Hlt | ->]; [|lra]. left. by apply ln_increasing.
Qed.

Lemma ln_2_pos : 0 < ln 2.
Proof. rewrite <- ln_1. apply ln_increasing; lra. Qed.

Lemma Rdouble_order : OrderLaws Rdouble.
Proof.
  split; simpl.
  intros a b Hab. apply Rleb_true in Hab. apply Rltb_false. lra.
Qed.

Lemma Rdouble_division : DivisionLaws Rdouble.
Proof.
  split; simpl.
  - intros a b c _ _ [Hc _] Hab. rewrite !of_Z_IZR. apply Rleb_true.
    apply IZR_le in Hab. apply IZR_lt in Hc.
    unfold Rdiv. apply Rmult_le_compat_r; [|done].
    left. by apply Rinv_0_lt_compat.
  - intros c [Hc _]. rewrite !of_Z_IZR. apply IZR_lt in Hc.
    field. lra.
Qed.

Lemma Rdouble_conversion : ConversionLaws Rdouble.
Proof.
  split; simpl.
  - intros a k Hk. apply Rto_int_Some in Hk as [[Hlo Hhi] ->].
    int_bounds. unfold Rtrunc in *. destruct (Rle_dec 0 a).
    + pose proof (Int_part_bounds a). pose proof (Int_part_nonneg a r).
      split; [lia|].
      assert (Int_part a < 2147483648)%Z; [|lia].
      apply lt_IZR. lra.
    + pose proof (Int_part_bounds (- a)).
      assert (0 ≤ Int_part (- a))%Z by (apply Int_part_nonneg; lra).
      split; [|lia].
      assert (Int_part (- a) < 2147483649)%Z; [|lia].
      apply lt_IZR. lra.
  - intros k Hk. rewrite of_Z_IZR.
    rewrite Rto_int_in_range, Rtrunc_IZR; [done|].
    int_bounds. destruct Hk as [H1 H2]. apply IZR_le in H1, H2. lra.
  - intros a b ka kb Hab Ha Hb. apply Rleb_true in Hab.
    apply Rto_int_Some in Ha as [_ ->]. apply Rto_int_Some in Hb as [_ ->].
    by apply Rtrunc_mono.
  - intros a Ha. rewrite of_Z_IZR in Ha. apply Rleb_true in Ha.
    unfold Rfloor, Rto_int. rewrite Rtrunc_IZR.
    pose proof (Int_part_bounds a). pose proof (Int_part_nonneg a Ha) as Hn.
    apply IZR_le in Hn.
    assert (Rtrunc a = Int_part a) as ->.
    { unfold Rtrunc. by destruct (Rle_dec 0 a). }
    int_bounds.
    destruct (Rlt_dec (IZR (-2147483648) - 1) (IZR (Int_part a))),
             (Rlt_dec (IZR (-2147483648) - 1) a); try (exfalso; lra).
    destruct (Rlt_dec (IZR (Int_part a)) (IZR 2147483647 + 1)),
             (Rlt_dec a (IZR 2147483647 + 1));
      try done; try (exfalso; lra).
    exfalso. apply n.
    assert (Int_part a < 2147483648)%Z as Hlt by (apply lt_IZR; lra).
    assert (Int_part a ≤ 2147483647)%Z as Hle by lia.
    apply IZR_le in Hle. lra.
  - intros a b _ _. rewrite !of_Z_IZR. by rewrite mult_IZR.
  - intros a b k [Hk _] Hab. apply Rleb_true in Hab. apply Rleb_true.
    rewrite of_Z_IZR. apply Rmult_le_compat_r; [|done].
    apply IZR_le. lia.
Qed.

Lemma Rdouble_log2 : Log2Laws Rdouble.
Proof.
  split; simpl.
  - rewrite !of_Z_IZR. unfold Rlog2. rewrite ln_1. lra.
  - rewrite !of_Z_IZR. unfold Rlog2. pose proof ln_2_pos. field. lra.
  - intros a Ha. rewrite !of_Z_IZR in *. apply Rleb_true in Ha.
    apply Rleb_true. unfold Rlog2. pose proof ln_2_pos.
    assert (0 <= ln a) by (rewrite <- ln_1; apply ln_monotone; lra).
    apply Rmult_le_pos; [done|]. left. by apply Rinv_0_lt_compat.
  - intros a b Ha Hab. rewrite of_Z_IZR in Ha. apply Rltb_true in Ha.
    apply Rleb_true in Hab. apply Rleb_true. unfold Rlog2.
    pose proof ln_2_pos. apply Rmult_le_compat_r.
    + left. by apply Rinv_0_lt_compat.
    + by apply ln_monotone.
Qed.

End RealFacts.

(** ** Prefix sums of a histogram *)

Lemma Zsum_nonneg (l : list Z) : Forall (λ h, 0 ≤ h) l → 0 ≤ Zsum l.
Proof.
  induction 1 as [|h l Hh _ IH]; [done|]. rewrite Zsum_cons. lia.
Qed.

Lemma Forall_lower (l : list Z) (m : Z) :
  Forall (λ h, 0 ≤ h ≤ m) l → Forall (λ h, 0 ≤ h) l.
Proof. induction 1; constructor; (lia || done). Qed.

Lemma Zsum_take_mono (l : list Z) (a b : nat) :
  Forall (λ h, 0 ≤ h) l → (a ≤ b)%nat → Zsum (take a l) ≤ Zsum (take b l).
Proof.
  intros Hl. revert a b. induction Hl as [|h l Hh Hl IH]; intros a b Hab.
  - by rewrite !take_nil.
  - destruct a as [|a], b as [|b]; try lia.
    + simpl take. rewrite Zsum_cons.
      pose proof (Zsum_nonneg (take b l) (Forall_take _ _ _ Hl)).
      change (Zsum []) with 0. lia.
    + simpl take. rewrite !Zsum_cons.
      assert (a ≤ b)%nat as Hab' by lia. specialize (IH a b Hab'). lia.
Qed.

Lemma Zsum_bound (l : list Z) (m : Z) :
  Forall (λ h, 0 ≤ h ≤ m) l → 0 ≤ Zsum l ≤ Z.of_nat (length l) * m.
Proof.
  induction 1 as [|h l Hh _ IH]; [done|].
  rewrite Zsum_cons. simpl length. lia.
Qed.

Lemma prefix_sum_mono (hist : list Z) (i j : Z) :
  Forall (λ h, 0 ≤ h) hist → i ≤ j → prefix_sum hist i ≤ prefix_sum hist j.
Proof. intros Hh Hij. unfold prefix_sum. apply Zsum_take_mono; [done | lia]. Qed.

Lemma prefix_sum_all (hist : list Z) (i : Z) :
  Z.of_nat (length hist) ≤ i + 1 → prefix_sum hist i = Zsum hist.
Proof. intros Hi. unfold prefix_sum. rewrite take_ge; [done | lia]. Qed.

Lemma prefix_sum_range (hist : list Z) (i : Z) :
  Forall (λ h, 0 ≤ h ≤ INT_MAX) hist → Z.of_nat (length hist) ≤ 2 ^ 31 →
  0 ≤ prefix_sum hist i ≤ 2 ^ 62.
Proof.
  intros Hh Hlen.
  pose proof (Zsum_bound hist INT_MAX Hh) as Hb. unfold INT_MAX in *.
  pose proof (Forall_lower _ _ Hh) as Hpos.
  split.
  - apply Zsum_nonneg. by apply Forall_take.
  - destruct (Z_le_gt_dec (Z.of_nat (length hist)) (i + 1)).
    + rewrite prefix_sum_all by done. nia.
    + pose proof (prefix_sum_mono hist i (Z.of_nat (length hist)) Hpos).
      rewrite (prefix_sum_all hist (Z.of_nat (length hist))) in H by lia.
      nia.
Qed.

(** ** The escape field, the histogram and the CDF of a frame *)

(** With a negative bound the histograms of the workers are empty, and
    the first pixel counts outside of its histogram. *)
Lemma computeEscapeValues_negative {D : Double} (omp : OpenMP)
    (storeN histPerThread : list (list Z)) (maxIter width height : Z)
    (x_min x_max y_min y_max : double) :
  maxIter < 0 → 0 < width → 0 < height →
  team_ok omp →
  escape_state_ok maxIter width height (omp_max_threads omp)
                  (storeN, histPerThread) →
  computeEscapeValues omp storeN histPerThread maxIter width height
    x_min x_max y_min y_max = None.
Proof.
  intros Hm Hw Hh [Hthreads Hsched] (Hs & Hhs & Hlen). simpl in *.
  unfold computeEscapeValues. rewrite decide_True by done.
  unfold for_loop. rewrite !Z.sub_0_r.
  rewrite (seqZ_cons 0 height), (seqZ_cons 0 width) by lia.
  cbn [foldM].
  assert (escape_pixel maxIter width height x_min x_max y_min y_max
            (omp_schedule omp 0) 0 0 (storeN, histPerThread) = None) as ->;
    [|done].
  unfold escape_pixel.
  replace (Z.to_nat maxIter) with 0%nat by lia. cbn [escape_loop].
  rewrite (proj2 (Z.ltb_ge 0 maxIter)) by lia.
  rewrite andb_false_r. cbn [mbind option_bind].
  destruct (shape_lookup _ _ _ 0 Hs) as (row & Hrow & Hrowlen); [lia|].
  rewrite (vec_get_lookup storeN 0), Hrow by lia. cbn [mbind option_bind].
  rewrite (vec_set_Some row) by lia. cbn [mbind option_bind].
  rewrite (vec_set_Some storeN) by (destruct Hs; lia).
  cbn [mbind option_bind].
  specialize (Hsched 0).
  destruct (lookup_lt_is_Some_2 histPerThread (Z.to_nat (omp_schedule omp 0)))
    as [h Hhist]; [lia|].
  rewrite (vec_get_lookup histPerThread), Hhist by lia.
  cbn [mbind option_bind].
  pose proof (Forall_lookup_1 _ _ _ _ Hhs Hhist) as Hhlen. simpl in Hhlen.
  rewrite (vec_get_lookup h 0) by lia.
  rewrite (lookup_ge_None_2 h (Z.to_nat 0)) by lia. done.
Qed.

(** C1.  On a well-formed state, every run of [computeEscapeValues] that
    is defined stores, for every pixel [(x, y)], the count [n] that the
    escape loop produces on the point
    [c = (x_min + x / width * (x_max - x_min),
          y_min + y / height * (y_max - y_min))]:
    the loop ends within [maxIter] iterations, and for the iterates
    [z_0 = 0], [z_(k+1) = z_k * z_k + c], written out on the real and
    imaginary parts, every [z_k] with [k < n] passes the test
    [abs(z) <= 2.0], and either [n = maxIter] or [z_n] fails it; so
    [0 <= n <= maxIter].  The loop of a pixel always ends within
    [maxIter] iterations, and the run is defined whenever [maxIter] is
    not negative. *)
Theorem C1_escape_values {D : Double} (omp : OpenMP)
    (storeN histPerThread : list (list Z)) (maxIter width height : Z)
    (x_min x_max y_min y_max : double) :
  team_ok omp →
  escape_state_ok maxIter width height (omp_max_threads omp)
                  (storeN, histPerThread) →
  (∀ c, is_Some (escape_loop (Z.to_nat maxIter) maxIter c
                   (Complex (of_Z 0) (of_Z 0)) 0)) ∧
  (0 ≤ maxIter →
   is_Some (computeEscapeValues omp storeN histPerThread maxIter width height
              x_min x_max y_min y_max)) ∧
  ∀ storeN' histPerThread',
    computeEscapeValues omp storeN histPerThread maxIter width height
      x_min x_max y_min y_max = Some (storeN', histPerThread') →
    ∀ x y, 0 ≤ x < width → 0 ≤ y < height →
      let c :=
        Complex
          (dadd x_min (dmul (ddiv (of_Z x) (of_Z width)) (dsub x_max x_min)))
          (dadd y_min (dmul (ddiv (of_Z y) (of_Z height)) (dsub y_max y_min)))
      in
      ∃ (n : Z) (z : nat → complex),
        cell storeN' y x = Some n ∧
        escape_loop (Z.to_nat maxIter) maxIter c
          (Complex (of_Z 0) (of_Z 0)) 0 = Some n ∧
        z 0%nat = Complex (of_Z 0) (of_Z 0) ∧
        (∀ k, z (S k)
              = Complex
                  (dadd (dsub (dmul (real (z k)) (real (z k)))
                              (dmul (imag (z k)) (imag (z k))))
                        (real c))
                  (dadd (dadd (dmul (real (z k)) (imag (z k)))
                              (dmul (imag (z k)) (real (z k))))
                        (imag c))) ∧
        (∀ k, 0 ≤ k < n →
           dle (dhypot (real (z (Z.to_nat k))) (imag (z (Z.to_nat k))))
               (of_Z 2) = true) ∧
        (n < maxIter →
           dle (dhypot (real (z (Z.to_nat n))) (imag (z (Z.to_nat n))))
               (of_Z 2) = false) ∧
        0 ≤ n ≤ maxIter.
Proof.
  intros Hteam Hok.
  pose proof (computeEscapeValues_pure maxIter width height
    x_min x_max y_min y_max omp storeN histPerThread) as Hpure.
  cbv zeta in Hpure. split; [|split].
  - intros c. destruct (escape_loop_total maxIter c) as (n & Hn & _).
    by exists n.
  - intros Hm. rewrite Hpure by done. by eexists.
  - intros storeN' hists' Hrun x y Hx Hy c.
    destruct (Z_lt_le_dec maxIter 0) as [Hneg|Hm].
    { rewrite computeEscapeValues_negative in Hrun by (done || lia). done. }
    rewrite Hpure in Hrun by done. injection Hrun as <- <-.
    exists (escape_count maxIter c), (orbit c).
    destruct (escape_loop_count maxIter c Hm) as [Hloop (Hn & Hin & Hout)].
    split; [|split; [done|]].
    { unfold escape_field.
      by rewrite (cell_fmap_seqZ (λ y x, escape_count maxIter
        (pixel_point width height x_min x_max y_min y_max x y))). }
    split; [reflexivity|]. split; [reflexivity|].
    split; [exact Hin|]. split; [exact Hout | exact Hn].
Qed.

(** The histogram of a frame none of whose counts exceeds [INT_MAX]
    holds the exact counts of the field. *)
Lemma frame_histogram_exact {D : Double} (omp : OpenMP)
    (maxIter width height : Z) (x_min x_max y_min y_max : double) :
  0 ≤ maxIter < INT_MAX →
  0 ≤ width → 0 ≤ height →
  team_ok omp →
  let field := escape_field maxIter width height x_min x_max y_min y_max in
  let hist := count_value field <$> seqZ 0 (maxIter + 1) in
  (∀ i, 0 ≤ i ≤ maxIter → count_value field i ≤ INT_MAX) →
  frame_data omp width height maxIter x_min x_max y_min y_max
    = Some (field, hist,
            (λ i, ddiv (of_Z (wrap64 (prefix_sum hist i)))
                       (of_Z (wrap64 (width * height))))
            <$> seqZ 0 (maxIter + 1)) ∧
  Forall (λ h, 0 ≤ h ≤ INT_MAX) hist ∧
  Zsum hist = width * height.
Proof.
  intros Hm Hw Hh Hteam field hist Hcounts.
  pose proof (frame_data_closed omp maxIter width height
    x_min x_max y_min y_max Hm Hw Hh Hteam) as Hdata.
  cbv zeta in Hdata. fold field in Hdata.
  pose proof (escape_field_size maxIter width height
    x_min x_max y_min y_max Hw Hh) as Hsize. fold field in Hsize.
  assert (∀ i, 0 ≤ i < maxIter + 1 →
            wrap32 (count_value field i) = count_value field i) as Hwrap.
  { intros i Hi. pose proof (count_value_le field i).
    pose proof (Hcounts i).
    apply wrap32_id. unfold INT_MIN, INT_MAX in *. lia. }
  rewrite (fmap_seqZ_ext _ (count_value field)) in Hdata by exact Hwrap.
  split; [exact Hdata|]. split.
  - unfold hist. apply Forall_fmap, Forall_seqZ. intros i Hi. simpl.
    pose proof (count_value_le field i). pose proof (Hcounts i). lia.
  - unfold hist, count_value. rewrite Zsum_counts; [done|].
    apply escape_field_range. lia.
Qed.

(** No count of a frame of at most [INT_MAX] pixels exceeds [INT_MAX]. *)
Lemma small_frame_counts {D : Double} (maxIter width height : Z)
    (x_min x_max y_min y_max : double) (i : Z) :
  0 ≤ width → 0 ≤ height → width * height ≤ INT_MAX →
  count_value (escape_field maxIter width height x_min x_max y_min y_max) i
  ≤ INT_MAX.
Proof.
  intros Hw Hh Hwh.
  pose proof (escape_field_size maxIter width height
    x_min x_max y_min y_max Hw Hh) as Hsize.
  pose proof (count_value_le
    (escape_field maxIter width height x_min x_max y_min y_max) i). lia.
Qed.

(** X18.  The merged histogram of a frame has [maxIter + 1] entries, its
    entry [i] is the number of pixels of the field whose escape value
    is [i], and its entries sum to [width * height]; this as long as no
    count exceeds [INT_MAX], the largest value of a counter, which is
    the case of every frame of at most [INT_MAX] pixels. *)
Theorem histogram_counts_exact {D : Double} (omp : OpenMP)
    (maxIter width height : Z) (x_min x_max y_min y_max : double) :
  0 ≤ maxIter < INT_MAX →
  0 ≤ width → 0 ≤ height →
  team_ok omp →
  (∀ i, 0 ≤ i ≤ maxIter →
     count_value (escape_field maxIter width height x_min x_max y_min y_max) i
     ≤ INT_MAX) →
  ∃ storeN hist cdf,
    frame_data omp width height maxIter x_min x_max y_min y_max
      = Some (storeN, hist, cdf) ∧
    Z.of_nat (length hist) = maxIter + 1 ∧
    (∀ i, 0 ≤ i ≤ maxIter → vec_get hist i = Some (count_value storeN i)) ∧
    Zsum hist = width * height.
Proof.
  intros Hm Hw Hh Hteam Hcounts.
  destruct (frame_histogram_exact omp maxIter width height
    x_min x_max y_min y_max Hm Hw Hh Hteam Hcounts) as (Hdata & _ & Hsum).
  eexists _, _, _. split; [exact Hdata|]. split; [|split].
  - rewrite length_fmap, length_seqZ. lia.
  - intros i Hi. by rewrite vec_get_lookup, lookup_fmap_seqZ by lia.
  - exact Hsum.
Qed.

(** C3.  [computeHistogram] sums the histograms of the workers index by
    index, and two distributions of the pixel counts of one field over
    [k] and over [m] per-worker histograms of length [maxIter + 1] merge
    into the same histogram. *)
Theorem C3_merge_partition_independent (field : list (list Z)) (maxIter : Z)
    (hs1 hs2 : list (list Z)) :
  0 ≤ maxIter < INT_MAX →
  Z.of_nat (length hs1) ≤ INT_MAX →
  Z.of_nat (length hs2) ≤ INT_MAX →
  partition_of field maxIter hs1 →
  partition_of field maxIter hs2 →
  ∃ hist,
    computeHistogram hs1 maxIter = Some hist ∧
    computeHistogram hs2 maxIter = Some hist ∧
    Z.of_nat (length hist) = maxIter + 1 ∧
    ∀ i, 0 ≤ i ≤ maxIter →
      vec_get hist i = Some (wrap32 (column_sum hs1 i)) ∧
      vec_get hist i = Some (wrap32 (column_sum hs2 i)).
Proof.
  intros Hm Hl1 Hl2 [Hs1 Hc1] [Hs2 Hc2].
  rewrite !computeHistogram_sums by done.
  eexists. split; [done|]. split; [|split].
  - f_equal. apply fmap_seqZ_ext. intros i Hi.
    rewrite Hc1, Hc2 by lia. done.
  - rewrite length_fmap, length_seqZ. lia.
  - intros i Hi. rewrite vec_get_lookup, lookup_fmap_seqZ by lia.
    split; [done|]. by rewrite Hc1, Hc2 by lia.
Qed.

(** The order of the workers does not matter. *)
Lemma column_sum_permutation (hs1 hs2 : list (list Z)) (i : Z) :
  hs1 ≡ₚ hs2 → column_sum hs1 i = column_sum hs2 i.
Proof.
  induction 1 as [|h l1 l2 _ IH|h1 h2 l|l1 l2 l3 _ IH1 _ IH2].
  - done.
  - by rewrite !column_sum_cons, IH.
  - rewrite !column_sum_cons. lia.
  - by rewrite IH1.
Qed.

Lemma computeHistogram_permutation (hs1 hs2 : list (list Z)) (maxIter : Z) :
  0 ≤ maxIter < INT_MAX →
  Z.of_nat (length hs1) ≤ INT_MAX →
  Forall (λ h, Z.of_nat (length h) = maxIter + 1) hs1 →
  hs1 ≡ₚ hs2 →
  computeHistogram hs1 maxIter = computeHistogram hs2 maxIter.
Proof.
  intros Hm Hlen Hshape Hperm.
  rewrite !computeHistogram_sums; try done.
  - f_equal. apply fmap_seqZ_ext. intros i _.
    by rewrite (column_sum_permutation hs1 hs2 i Hperm).
  - by rewrite <- Hperm.
  - by rewrite <- Hperm.
Qed.

(** C4.  For a histogram of [maxIter + 1] counts and [totalPixels > 0],
    [computeCDF] returns the vector whose entry [i] is the sum of the
    entries [0 .. i] of the histogram divided by [totalPixels]; the
    vector is non-decreasing, and its last entry is [1.0] when the
    counts sum to [totalPixels]. *)
Theorem C4_cdf {D : Double} {L : DivisionLaws D} (hist : list Z)
    (totalPixels maxIter : Z) :
  0 ≤ maxIter < INT_MAX →
  Z.of_nat (length hist) = maxIter + 1 →
  Forall (λ h, 0 ≤ h ≤ INT_MAX) hist →
  0 < totalPixels ≤ LONG_MAX →
  ∃ cdf,
    computeCDF hist totalPixels = Some cdf ∧
    Z.of_nat (length cdf) = maxIter + 1 ∧
    (∀ i, 0 ≤ i ≤ maxIter →
       vec_get cdf i
       = Some (ddiv (of_Z (prefix_sum hist i)) (of_Z totalPixels))) ∧
    (∀ i j, 0 ≤ i ≤ j → j ≤ maxIter →
       ∃ a b, vec_get cdf i = Some a ∧ vec_get cdf j = Some b ∧
              dle a b = true) ∧
    (Zsum hist = totalPixels → vec_get cdf maxIter = Some (of_Z 1)).
Proof.
  intros Hm Hlen Hhist Htotal.
  rewrite (computeCDF_closed hist totalPixels maxIter Hm Hlen).
  eexists. split; [done|].
  assert (Z.of_nat (length hist) ≤ 2 ^ 31) as Hlen'
    by (unfold INT_MAX in *; lia).
  assert (∀ i, wrap64 (prefix_sum hist i) = prefix_sum hist i) as Hwrap.
  { intros i. pose proof (prefix_sum_range hist i Hhist Hlen').
    apply wrap64_id. unfold LONG_MAX. lia. }
  assert (∀ i, 0 ≤ i ≤ maxIter →
    vec_get ((λ i, ddiv (of_Z (wrap64 (prefix_sum hist i))) (of_Z totalPixels))
               <$> seqZ 0 (maxIter + 1)) i
    = Some (ddiv (of_Z (prefix_sum hist i)) (of_Z totalPixels))) as Hget.
  { intros i Hi. rewrite vec_get_lookup, lookup_fmap_seqZ by lia.
    by rewrite Hwrap. }
  split; [|split; [|split]].
  - rewrite length_fmap, length_seqZ. lia.
  - done.
  - intros i j Hij Hj. eexists _, _.
    split; [apply Hget; lia|]. split; [apply Hget; lia|].
    pose proof (prefix_sum_range hist i Hhist Hlen').
    pose proof (prefix_sum_range hist j Hhist Hlen').
    unfold LONG_MAX in *.
    apply ddiv_mono; [lia | lia | lia |].
    apply prefix_sum_mono; [|lia]. by apply (Forall_lower _ INT_MAX).
  - intros Hsum. rewrite Hget by lia.
    rewrite prefix_sum_all, Hsum by lia.
    unfold LONG_MAX in *. rewrite ddiv_diag; [done | lia].
Qed.

(** *** Examples *)

Lemma two_threads_ok : team_ok two_threads.
Proof.
  split; simpl; [unfold INT_MAX; lia|].
  intros y. apply Z.mod_pos_bound. lia.
Defined.

Lemma C1_escape_values_witness :
  (∀ c, is_Some (escape_loop (D := Rdouble) (Z.to_nat 3) 3 c
                   (Complex (of_Z 0) (of_Z 0)) 0)) ∧
  (0 ≤ 3 →
   is_Some (computeEscapeValues (D := Rdouble) two_threads
              [[0; 0]; [0; 0]] [[0; 0; 0; 0]; [0; 0; 0; 0]] 3 2 2
              (-2)%R 2%R (-2)%R 2%R)) ∧
  ∀ storeN' histPerThread',
    computeEscapeValues (D := Rdouble) two_threads
      [[0; 0]; [0; 0]] [[0; 0; 0; 0]; [0; 0; 0; 0]] 3 2 2
      (-2)%R 2%R (-2)%R 2%R = Some (storeN', histPerThread') →
    ∀ x y, 0 ≤ x < 2 → 0 ≤ y < 2 →
      let c :=
        Complex (D := Rdouble)
          (dadd (-2)%R (dmul (ddiv (of_Z x) (of_Z 2)) (dsub 2%R (-2)%R)))
          (dadd (-2)%R (dmul (ddiv (of_Z y) (of_Z 2)) (dsub 2%R (-2)%R)))
      in
      ∃ (n : Z) (z : nat → complex),
        cell storeN' y x = Some n ∧
        escape_loop (Z.to_nat 3) 3 c (Complex (of_Z 0) (of_Z 0)) 0 = Some n ∧
        z 0%nat = Complex (of_Z 0) (of_Z 0) ∧
        (∀ k, z (S k)
              = Complex
                  (dadd (dsub (dmul (real (z k)) (real (z k)))
                              (dmul (imag (z k)) (imag (z k))))
                        (real c))
                  (dadd (dadd (dmul (real (z k)) (imag (z k)))
                              (dmul (imag (z k)) (real (z k))))
                        (imag c))) ∧
        (∀ k, 0 ≤ k < n →
           dle (dhypot (real (z (Z.to_nat k))) (imag (z (Z.to_nat k))))
               (of_Z 2) = true) ∧
        (n < 3 →
           dle (dhypot (real (z (Z.to_nat n))) (imag (z (Z.to_nat n))))
               (of_Z 2) = false) ∧
        0 ≤ n ≤ 3.
Proof.
  apply (C1_escape_values (D := Rdouble) two_threads).
  - exact two_threads_ok.
  - split; [|split]; simpl.
    + split; [reflexivity|]. repeat constructor.
    + repeat constructor.
    + lia.
Defined.

Lemma histogram_counts_exact_witness :
  ∃ storeN hist cdf,
    frame_data (D := Rdouble) two_threads 2 2 3 (-2)%R 2%R (-2)%R 2%R
      = Some (storeN, hist, cdf) ∧
    Z.of_nat (length hist) = 3 + 1 ∧
    (∀ i, 0 ≤ i ≤ 3 → vec_get hist i = Some (count_value storeN i)) ∧
    Zsum hist = 2 * 2.
Proof.
  apply (histogram_counts_exact (D := Rdouble) two_threads 3 2 2).
  - unfold INT_MAX. lia.
  - lia.
  - lia.
  - exact two_threads_ok.
  - intros i _. apply small_frame_counts; [lia | lia | unfold INT_MAX; lia].
Defined.

Lemma C3_merge_partition_independent_witness :
  ∃ hist,
    computeHistogram [[0; 1; 1]] 2 = Some hist ∧
    computeHistogram [[0; 1; 0]; [0; 0; 1]] 2 = Some hist ∧
    Z.of_nat (length hist) = 2 + 1 ∧
    ∀ i, 0 ≤ i ≤ 2 →
      vec_get hist i = Some (wrap32 (column_sum [[0; 1; 1]] i)) ∧
      vec_get hist i = Some (wrap32 (column_sum [[0; 1; 0]; [0; 0; 1]] i)).
Proof.
  apply (C3_merge_partition_independent [[1; 2]] 2).
  - unfold INT_MAX. lia.
  - unfold INT_MAX. simpl. lia.
  - unfold INT_MAX. simpl. lia.
  - split; [repeat constructor|].
    intros i Hi.
    assert (i = 0 ∨ i = 1 ∨ i = 2) as [-> | [-> | ->]] by lia; reflexivity.
  - split; [repeat constructor|].
    intros i Hi.
    assert (i = 0 ∨ i = 1 ∨ i = 2) as [-> | [-> | ->]] by lia; reflexivity.
Defined.

Lemma C4_cdf_witness :
  ∃ cdf,
    computeCDF (D := Rdouble) [1; 3] 4 = Some cdf ∧
    Z.of_nat (length cdf) = 1 + 1 ∧
    (∀ i, 0 ≤ i ≤ 1 →
       vec_get cdf i = Some (ddiv (of_Z (prefix_sum [1; 3] i)) (of_Z 4))) ∧
    (∀ i j, 0 ≤ i ≤ j → j ≤ 1 →
       ∃ a b, vec_get cdf i = Some a ∧ vec_get cdf j = Some b ∧
              dle a b = true) ∧
    (Zsum [1; 3] = 4 → vec_get cdf 1 = Some (of_Z 1)).
Proof.
  apply (C4_cdf (D := Rdouble) (L := RealFacts.Rdouble_division) [1; 3] 4 1).
  - unfold INT_MAX. lia.
  - reflexivity.
  - unfold INT_MAX. repeat constructor; lia.
  - unfold LONG_MAX. lia.
Defined.

(** ** Loop invariants *)

Lemma foldM_app {A St} (body : A → St → option St) (l1 l2 : list A) (s : St) :
  foldM body (l1 ++ l2) s = foldM body l1 s ≫= foldM body l2.
Proof.
  revert s. induction l1 as [|a l1 IH]; intros s; simpl; [done|].
  destruct (body a s) as [s'|]; simpl; [apply IH | done].
Qed.

(** An invariant that every defined iteration preserves holds when the
    loop returns. *)
Lemma for_loop_inv {St} (I : Z → St → Prop) (n : Z) (body : Z → St → option St)
    (s s' : St) :
  I 0 s →
  (∀ i t t', 0 ≤ i < n → I i t → body i t = Some t' → I (i + 1) t') →
  for_loop 0 n body s = Some s' → I (Z.max 0 n) s'.
Proof.
  intros H0 Hstep. unfold for_loop. rewrite Z.sub_0_r.
  destruct (Z_le_gt_dec n 0) as [Hn|Hn].
  { rewrite seqZ_nil by done. simpl. intros [= <-].
    by rewrite Z.max_l by lia. }
  rewrite Z.max_r by lia.
  assert (∀ k : nat, Z.of_nat k ≤ n → ∀ t,
    foldM body (seqZ 0 (Z.of_nat k)) s = Some t → I (Z.of_nat k) t) as Hk.
  { induction k as [|k IH]; intros Hle t.
    - simpl. by intros [= <-].
    - rewrite seqZ_S, foldM_app. intros Ht.
      apply bind_Some in Ht as (t0 & Ht0 & Ht). simpl in Ht.
      rewrite Z.add_0_l in Ht.
      destruct (body (Z.of_nat k) t0) as [t1|] eqn:Hb; simpl in Ht; [|done].
      injection Ht as <-.
      replace (Z.of_nat (S k)) with (Z.of_nat k + 1) by lia.
      eapply Hstep; [lia | | done]. apply IH; [lia | done]. }
  intros Hs. specialize (Hk (Z.to_nat n)).
  rewrite Z2Nat.id in Hk by lia. apply Hk; [lia | done].
Qed.

(** A loop all of whose iterations are defined under an invariant
    returns, and the invariant holds at its end. *)
Lemma for_loop_total {St} (I : Z → St → Prop) (n : Z) (body : Z → St → option St)
    (s : St) :
  I 0 s →
  (∀ i t, 0 ≤ i < n → I i t → ∃ t', body i t = Some t' ∧ I (i + 1) t') →
  ∃ s', for_loop 0 n body s = Some s' ∧ I (Z.max 0 n) s'.
Proof.
  intros H0 Hstep. unfold for_loop. rewrite Z.sub_0_r.
  destruct (Z_le_gt_dec n 0) as [Hn|Hn].
  { rewrite seqZ_nil by done. simpl. exists s.
    by rewrite Z.max_l by lia. }
  rewrite Z.max_r by lia.
  assert (∀ k : nat, Z.of_nat k ≤ n →
    ∃ t, foldM body (seqZ 0 (Z.of_nat k)) s = Some t ∧ I (Z.of_nat k) t) as Hk.
  { induction k as [|k IH]; intros Hle.
    - exists s. done.
    - destruct IH as (t0 & Ht0 & HI0); [lia|].
      destruct (Hstep (Z.of_nat k) t0) as (t1 & Hb & HI1); [lia | done |].
      exists t1. rewrite seqZ_S, foldM_app, Ht0. simpl.
      rewrite Z.add_0_l, Hb. simpl. split; [done|].
      by replace (Z.of_nat (S k)) with (Z.of_nat k + 1) by lia. }
  specialize (Hk (Z.to_nat n)). rewrite Z2Nat.id in Hk by lia.
  apply Hk. lia.
Qed.

(** ** colorizeImage *)

Lemma vec_get_inv {A} (v : list A) i a :
  vec_get v i = Some a → 0 ≤ i ∧ v !! Z.to_nat i = Some a.
Proof. unfold vec_get. by destruct (decide (0 ≤ i)). Qed.

Lemma vec_set_inv {A} (v v' : list A) i a :
  vec_set v i a = Some v' →
  0 ≤ i < Z.of_nat (length v) ∧ v' = <[Z.to_nat i := a]> v.
Proof.
  unfold vec_set. destruct (decide (0 ≤ i < Z.of_nat (length v))); [|done].
  by intros [= <-].
Qed.

Lemma vec_get_insert_eq {A} (v : list A) i a :
  0 ≤ i < Z.of_nat (length v) → vec_get (<[Z.to_nat i := a]> v) i = Some a.
Proof.
  intros Hi. rewrite vec_get_lookup by lia.
  apply list_lookup_insert_eq. lia.
Qed.

Lemma vec_get_insert_ne {A} (v : list A) i j a :
  0 ≤ i → i ≠ j → vec_get (<[Z.to_nat i := a]> v) j = vec_get v j.
Proof.
  intros Hi Hij. unfold vec_get. destruct (decide (0 ≤ j)); [|done].
  apply list_lookup_insert_ne. lia.
Qed.

Lemma Mat_put_Some (m m' : Mat) (y x : Z) (v : Vec3b) :
  Mat_put m y x v = Some m' →
  rows m' = rows m ∧ cols m' = cols m ∧ (Mat_ok m → Mat_ok m') ∧
  ∀ y' x', Mat_at m' y' x'
           = if decide (y' = y ∧ x' = x) then Some v else Mat_at m y' x'.
Proof.
  unfold Mat_put. intros H.
  apply bind_Some in H as (row & Hrow & H).
  apply bind_Some in H as (row' & Hrow' & H).
  apply bind_Some in H as (px & Hpx & H). injection H as <-. simpl.
  apply vec_set_inv in Hrow' as [Hx ->]. apply vec_set_inv in Hpx as [Hy ->].
  split; [done|]. split; [done|]. split.
  - intros [Hr Hc]. split; simpl; [by rewrite length_insert|].
    apply Forall_insert; [done|]. rewrite length_insert.
    apply vec_get_inv in Hrow as [_ Hrow].
    by apply (Forall_lookup_1 _ _ _ _ Hc Hrow).
  - intros y' x'. unfold Mat_at. simpl.
    destruct (decide (y' = y)) as [->|Hne].
    + rewrite vec_get_insert_eq by done. simpl. rewrite Hrow. simpl.
      destruct (decide (x' = x)) as [->|Hne].
      * rewrite decide_True by done. by apply vec_get_insert_eq.
      * rewrite decide_False by (intros [_ ?]; done).
        apply vec_get_insert_ne; [lia | done].
    + rewrite decide_False by (intros [? _]; done).
      rewrite vec_get_insert_ne by (lia || done). done.
Qed.

Lemma Mat_put_total (m : Mat) (y x : Z) (v : Vec3b) :
  Mat_ok m → 0 ≤ y < rows m → 0 ≤ x < cols m →
  ∃ m', Mat_put m y x v = Some m'.
Proof.
  intros Hok Hy Hx. unfold Mat_put.
  destruct (shape_lookup _ _ _ y Hok Hy) as (row & Hrow & Hlen).
  rewrite vec_get_lookup, Hrow by lia. simpl.
  rewrite vec_set_Some by lia. simpl.
  rewrite vec_set_Some by (destruct Hok; lia). simpl. eauto.
Qed.

Section Colorize.
Context {D : Double} {CV : OpenCV}.
Variables (storeN : list (list Z)) (cdf : list double) (maxIter : Z).

Lemma colorize_pixel_color (y x : Z) (img : Mat) :
  colorize_pixel storeN cdf maxIter y x img
  = rgb ← pixel_color storeN cdf maxIter y x; Mat_put img y x rgb.
Proof.
  unfold colorize_pixel, pixel_color, cell.
  destruct (vec_get storeN y) as [row|]; simpl; [|done].
  destruct (vec_get row x) as [n|]; simpl; [|done].
  by destruct (decide (n = maxIter)).
Qed.

(** When [colorizeImage] returns, every pixel of the image has the
    colour of its escape value. *)
Lemma colorizeImage_inv (image image' : Mat) :
  Mat_ok image →
  colorizeImage image storeN cdf maxIter = Some image' →
  rows image' = rows image ∧ cols image' = cols image ∧ Mat_ok image' ∧
  ∀ y x, 0 ≤ y < rows image → 0 ≤ x < cols image →
    ∃ rgb, pixel_color storeN cdf maxIter y x = Some rgb ∧
           Mat_at image' y x = Some rgb.
Proof.
  intros Hok Hrun. unfold colorizeImage in Hrun.
  set (R := rows image) in *. set (C := cols image) in *.
  set (painted := λ (img : Mat) (y x : Z),
    ∃ rgb, pixel_color storeN cdf maxIter y x = Some rgb ∧
           Mat_at img y x = Some rgb).
  set (J := λ (k : Z) (img : Mat),
    rows img = R ∧ cols img = C ∧ Mat_ok img ∧
    ∀ y x, 0 ≤ y < k → 0 ≤ x < C → painted img y x).
  assert (J (Z.max 0 R) image') as (HR & HC & Hok' & Hpaint).
  { apply (λ H0 Hs, for_loop_inv J R _ image image' H0 Hs Hrun).
    - split; [done|]. split; [done|]. split; [done|]. intros; lia.
    - intros i t t' Hi (HRt & HCt & Hokt & Hdone) Hrow.
      set (I := λ (j : Z) (img : Mat),
        rows img = R ∧ cols img = C ∧ Mat_ok img ∧
        (∀ y x, 0 ≤ y < i → 0 ≤ x < C → painted img y x) ∧
        (∀ x, 0 ≤ x < j → painted img i x)).
      assert (I (Z.max 0 C) t') as (HR' & HC' & Hok' & Hold & Hnew).
      { apply (λ H0 Hs, for_loop_inv I C _ t t' H0 Hs Hrow).
        - split; [done|]. split; [done|]. split; [done|].
          split; [done|]. intros; lia.
        - intros j u u' Hj (HRu & HCu & Hoku & Hold & Hnew) Hpix.
          rewrite colorize_pixel_color in Hpix.
          apply bind_Some in Hpix as (rgb & Hrgb & Hput).
          apply Mat_put_Some in Hput as (HR' & HC' & Hok' & Hat).
          split; [congruence|]. split; [congruence|].
          split; [by apply Hok'|]. split.
          + intros y x Hy Hx. destruct (Hold y x Hy Hx) as (c & Hc & Hm).
            exists c. split; [done|]. rewrite Hat.
            rewrite decide_False by lia. done.
          + intros x Hx. destruct (decide (x = j)) as [->|Hne].
            * exists rgb. split; [done|]. rewrite Hat.
              by rewrite decide_True.
            * destruct (Hnew x) as (c & Hc & Hm); [lia|].
              exists c. split; [done|]. rewrite Hat.
              rewrite decide_False by (intros [_ ?]; done). done. }
      split; [done|]. split; [done|]. split; [done|].
      intros y x Hy Hx. destruct (decide (y = i)) as [->|Hne].
      + apply Hnew. lia.
      + apply Hold; lia. }
  split; [done|]. split; [done|]. split; [done|].
  intros y x Hy Hx. apply Hpaint; lia.
Qed.

(** [colorizeImage] returns when every pixel has a colour. *)
Lemma colorizeImage_total (image : Mat) :
  Mat_ok image →
  (∀ y x, 0 ≤ y < rows image → 0 ≤ x < cols image →
     is_Some (pixel_color storeN cdf maxIter y x)) →
  ∃ image', colorizeImage image storeN cdf maxIter = Some image'.
Proof.
  intros Hok Hcol. unfold colorizeImage.
  set (J := λ (k : Z) (img : Mat),
    rows img = rows image ∧ cols img = cols image ∧ Mat_ok img).
  destruct (for_loop_total J (rows image)
    (λ y img, for_loop 0 (cols image)
       (colorize_pixel storeN cdf maxIter y) img) image) as (image' & Hrun & _).
  - done.
  - intros i t Hi HJ.
    destruct (for_loop_total J (cols image)
      (colorize_pixel storeN cdf maxIter i) t HJ) as (t' & Hrow & HJ').
    + intros j u Hj (HRu & HCu & Hoku).
      destruct (Hcol i j Hi Hj) as [rgb Hrgb].
      destruct (Mat_put_total u i j rgb Hoku) as [u' Hput]; [lia | lia |].
      exists u'. rewrite colorize_pixel_color, Hrgb. simpl.
      split; [done|].
      apply Mat_put_Some in Hput as (HR' & HC' & Hok' & _).
      split; [congruence|]. split; [congruence|]. by apply Hok'.
    + exists t'. done.
  - exists image'. done.
Qed.

End Colorize.

(** C5.  A pixel whose escape value equals [maxIter] is coloured
    [(0, 0, 0)]: the body of the loop writes that triple whatever the
    CDF is, and the image [colorizeImage] returns holds it. *)
Theorem C5_interior_black {D : Double} {CV : OpenCV} (image image' : Mat)
    (storeN : list (list Z)) (cdf : list double) (maxIter y x : Z) :
  Mat_ok image →
  colorizeImage image storeN cdf maxIter = Some image' →
  0 ≤ y < rows image → 0 ≤ x < cols image →
  cell storeN y x = Some maxIter →
  Mat_at image' y x = Some (mkVec3b 0 0 0) ∧
  ∀ (cdf' : list double) (img : Mat),
    colorize_pixel storeN cdf' maxIter y x img
    = Mat_put img y x (mkVec3b 0 0 0).
Proof.
  intros Hok Hrun Hy Hx Hn. split.
  - destruct (colorizeImage_inv storeN cdf maxIter image image' Hok Hrun)
      as (_ & _ & _ & Hpaint).
    destruct (Hpaint y x Hy Hx) as (rgb & Hrgb & Hat).
    unfold pixel_color in Hrgb. rewrite Hn in Hrgb. simpl in Hrgb.
    rewrite decide_True in Hrgb by done. congruence.
  - intros cdf' img. rewrite colorize_pixel_color.
    unfold pixel_color. rewrite Hn. simpl. by rewrite decide_True.
Qed.

(** C6, as the code has it.  A pixel whose escape value [n] differs from
    [maxIter] takes [v = cdf[n]], [vGamma = pow(v, 0.5)] and the
    intensity [V = int(255 * vGamma)], the product truncated toward zero
    and not rounded; its colour is the conversion to BGR of the HSV
    triple of hue 110, saturation 255 and value [V] (saturated to a
    [uchar]). *)
Theorem C6_escaped_color {D : Double} {CV : OpenCV} (image image' : Mat)
    (storeN : list (list Z)) (cdf : list double) (maxIter y x n : Z) :
  Mat_ok image →
  colorizeImage image storeN cdf maxIter = Some image' →
  0 ≤ y < rows image → 0 ≤ x < cols image →
  cell storeN y x = Some n → n ≠ maxIter →
  ∃ v V,
    vec_get cdf n = Some v ∧
    to_int (dmul (of_Z 255) (dpow v (of_Q (1 # 2)))) = Some V ∧
    Mat_at image' y x
    = Some (cvtColor_HSV2BGR (mkVec3b 110 255 (saturate_uchar V))).
Proof.
  intros Hok Hrun Hy Hx Hn Hne.
  destruct (colorizeImage_inv storeN cdf maxIter image image' Hok Hrun)
    as (_ & _ & _ & Hpaint).
  destruct (Hpaint y x Hy Hx) as (rgb & Hrgb & Hat).
  unfold pixel_color in Hrgb. rewrite Hn in Hrgb. simpl in Hrgb.
  rewrite decide_False in Hrgb by done.
  unfold escaped_color in Hrgb.
  apply bind_Some in Hrgb as (v & Hv & Hrgb).
  apply bind_Some in Hrgb as (V & HV & Hrgb). injection Hrgb as <-.
  exists v, V. done.
Qed.

(** *** The integer functions run *)

Example wrap32_overflow : wrap32 (INT_MAX + 1) = INT_MIN.
Proof. reflexivity. Qed.

Example vec_get_out_of_range :
  vec_get [1; 2; 3] 2 = Some 3 ∧ vec_get [1; 2; 3] 3 = None ∧
  vec_get [1; 2; 3] (-1) = None.
Proof. repeat split. Qed.

Example merge_two_workers :
  computeHistogram [[0; 1; 1]; [1; 0; 2]] 2 = Some [1; 1; 3].
Proof. reflexivity. Qed.

(** A per-worker histogram shorter than [maxIter + 1] is read out of
    range. *)
Example merge_short_histogram : computeHistogram [[0; 1]] 2 = None.
Proof. reflexivity. Qed.

(** *** Examples in exact arithmetic *)

Module Samples.
Import RealArith RealFacts.
Local Open Scope R_scope.

Lemma sqrt_sixteenth : Rpow (1 / 16) (Q2R (1 # 2)) = 1 / 4.
Proof.
  unfold Rpow. destruct (Rlt_dec 0 (1 / 16)) as [_|Hn]; [|exfalso; lra].
  replace (Q2R (1 # 2)) with (/ 2) by (unfold Q2R; simpl; lra).
  rewrite Rpower_sqrt by lra.
  apply sqrt_lem_1; lra.
Qed.

(** [int(255 * pow(0.0625, 0.5)) = int(63.75) = 63] *)
Lemma intensity_sixteenth : intensity (D := Rdouble) (1 / 16) = Some 63%Z.
Proof.
  unfold intensity. simpl. rewrite sqrt_sixteenth, of_Z_IZR.
  rewrite Rto_int_in_range by (int_bounds; lra).
  f_equal. unfold Rtrunc.
  destruct (Rle_dec 0 (255 * (1 / 4))) as [_|Hn]; [|exfalso; lra].
  apply Int_part_unique. lra.
Qed.

(** [round(255 * pow(0.0625, 0.5)) = round(63.75) = 64] *)
Lemma spec_intensity_sixteenth :
  spec_intensity (D := Rdouble) (1 / 16) = Some 64%Z.
Proof.
  unfold spec_intensity. simpl. rewrite sqrt_sixteenth, of_Z_IZR.
  unfold Rround.
  destruct (Rle_dec 0 (255 * (1 / 4))) as [_|Hn]; [|exfalso; lra].
  rewrite (Int_part_unique _ 64) by lra.
  rewrite Rto_int_in_range by (int_bounds; lra).
  by rewrite Rtrunc_IZR.
Qed.

Local Notation "'origin'" := (Complex (D := Rdouble) 0 0).

(** The origin belongs to the set: its loop runs [maxIter] times. *)
Lemma origin_stays (fuel : nat) (maxIter n : Z) :
  (Z.to_nat (maxIter - n) ≤ fuel)%nat → (n ≤ maxIter)%Z →
  escape_loop fuel maxIter origin origin n
  = Some maxIter.
Proof.
  revert n. induction fuel as [|fuel IH]; intros n Hfuel Hn.
  - assert (n = maxIter) as -> by lia. cbn [escape_loop].
    rewrite Z.ltb_irrefl, andb_false_r. done.
  - cbn [escape_loop].
    assert (dle (Double := Rdouble) (cabs origin) (of_Z 2) = true) as ->.
    { simpl. rewrite of_Z_IZR. apply Rleb_true. unfold Rhypot.
      replace (0 * 0 + 0 * 0) with 0 by lra. rewrite sqrt_0. lra. }
    destruct (Z.ltb_spec n maxIter) as [Hlt|Hge]; simpl.
    + replace (cadd (cmul origin origin) origin)
        with origin
        by (unfold cadd, cmul; simpl; f_equal; lra).
      apply IH; lia.
    + f_equal. lia.
Qed.

(** The corner [-2 - 2i] leaves the disc with the first iterate. *)
Lemma corner_escapes :
  escape_loop (D := Rdouble) 3 3 (Complex (-2) (-2))
    (Complex (of_Z 0) (of_Z 0)) 0 = Some 1%Z.
Proof.
  rewrite !of_Z_IZR. cbn [escape_loop].
  assert (dle (Double := Rdouble) (cabs origin) (of_Z 2) = true) as ->.
  { simpl. rewrite of_Z_IZR. apply Rleb_true. unfold Rhypot.
    replace (0 * 0 + 0 * 0) with 0 by lra. rewrite sqrt_0. lra. }
  simpl.
  replace (Rleb _ _) with false; [done|].
  symmetry. apply Bool.not_true_iff_false. intros H.
  rewrite of_Z_IZR in H. apply Rleb_true in H. unfold Rhypot in H.
  assert (2 < sqrt ((0 * 0 - 0 * 0 + -2) * (0 * 0 - 0 * 0 + -2)
                    + (0 * 0 + 0 * 0 + -2) * (0 * 0 + 0 * 0 + -2))); [|lra].
  rewrite <- (sqrt_square 2) at 1 by lra.
  apply sqrt_lt_1_alt. lra.
Qed.

(** A one-pixel image, before and after [colorizeImage]. *)
Lemma colorize_interior :
  colorizeImage (D := Rdouble) (CV := channel_swap)
    (mkMat 1 1 [[mkVec3b 7 7 7]]) [[2%Z]] [] 2
  = Some (mkMat 1 1 [[mkVec3b 0 0 0]]).
Proof. reflexivity. Qed.

Lemma colorize_escaped :
  colorizeImage (D := Rdouble) (CV := channel_swap)
    (mkMat 1 1 [[mkVec3b 7 7 7]]) [[1%Z]] [0; 1 / 16; 1] 2
  = Some (mkMat 1 1 [[mkVec3b 63 255 110]]).
Proof.
  unfold colorizeImage, for_loop. simpl.
  rewrite colorize_pixel_color. unfold pixel_color, cell. simpl.
  unfold escaped_color.
  change (vec_get [0; 1 / 16; 1] 1) with (Some (1 / 16)).
  cbn [mbind option_bind]. rewrite intensity_sixteenth. reflexivity.
Qed.

End Samples.

Lemma C5_interior_black_witness :
  Mat_at (mkMat 1 1 [[mkVec3b 0 0 0]]) 0 0 = Some (mkVec3b 0 0 0) ∧
  ∀ (cdf' : list (double (Double := Rdouble))) (img : Mat),
    colorize_pixel (D := Rdouble) (CV := channel_swap) [[2]] cdf' 2 0 0 img
    = Mat_put img 0 0 (mkVec3b 0 0 0).
Proof.
  apply (C5_interior_black (D := Rdouble) (CV := channel_swap)
           (mkMat 1 1 [[mkVec3b 7 7 7]]) (mkMat 1 1 [[mkVec3b 0 0 0]])
           [[2]] [] 2 0 0).
  - split; [reflexivity|]. repeat constructor.
  - exact Samples.colorize_interior.
  - simpl. lia.
  - simpl. lia.
  - reflexivity.
Defined.

Lemma C6_escaped_color_witness :
  ∃ (v : double (Double := Rdouble)) V,
    vec_get [0%R; (1 / 16)%R; 1%R] 1 = Some v ∧
    to_int (dmul (of_Z 255) (dpow v (of_Q (1 # 2)))) = Some V ∧
    Mat_at (mkMat 1 1 [[mkVec3b 63 255 110]]) 0 0
    = Some (cvtColor_HSV2BGR (OpenCV := channel_swap)
              (mkVec3b 110 255 (saturate_uchar V))).
Proof.
  apply (C6_escaped_color (D := Rdouble) (CV := channel_swap)
           (mkMat 1 1 [[mkVec3b 7 7 7]]) (mkMat 1 1 [[mkVec3b 63 255 110]])
           [[1]] [0%R; (1 / 16)%R; 1%R] 2 0 0 1).
  - split; [reflexivity|]. repeat constructor.
  - exact Samples.colorize_escaped.
  - simpl. lia.
  - simpl. lia.
  - reflexivity.
  - lia.
Defined.

(** C6, as the specification words it, fails: for [cdf[n] = 0.0625] the
    program computes [V = int(63.75) = 63], where
    [round(255 * v^0.5) = 64]. *)
Lemma C6_round_counterexample :
  (v ← vec_get [0%R; (1 / 16)%R; 1%R] 1; intensity (D := Rdouble) v) = Some 63 ∧
  (v ← vec_get [0%R; (1 / 16)%R; 1%R] 1; spec_intensity (D := Rdouble) v) = Some 64.
Proof.
  split; simpl.
  - exact Samples.intensity_sixteenth.
  - exact Samples.spec_intensity_sixteenth.
Qed.

(** ** computeFrame *)

Section Frame.
Context {D : Double} {CV : OpenCV}.
Variables (omp : OpenMP) (width height : Z).
Variables (cX cY xRange yRange : double).

(** What a call of [computeFrame] that returns has done to the memory. *)
Lemma computeFrame_Some (m m' : Memory) :
  computeFrame omp width height cX cY xRange yRange m = Some m' →
  zoom m' = zoom m ∧
  frameCount m' = wrap32 (frameCount m + 1) ∧
  images_dir m' = images_dir m ++ [(frameCount m, image m')] ∧
  (Mat_ok (image m) →
   Mat_ok (image m') ∧ rows (image m') = rows (image m) ∧
   cols (image m') = cols (image m)).
Proof.
  unfold computeFrame.
  destruct (frame_viewport cX cY xRange yRange (zoom m))
    as [[[x_min x_max] y_min] y_max].
  intros H. apply bind_Some in H as (maxIter & _ & H).
  apply bind_Some in H as ([[storeN hist] cdf] & _ & H).
  apply bind_Some in H as (image' & Hcol & H). injection H as <-. simpl.
  split; [done|]. split; [done|]. split; [done|].
  intros Hok.
  destruct (colorizeImage_inv storeN cdf maxIter (image m) image' Hok Hcol)
    as (HR & HC & Hok' & _).
  done.
Qed.

(** [computeFrame] returns when the iteration depth is a valid bound and
    every entry of the CDF has an intensity. *)
Lemma computeFrame_defined (m : Memory) (maxIter : Z) :
  0 ≤ width → 0 ≤ height → team_ok omp →
  Mat_ok (image m) → rows (image m) = height → cols (image m) = width →
  frame_maxIter (zoom m) = Some maxIter → 0 ≤ maxIter < INT_MAX →
  (∀ x_min x_max y_min y_max storeN hist cdf,
     frame_data omp width height maxIter x_min x_max y_min y_max
       = Some (storeN, hist, cdf) →
     ∀ v, v ∈ cdf → is_Some (intensity v)) →
  is_Some (computeFrame omp width height cX cY xRange yRange m).
Proof.
  intros Hw Hh Hteam Hok HR HC Hmax Hm Hint. unfold computeFrame.
  destruct (frame_viewport cX cY xRange yRange (zoom m))
    as [[[x_min x_max] y_min] y_max].
  rewrite Hmax. simpl.
  pose proof (frame_data_closed omp maxIter width height
    x_min x_max y_min y_max Hm Hw Hh Hteam) as Hdata. cbv zeta in Hdata.
  specialize (Hint x_min x_max y_min y_max _ _ _ Hdata).
  rewrite Hdata. simpl.
  set (cdf := (λ i, ddiv _ _) <$> seqZ 0 (maxIter + 1)) in *.
  destruct (colorizeImage_total
    (escape_field maxIter width height x_min x_max y_min y_max)
    cdf maxIter (image m) Hok) as [image' ->]; [|by eexists].
  intros y x Hy Hx. unfold pixel_color, escape_field.
  rewrite (cell_fmap_seqZ (λ y x, escape_count maxIter
    (pixel_point width height x_min x_max y_min y_max x y))) by lia.
  simpl.
  set (n := escape_count maxIter
    (pixel_point width height x_min x_max y_min y_max x y)).
  destruct (decide (n = maxIter)) as [|Hne]; [by eexists|].
  destruct (escape_loop_count maxIter
    (pixel_point width height x_min x_max y_min y_max x y))
    as [_ [Hn _]]; [lia|]. fold n in Hn.
  unfold escaped_color.
  destruct (vec_get_lt cdf n) as (v & Hv & Hl).
  { unfold cdf. rewrite length_fmap, length_seqZ. lia. }
  rewrite Hv. simpl.
  destruct (Hint v) as [V HV]; [by eapply list_elem_of_lookup_2|].
  rewrite HV. simpl. by eexists.
Qed.

End Frame.

(** ** The render loop *)

Section RenderLoop.
Context {D : Double} {CV : OpenCV}.
Variables (omp : OpenMP) (width height : Z).
Variables (cX cY xRange yRange zoomEnd scale : double).
Variable N : nat.
Hypothesis below : ∀ k, (k < N)%nat → dlt (zoom_at scale k) zoomEnd = true.
Hypothesis reached : dlt (zoom_at scale N) zoomEnd = false.
Hypothesis N_int : Z.of_nat N ≤ INT_MAX.
Hypothesis frames :
  ∀ k, (1 ≤ k ≤ N)%nat →
    frame_defined omp width height cX cY xRange yRange (zoom_at scale k).

Lemma progress_upto_S (k : nat) :
  progress_upto scale (S k)
  = progress_upto scale k ++ [(Z.of_nat k, zoom_at scale (S k))].
Proof. unfold progress_upto. by rewrite seq_S, fmap_app. Qed.

(** From the state reached after [j] iterations the loop runs the
    [N - j] iterations that are left and returns. *)
Lemma render_loop_from (K j fuel : nat) (st : LoopState) :
  (K + j = N)%nat → (K ≤ fuel)%nat →
  zoom (mem st) = zoom_at scale j →
  frame st = Z.of_nat j →
  progress st = progress_upto scale j →
  Mat_ok (image (mem st)) →
  rows (image (mem st)) = height → cols (image (mem st)) = width →
  ∃ st',
    render_loop fuel omp width height cX cY xRange yRange zoomEnd scale st
      = Returned st' ∧
    zoom (mem st') = zoom_at scale N ∧
    frame st' = Z.of_nat N ∧
    progress st' = progress_upto scale N ∧
    length (images_dir (mem st')) = (length (images_dir (mem st)) + K)%nat.
Proof.
  revert j fuel st.
  induction K as [|K IH]; intros j fuel st HK Hfuel Hz Hf Hp Hok HR HC.
  - assert (j = N) as -> by lia. exists st.
    destruct fuel; simpl; rewrite Hz, reached; (split; [done|]);
      rewrite Nat.add_0_r; done.
  - destruct fuel as [|fuel]; [lia|]. simpl.
    rewrite Hz, below by lia.
    set (m1 := mkMemory (dmul (zoom_at scale j) scale) (image (mem st))
                        (frameCount (mem st)) (images_dir (mem st))).
    destruct (frames (S j) ltac:(lia) m1) as [m2 Hm2]; [done..|].
    rewrite Hm2.
    destruct (computeFrame_Some _ _ _ _ _ _ _ _ _ Hm2)
      as (Hz2 & _ & Hdir & Himg).
    destruct (Himg Hok) as (Hok2 & HR2 & HC2). simpl in *.
    destruct (IH (S j) fuel
      (mkLoopState m2 (wrap32 (frame st + 1))
                   (progress st ++ [(frame st, zoom m2)])))
      as (st' & Hrun & Hz' & Hf' & Hp' & Hlen); simpl.
    + lia.
    + lia.
    + done.
    + rewrite Hf, wrap32_id; [lia|]. unfold INT_MIN, INT_MAX in *. lia.
    + by rewrite progress_upto_S, Hp, Hf, Hz2.
    + done.
    + congruence.
    + congruence.
    + exists st'. split; [done|]. split; [done|]. split; [done|].
      split; [done|]. simpl in Hlen.
      rewrite Hlen, Hdir, length_app. simpl. lia.
Qed.

End RenderLoop.

(** ** The iteration depth and the zoom *)

Lemma Mat_create_ok (r c : Z) (fill : Vec3b) :
  0 ≤ r → 0 ≤ c →
  ∃ img, Mat_create r c fill = Some img ∧ Mat_ok img ∧
         rows img = r ∧ cols img = c.
Proof.
  intros Hr Hc. unfold Mat_create.
  repeat (rewrite vec_new_Some by lia; cbn [mbind option_bind]).
  eexists. split; [reflexivity|]. split; [|done].
  split; simpl; [rewrite length_replicate; lia|].
  apply Forall_replicate. rewrite length_replicate. lia.
Qed.

Section MaxIter.
Context {D : Double} {L : ConversionLaws D} {L2 : Log2Laws D}.

Lemma frame_maxIter_of_log2 (zoom : double) (k : Z) :
  dlog2 zoom = of_Z k → 0 ≤ k ≤ 2 ^ 20 →
  frame_maxIter zoom = Some (64 + 64 * k).
Proof.
  intros Hlog Hk. unfold frame_maxIter.
  rewrite Hlog, dmul_of_Z by lia.
  rewrite to_int_of_Z by (unfold INT_MIN, INT_MAX; lia). simpl.
  rewrite wrap32_id by (unfold INT_MIN, INT_MAX; lia).
  f_equal. lia.
Qed.

Lemma log2_scaled_nonneg (zoom : double) :
  dle (of_Z 1) zoom = true →
  dle (of_Z 0) (dmul (dlog2 zoom) (of_Z 64)) = true.
Proof.
  intros Hz. rewrite <- (dmul_of_Z 0 64) by lia.
  apply dmul_mono; [lia|]. by apply dlog2_nonneg.
Qed.

End MaxIter.

(** C7, as the code has it.  The iteration depth is
    [64 + int(log2(zoom) * 64)], the conversion truncating toward zero.
    For [zoom >= 1] this is [64 + floor(log2(zoom) * 64)]; it is 64 for
    [zoom = 1] and 128 for [zoom = 2]; and it does not decrease when the
    zoom grows.  The bound on [log2(zoom) * 64] keeps the addition within
    the range of [int]. *)
Theorem C7_maxIter {D : Double} {L : ConversionLaws D} {L2 : Log2Laws D}
    (zoom z1 z2 : double)
    (m1 m2 : Z) :
  dle (of_Z 1) zoom = true →
  dle (dmul (dlog2 zoom) (of_Z 64)) (of_Z (INT_MAX - 64)) = true →
  dlt (of_Z 0) z1 = true → dle z1 z2 = true →
  dle (dmul (dlog2 z2) (of_Z 64)) (of_Z (INT_MAX - 64)) = true →
  frame_maxIter z1 = Some m1 → frame_maxIter z2 = Some m2 →
  frame_maxIter zoom = spec_maxIter zoom ∧
  frame_maxIter (of_Z 1) = Some 64 ∧
  frame_maxIter (of_Z 2) = Some 128 ∧
  m1 ≤ m2.
Proof.
  intros Hzoom Hbound Hz1 Hz12 Hbound2 Hm1 Hm2.
  assert (∀ (a : double) k,
    dle a (of_Z (INT_MAX - 64)) = true → to_int a = Some k →
    INT_MIN ≤ k ≤ INT_MAX - 64) as Hrange.
  { intros a k Ha Hk. split; [by apply (to_int_range a)|].
    apply (to_int_mono a (of_Z (INT_MAX - 64))); [done | done |].
    apply to_int_of_Z. unfold INT_MIN, INT_MAX. lia. }
  split; [|split; [|split]].
  - unfold frame_maxIter, spec_maxIter.
    rewrite to_int_floor by (by apply log2_scaled_nonneg).
    destruct (to_int (dmul (dlog2 zoom) (of_Z 64))) as [k|] eqn:Hk; [|done].
    simpl. f_equal. apply wrap32_id.
    pose proof (Hrange _ k Hbound Hk).
    assert (0 ≤ k).
    { apply (to_int_mono (of_Z 0) (dmul (dlog2 zoom) (of_Z 64)));
        [by apply log2_scaled_nonneg | | done].
      apply to_int_of_Z. unfold INT_MIN, INT_MAX. lia. }
    unfold INT_MIN, INT_MAX in *. lia.
  - apply (frame_maxIter_of_log2 (of_Z 1) 0); [apply dlog2_1 | lia].
  - apply (frame_maxIter_of_log2 (of_Z 2) 1); [apply dlog2_2 | lia].
  - unfold frame_maxIter in Hm1, Hm2.
    apply bind_Some in Hm1 as (k1 & Hk1 & [= <-]).
    apply bind_Some in Hm2 as (k2 & Hk2 & [= <-]).
    assert (k1 ≤ k2) as Hle.
    { apply (to_int_mono (dmul (dlog2 z1) (of_Z 64))
                         (dmul (dlog2 z2) (of_Z 64))); [|done|done].
      apply dmul_mono; [lia|]. by apply dlog2_mono. }
    pose proof (Hrange _ k2 Hbound2 Hk2).
    pose proof (to_int_range _ _ Hk1).
    rewrite !wrap32_id by (unfold INT_MIN, INT_MAX in *; lia). lia.
Qed.


(** C9.  [computeFrame] leaves the zoom it receives by reference as it
    found it. *)
Theorem C9_zoom_unchanged {D : Double} {CV : OpenCV} (omp : OpenMP)
    (width height : Z) (cX cY xRange yRange : double) (m m' : Memory) :
  computeFrame omp width height cX cY xRange yRange m = Some m' →
  zoom m' = zoom m.
Proof. intros H. by apply computeFrame_Some in H as [? _]. Qed.

(** C10.  When [zoomEnd <= 1.0] the body of the render loop does not
    run: no frame is written, the counter [frame] stays 0, and the
    report divides the elapsed time by that counter. *)
Theorem C10_no_frames {D : Double} {CV : OpenCV} {L : OrderLaws D}
    (omp : OpenMP) (width height fps : Z) (zoomEnd : double) (fill : Vec3b)
    (elapsedSec : double) (fuel : nat) :
  dle zoomEnd (of_Z 1) = true →
  0 ≤ width → 0 ≤ height →
  ∃ report,
    main fuel omp width height fps zoomEnd fill elapsedSec = Returned report ∧
    frames_generated report = 0 ∧
    frames_written report = [] ∧
    progress_lines report = [] ∧
    final_zoom report = of_Z 1 ∧
    time_per_frame report = ddiv elapsedSec (of_Z 0).
Proof.
  intros Hend Hw Hh. unfold main.
  destruct (Mat_create_ok height width fill Hh Hw) as (img & -> & _).
  apply dle_not_gt in Hend.
  destruct fuel; simpl; rewrite Hend; eexists; done.
Qed.

(** ** Runs in exact arithmetic *)

Module ExactRuns.
Import RealArith RealFacts.
Local Open Scope R_scope.

Lemma Rpower_2_pos x : 0 < Rpower 2 x.
Proof. unfold Rpower. apply exp_pos. Qed.

Lemma Rlog2_Rpower x : Rlog2 (Rpower 2 x) = x.
Proof.
  unfold Rlog2. rewrite ln_Rpower. pose proof ln_2_pos. field. lra.
Qed.

(** The zoom factor of one frame is [2^(0.8 / fps)]. *)
Lemma scalePerFrame_exact (fps : Z) :
  scalePerFrame_of (D := Rdouble) fps = Rpower 2 (4 / 5 * (1 / IZR fps)).
Proof.
  unfold scalePerFrame_of. simpl. rewrite !of_Z_IZR. unfold Rpow.
  replace (1 / Q2R (5 # 4)) with (4 / 5) by (unfold Q2R; simpl; field).
  destruct (Rlt_dec 0 2) as [_|Hn]; [|exfalso; lra].
  destruct (Rlt_dec 0 (Rpower 2 (4 / 5))) as [_|Hn];
    [|exfalso; apply Hn, Rpower_2_pos].
  by rewrite Rpower_mult.
Qed.

Lemma zoom_at_exact (c : R) (k : nat) :
  zoom_at (D := Rdouble) (Rpower 2 c) k = Rpower 2 (c * INR k).
Proof.
  induction k as [|k IH].
  - simpl. rewrite of_Z_IZR, Rmult_0_r, Rpower_O; lra.
  - change (zoom_at (D := Rdouble) (Rpower 2 c) (S k))
      with (zoom_at (D := Rdouble) (Rpower 2 c) k * Rpower 2 c).
    rewrite IH, <- Rpower_plus, S_INR. f_equal. lra.
Qed.

(** The iteration depth at the zoom [2^x]. *)
Lemma frame_maxIter_exact (x : R) (k : Z) :
  (Z.abs k ≤ 2 ^ 20)%Z → Rtrunc (x * 64) = k →
  frame_maxIter (D := Rdouble) (Rpower 2 x) = Some (64 + k)%Z.
Proof.
  intros Hk Ht. unfold frame_maxIter. simpl.
  rewrite Rlog2_Rpower, of_Z_IZR.
  assert (IZR (- 2 ^ 20 - 1) < x * 64 < IZR (2 ^ 20 + 1)) as Hx.
  { split; apply Rnot_le_lt; intros Hle; apply Rtrunc_mono in Hle;
      rewrite Rtrunc_IZR in Hle; lia. }
  rewrite Rto_int_in_range.
  - simpl. rewrite Ht, wrap32_id; [done|].
    unfold INT_MIN, INT_MAX. lia.
  - int_bounds.
    change (- 2 ^ 20 - 1)%Z with (-1048577)%Z in Hx.
    change (2 ^ 20 + 1)%Z with 1048577%Z in Hx. lra.
Qed.

Lemma Rtrunc_between (x : R) (k : Z) :
  (0 ≤ k)%Z → IZR k <= x < IZR k + 1 → Rtrunc x = k.
Proof.
  intros Hk Hx. unfold Rtrunc. apply IZR_le in Hk.
  destruct (Rle_dec 0 x) as [_|Hn]; [|exfalso; lra].
  by apply Int_part_unique.
Qed.

Lemma Rtrunc_between_neg (x : R) (k : Z) :
  (0 ≤ k)%Z → IZR k <= - x < IZR k + 1 → 0 < - x → Rtrunc x = (- k)%Z.
Proof.
  intros Hk Hx Hneg. unfold Rtrunc.
  destruct (Rle_dec 0 x) as [Hp|_]; [exfalso; lra|].
  by rewrite (Int_part_unique (- x) k).
Qed.

(** Every entry of the CDF of a frame has an intensity. *)
Lemma intensity_total (v : R) :
  0 <= v <= 1 → is_Some (intensity (D := Rdouble) v).
Proof.
  intros Hv. unfold intensity. simpl. rewrite of_Z_IZR.
  assert (0 <= Rpow v (Q2R (1 # 2)) <= 1) as Hp.
  { unfold Rpow. destruct (Rlt_dec 0 v) as [Hpos|_]; [|lra].
    replace (Q2R (1 # 2)) with (/ 2) by (unfold Q2R; simpl; lra).
    rewrite Rpower_sqrt by done. split; [apply sqrt_pos|].
    rewrite <- sqrt_1. apply sqrt_le_1_alt. lra. }
  rewrite Rto_int_in_range; [by eexists|]. int_bounds. nra.
Qed.

Lemma frame_defined_exact {CV : OpenCV} (omp : OpenMP) (width height : Z)
    (cX cY xRange yRange z : R) (maxIter : Z) :
  (0 ≤ width)%Z → (0 ≤ height)%Z → (width * height ≤ INT_MAX)%Z →
  team_ok omp →
  frame_maxIter (D := Rdouble) z = Some maxIter →
  (0 ≤ maxIter < INT_MAX)%Z →
  frame_defined (D := Rdouble) omp width height cX cY xRange yRange z.
Proof.
  intros Hw Hh Hwh Hteam Hmax Hm m Hz Hok HR HC.
  apply (computeFrame_defined (D := Rdouble) omp width height
           cX cY xRange yRange m maxIter);
    try done; [by rewrite Hz|].
  intros x_min x_max y_min y_max storeN hist cdf Hdata v Hv.
  destruct (frame_histogram_exact (D := Rdouble) omp maxIter width height
    x_min x_max y_min y_max Hm Hw Hh Hteam) as (Hclosed & Hhist & Hsum).
  { intros j _. by apply small_frame_counts. }
  cbv zeta in Hclosed, Hhist, Hsum.
  rewrite Hclosed in Hdata. injection Hdata as <- <- <-.
  apply list_elem_of_fmap in Hv as (i & -> & Hi).
  apply elem_of_seqZ in Hi.
  set (hist := count_value
    (escape_field maxIter width height x_min x_max y_min y_max)
    <$> seqZ 0 (maxIter + 1)) in *.
  assert (0 ≤ prefix_sum hist i ≤ width * height)%Z as Hp.
  { pose proof (Forall_lower _ _ Hhist) as Hpos. split.
    - apply Zsum_nonneg. by apply Forall_take.
    - rewrite <- Hsum.
      rewrite <- (prefix_sum_all hist (Z.of_nat (length hist))) by lia.
      apply prefix_sum_mono; [done|].
      unfold hist. rewrite length_fmap, length_seqZ. lia. }
  rewrite !wrap64_id by (unfold LONG_MAX, INT_MAX in *; lia).
  apply intensity_total. simpl. rewrite !of_Z_IZR.
  destruct Hp as [Hp1 Hp2].
  destruct (Z.eq_dec (width * height)%Z 0%Z) as [H0|Hne].
  - rewrite H0 in *. assert (prefix_sum hist i = 0)%Z as -> by lia.
    unfold Rdiv. rewrite Rmult_0_l. lra.
  - assert (0 < width * height)%Z as Hpos by lia.
    apply IZR_le in Hp1, Hp2. apply IZR_lt in Hpos.
    split.
    + apply Rmult_le_pos; [done|]. left. by apply Rinv_0_lt_compat.
    + apply (Rmult_le_reg_r (IZR (width * height))); [done|].
      unfold Rdiv. rewrite Rmult_assoc, Rinv_l by lra. lra.
Qed.

(** The run [fps = 1], [zoomEnd = 2]: the zooms are [2^0.8] and
    [2^1.6], the second of which is beyond [zoomEnd]. *)
Lemma run_below (k : nat) :
  (k < 2)%nat →
  dlt (zoom_at (D := Rdouble) (scalePerFrame_of 1) k) (of_Z 2) = true.
Proof.
  intros Hk. rewrite scalePerFrame_exact, zoom_at_exact. simpl.
  apply Rltb_true. rewrite of_Z_IZR.
  rewrite <- (Rpower_1 2) at 2 by lra.
  apply Rpower_lt; [lra|].
  destruct k as [|[|k]]; [simpl; lra | simpl; lra | lia].
Qed.

Lemma run_reached :
  dlt (zoom_at (D := Rdouble) (scalePerFrame_of 1) 2) (of_Z 2) = false.
Proof.
  rewrite scalePerFrame_exact, zoom_at_exact. simpl.
  apply Rltb_false. rewrite of_Z_IZR.
  rewrite <- (Rpower_1 2) at 1 by lra.
  apply Rle_Rpower; lra.
Qed.

Lemma run_frames {CV : OpenCV} (k : nat) :
  (1 ≤ k ≤ 2)%nat →
  frame_defined (D := Rdouble) two_threads 2 2 centerX centerY xRangeStart
    (yRangeStart 2 2) (zoom_at (D := Rdouble) (scalePerFrame_of 1) k).
Proof.
  intros Hk. rewrite scalePerFrame_exact, zoom_at_exact.
  assert (k = 1%nat ∨ k = 2%nat) as [-> | ->] by lia.
  - apply (frame_defined_exact _ _ _ _ _ _ _ _ (64 + 51));
      [lia | lia | unfold INT_MAX; lia | apply two_threads_ok | |
       unfold INT_MAX; lia].
    apply frame_maxIter_exact; [lia|].
    apply Rtrunc_between; [lia|]. simpl. lra.
  - apply (frame_defined_exact _ _ _ _ _ _ _ _ (64 + 102));
      [lia | lia | unfold INT_MAX; lia | apply two_threads_ok | |
       unfold INT_MAX; lia].
    apply frame_maxIter_exact; [lia|].
    apply Rtrunc_between; [lia|]. simpl. lra.
Qed.

(** The first frame at [zoom = 1.0]. *)
Lemma first_frame_defined {CV : OpenCV} :
  ∃ m', computeFrame (D := Rdouble) two_threads 2 2 centerX centerY
          xRangeStart (yRangeStart 2 2) (mkMemory (of_Z 1) grey_image 0 [])
        = Some m'.
Proof.
  apply (frame_defined_exact two_threads 2 2 (@centerX Rdouble)
           (@centerY Rdouble) (@xRangeStart Rdouble) (@yRangeStart Rdouble 2 2)
           (@of_Z Rdouble 1) 64);
    try (done || lia || (unfold INT_MAX; lia)).
  - apply two_threads_ok.
  - apply (frame_maxIter_of_log2 (L := Rdouble_conversion) (of_Z 1) 0);
      [apply (dlog2_1 (Log2Laws := Rdouble_log2)) | lia].
  - split; [reflexivity|]. repeat constructor.
Qed.

(** The first frame of the run [fps = -1] has the zoom [2^(-0.8)]:
    [log2(zoom) * 64 = -51.2], which [int] takes to [-51] and [floor]
    to [-52]. *)
Lemma negative_fps_maxIter :
  frame_maxIter (D := Rdouble)
    (zoom_at (D := Rdouble) (scalePerFrame_of (-1)) 1) = Some 13%Z.
Proof.
  rewrite scalePerFrame_exact, zoom_at_exact.
  apply (frame_maxIter_exact _ (-51)); [lia|].
  apply (Rtrunc_between_neg _ 51); [lia | simpl; lra | simpl; lra].
Qed.

Lemma negative_fps_spec :
  spec_maxIter (D := Rdouble)
    (zoom_at (D := Rdouble) (scalePerFrame_of (-1)) 1) = Some 12%Z.
Proof.
  rewrite scalePerFrame_exact, zoom_at_exact.
  unfold spec_maxIter. simpl. rewrite Rlog2_Rpower, of_Z_IZR.
  unfold Rfloor. rewrite (Int_part_unique _ (-52)) by lra.
  rewrite Rto_int_in_range by (int_bounds; lra).
  by rewrite Rtrunc_IZR.
Qed.

End ExactRuns.

Lemma C7_maxIter_witness :
  frame_maxIter (D := Rdouble) (of_Z 2) = spec_maxIter (of_Z 2) ∧
  frame_maxIter (D := Rdouble) (of_Z 1) = Some 64 ∧
  frame_maxIter (D := Rdouble) (of_Z 2) = Some 128 ∧
  64 ≤ 128.
Proof.
  assert (dle (Double := Rdouble) (dmul (dlog2 (of_Z 2)) (of_Z 64))
              (of_Z (INT_MAX - 64)) = true) as Hbound.
  { rewrite (dlog2_2 (Log2Laws := RealFacts.Rdouble_log2)).
    rewrite (dmul_of_Z (ConversionLaws := RealFacts.Rdouble_conversion)) by lia.
    simpl. rewrite !RealFacts.of_Z_IZR. apply RealFacts.Rleb_true.
    apply IZR_le. unfold INT_MAX. lia. }
  apply (C7_maxIter (L := RealFacts.Rdouble_conversion)
           (L2 := RealFacts.Rdouble_log2)
           (of_Z 2) (of_Z 1) (of_Z 2) 64 128).
  - simpl. rewrite !RealFacts.of_Z_IZR. apply RealFacts.Rleb_true. lra.
  - exact Hbound.
  - simpl. rewrite !RealFacts.of_Z_IZR. apply RealFacts.Rltb_true. lra.
  - simpl. rewrite !RealFacts.of_Z_IZR. apply RealFacts.Rleb_true. lra.
  - exact Hbound.
  - apply (frame_maxIter_of_log2 (L := RealFacts.Rdouble_conversion) (of_Z 1) 0);
      [apply (dlog2_1 (Log2Laws := RealFacts.Rdouble_log2)) | lia].
  - apply (frame_maxIter_of_log2 (L := RealFacts.Rdouble_conversion) (of_Z 2) 1);
      [apply (dlog2_2 (Log2Laws := RealFacts.Rdouble_log2)) | lia].
Defined.

(** C7, as the specification words it, fails below [zoom = 1]: on the
    first frame of a run with [fps = -1] the program computes
    [maxIter = 64 + int(-51.2) = 13], where
    [64 + floor(log2(zoom) * 64) = 12]. *)
Lemma C7_floor_counterexample :
  frame_maxIter (D := Rdouble)
    (zoom_at (D := Rdouble) (scalePerFrame_of (-1)) 1) = Some 13 ∧
  spec_maxIter (D := Rdouble)
    (zoom_at (D := Rdouble) (scalePerFrame_of (-1)) 1) = Some 12.
Proof.
  split.
  - exact ExactRuns.negative_fps_maxIter.
  - exact ExactRuns.negative_fps_spec.
Qed.


Lemma C9_zoom_unchanged_witness :
  ∃ m' : Memory (D := Rdouble),
    computeFrame (CV := channel_swap) two_threads 2 2 centerX centerY
      xRangeStart (yRangeStart 2 2) (mkMemory (of_Z 1) grey_image 0 [])
    = Some m' ∧
    zoom m' = of_Z 1.
Proof.
  destruct (ExactRuns.first_frame_defined (CV := channel_swap)) as [m' Hm'].
  exists m'. split; [exact Hm'|].
  exact (C9_zoom_unchanged (D := Rdouble) (CV := channel_swap) two_threads
           2 2 centerX centerY xRangeStart (yRangeStart 2 2)
           (mkMemory (of_Z 1) grey_image 0 []) m' Hm').
Defined.

Lemma C10_no_frames_witness :
  ∃ report,
    main (D := Rdouble) (CV := channel_swap) 0 two_threads 2 2 30
      (of_Q (1 # 2)) (mkVec3b 7 7 7) 0%R = Returned report ∧
    frames_generated report = 0 ∧
    frames_written report = [] ∧
    progress_lines report = [] ∧
    final_zoom report = of_Z 1 ∧
    time_per_frame report = ddiv 0%R (of_Z 0).
Proof.
  apply (C10_no_frames (D := Rdouble) (CV := channel_swap)
           (L := RealFacts.Rdouble_order) two_threads 2 2 30 (of_Q (1 # 2))).
  - simpl. rewrite RealFacts.of_Z_IZR. apply RealFacts.Rleb_true.
    unfold Q2R. simpl. lra.
  - lia.
  - lia.
Defined.

(** ** Undefined iterations *)

(** A loop one of whose iterations is undefined on every state is
    undefined. *)
Lemma foldM_fail {A St} (body : A → St → option St) (l : list A) (a : A) (s : St) :
  a ∈ l → (∀ t, body a t = None) → foldM body l s = None.
Proof.
  intros Ha Hfail. revert s Ha. induction l as [|b l IH]; intros s Ha.
  - by apply elem_of_nil in Ha.
  - simpl. apply elem_of_cons in Ha as [<-|Ha].
    + by rewrite Hfail.
    + destruct (body b s); simpl; [by apply IH | done].
Qed.

Lemma computeHistogram_short (hs : list (list Z)) (maxIter : Z) (t : nat)
    (h : list Z) :
  0 ≤ maxIter < INT_MAX → Z.of_nat (length hs) ≤ INT_MAX →
  hs !! t = Some h → Z.of_nat (length h) < maxIter + 1 →
  computeHistogram hs maxIter = None.
Proof.
  intros Hm Hlen Ht Hshort. unfold computeHistogram, INT_MAX in *.
  rewrite (wrap32_id (maxIter + 1)) by (unfold INT_MIN, INT_MAX; lia).
  rewrite (wrap32_id (Z.of_nat (length hs))) by (unfold INT_MIN, INT_MAX; lia).
  rewrite vec_new_Some by lia. cbn [mbind option_bind].
  pose proof (lookup_lt_Some _ _ _ Ht) as Htlt.
  unfold for_loop at 1. apply (foldM_fail _ _ (Z.of_nat t)).
  - apply elem_of_seqZ. lia.
  - intros hist. unfold for_loop.
    apply (foldM_fail _ _ (Z.of_nat (length h))).
    + apply elem_of_seqZ. lia.
    + intros hist'. rewrite (vec_get_Some hs t h Ht). cbn [mbind option_bind].
      rewrite (vec_get_lookup h) by lia. rewrite Nat2Z.id.
      by rewrite (lookup_ge_None_2 h (length h)) by lia.
Qed.

(** X6.  [computeHistogram] reads the entries [0 .. maxIter] of every
    per-worker histogram: it is defined exactly when each of them has at
    least [maxIter + 1] entries, and then returns the sums of those
    entries; what a histogram holds beyond [maxIter] is ignored. *)
Theorem computeHistogram_defined (hs : list (list Z)) (maxIter : Z) :
  0 ≤ maxIter < INT_MAX →
  Z.of_nat (length hs) ≤ INT_MAX →
  (Forall (λ h, maxIter + 1 ≤ Z.of_nat (length h)) hs →
   computeHistogram hs maxIter
   = Some ((λ i, wrap32 (column_sum hs i)) <$> seqZ 0 (maxIter + 1))) ∧
  (is_Some (computeHistogram hs maxIter) →
   Forall (λ h, maxIter + 1 ≤ Z.of_nat (length h)) hs).
Proof.
  intros Hm Hlen. split.
  - intros Hshape. by apply computeHistogram_sums_prefix.
  - intros Hsome. apply Forall_lookup_2. intros t h Ht. simpl.
    destruct (Z_lt_le_dec (Z.of_nat (length h)) (maxIter + 1)) as [Hshort|]; [|lia].
    rewrite (computeHistogram_short hs maxIter t h) in Hsome by done.
    by destruct Hsome.
Qed.

(** ** The histograms of the workers *)

Lemma entry_nonneg (h : list Z) (i : Z) :
  Forall (λ c, 0 ≤ c) h → 0 ≤ default 0 (vec_get h i).
Proof.
  intros Hh. unfold vec_get. destruct (decide (0 ≤ i)); [|done].
  destruct (h !! Z.to_nat i) as [c|] eqn:Hc; [|done].
  by apply (Forall_lookup_1 _ _ _ _ Hh Hc).
Qed.

Lemma column_sum_nonneg (hs : list (list Z)) (i : Z) :
  Forall (Forall (λ c, 0 ≤ c)) hs → 0 ≤ column_sum hs i.
Proof.
  induction 1 as [|h hs Hh _ IH]; [done|].
  rewrite column_sum_cons. pose proof (entry_nonneg h i Hh). lia.
Qed.

(** A counter is at most the sum of its column. *)
Lemma entry_le_column_sum (hs : list (list Z)) (t n : nat) (h : list Z) (c : Z) :
  Forall (Forall (λ c, 0 ≤ c)) hs →
  hs !! t = Some h → h !! n = Some c → c ≤ column_sum hs (Z.of_nat n).
Proof.
  intros Hpos. revert t.
  induction Hpos as [|h0 hs Hh Hhs IH]; intros t Ht Hn; [done|].
  rewrite column_sum_cons. destruct t as [|t]; simpl in Ht.
  - injection Ht as ->. rewrite (vec_get_Some h n c Hn). simpl.
    pose proof (column_sum_nonneg hs (Z.of_nat n) Hhs). lia.
  - specialize (IH t Ht Hn).
    pose proof (entry_nonneg h0 (Z.of_nat n) Hh). lia.
Qed.

(** Counting one more pixel in bucket [n] of thread [t] changes the
    column [n] by what the increment changes the counter. *)
Lemma column_sum_count (hs : list (list Z)) (t n : nat) (h : list Z) (c i : Z) :
  hs !! t = Some h → h !! n = Some c → 0 ≤ i →
  column_sum (alter (alter (λ count, wrap32 (count + 1)) n) t hs) i
  = column_sum hs i + (if decide (Z.of_nat n = i) then wrap32 (c + 1) - c else 0).
Proof.
  revert t. induction hs as [|h0 hs IH]; intros t Ht Hn Hi; [done|].
  destruct t as [|t]; simpl in Ht.
  - injection Ht as ->. simpl. rewrite !column_sum_cons, !vec_get_lookup by done.
    rewrite list_lookup_alter.
    destruct (decide (n = Z.to_nat i)) as [->|Hne].
    + rewrite decide_True by lia. rewrite Hn. simpl. lia.
    + rewrite decide_False by lia. lia.
  - simpl. rewrite !column_sum_cons.
    change (list_alter ?f t hs) with (alter f t hs).
    rewrite (IH t Ht Hn Hi). lia.
Qed.

Lemma count_pixel_shape (L : Z) (hs : list (list Z)) (t n : Z) :
  Forall (λ h, Z.of_nat (length h) = L) hs →
  Forall (λ h, Z.of_nat (length h) = L) (count_pixel hs t n).
Proof.
  intros Hhs. unfold count_pixel. apply Forall_lookup_2. intros j h'.
  rewrite list_lookup_alter. destruct (decide (Z.to_nat t = j)) as [<-|].
  - destruct (hs !! Z.to_nat t) as [h|] eqn:Hh; simpl; [|done].
    intros [= <-]. rewrite length_alter.
    by apply (Forall_lookup_1 _ _ _ _ Hhs Hh).
  - intros Hj. by apply (Forall_lookup_1 _ _ _ _ Hhs Hj).
Qed.

(** As long as no column exceeds [INT_MAX], the counters do not wrap
    and the columns count the values exactly. *)
Lemma column_sum_events_exact (L : Z) (events : list (Z * Z)) (hs : list (list Z)) :
  Forall (λ h, Z.of_nat (length h) = L) hs →
  Forall (Forall (λ c, 0 ≤ c)) hs →
  Forall (λ e : Z * Z, 0 ≤ e.1 < Z.of_nat (length hs) ∧ 0 ≤ e.2 < L) events →
  (∀ i, 0 ≤ i < L →
     column_sum hs i + Z.of_nat (length (filter (λ n, n = i) (events.*2)))
     ≤ INT_MAX) →
  Forall (Forall (λ c, 0 ≤ c)) (foldl (λ hs e, count_pixel hs e.1 e.2) hs events) ∧
  ∀ i, 0 ≤ i < L →
    column_sum (foldl (λ hs e, count_pixel hs e.1 e.2) hs events) i
    = column_sum hs i + Z.of_nat (length (filter (λ n, n = i) (events.*2))).
Proof.
  revert hs. induction events as [|[t n] events IH]; intros hs Hhs Hpos Hev Hmax.
  - simpl. split; [done|]. intros; lia.
  - destruct (Forall_cons_1 _ _ _ Hev) as [[Ht Hn] Hev']. simpl in Ht, Hn.
    clear Hev. simpl foldl.
    destruct (lookup_lt_is_Some_2 hs (Z.to_nat t)) as [h Hh]; [lia|].
    pose proof (Forall_lookup_1 _ _ _ _ Hhs Hh) as Hhlen. simpl in Hhlen.
    pose proof (Forall_lookup_1 _ _ _ _ Hpos Hh) as Hhpos. simpl in Hhpos.
    destruct (lookup_lt_is_Some_2 h (Z.to_nat n)) as [c Hc]; [lia|].
    pose proof (Forall_lookup_1 _ _ _ _ Hhpos Hc) as Hc0. simpl in Hc0.
    pose proof (entry_le_column_sum hs _ _ h c Hpos Hh Hc) as Hle.
    rewrite Z2Nat.id in Hle by lia.
    assert (wrap32 (c + 1) = c + 1) as Hwrap.
    { apply wrap32_id. specialize (Hmax n Hn).
      rewrite fmap_cons, filter_cons_True in Hmax by done.
      simpl length in Hmax. unfold INT_MIN, INT_MAX in *. lia. }
    assert (∀ i, 0 ≤ i →
      column_sum (count_pixel hs t n) i
      = column_sum hs i + (if decide (n = i) then 1 else 0)) as Hstep.
    { intros i Hi. unfold count_pixel.
      rewrite (column_sum_count hs _ _ h c i Hh Hc Hi), Hwrap.
      rewrite Z2Nat.id by lia. destruct (decide (n = i)); lia. }
    destruct (IH (count_pixel hs t n)) as [Hpos' Hsum].
    + by apply count_pixel_shape.
    + unfold count_pixel. apply Forall_lookup_2. intros j h'.
      rewrite list_lookup_alter. destruct (decide (Z.to_nat t = j)) as [<-|].
      * rewrite Hh. simpl. intros [= <-].
        apply Forall_lookup_2. intros k c'. rewrite list_lookup_alter.
        destruct (decide (Z.to_nat n = k)) as [<-|].
        -- rewrite Hc. simpl. intros [= <-]. lia.
        -- intros Hk. by apply (Forall_lookup_1 _ _ _ _ Hhpos Hk).
      * intros Hj. by apply (Forall_lookup_1 _ _ _ _ Hpos Hj).
    + unfold count_pixel. by rewrite length_alter.
    + intros i Hi. rewrite Hstep by lia. specialize (Hmax i Hi).
      rewrite fmap_cons, filter_cons in Hmax. simpl in Hmax.
      destruct (decide (n = i)); simpl length in Hmax; lia.
    + split; [done|]. intros i Hi. rewrite Hsum, Hstep by lia.
      rewrite fmap_cons, filter_cons. simpl.
      destruct (decide (n = i)); simpl length; lia.
Qed.

Lemma zeros_nonneg (k m : nat) :
  Forall (Forall (λ c, 0 ≤ c)) (replicate k (replicate m 0)).
Proof. apply Forall_replicate, Forall_replicate. lia. Qed.

(** X3.  On the zeroed histograms that [computeFrame] allocates, and for
    a frame of at most [INT_MAX] pixels, [computeEscapeValues] hands
    over a distribution of the pixel counts of the field: one histogram
    of [maxIter + 1] non-negative counters per thread of the team, and
    for every value [i] the counters of the threads sum to the number
    of pixels whose escape value is [i]. *)
Theorem worker_histograms_partition {D : Double} (omp : OpenMP)
    (storeN : list (list Z)) (maxIter width height : Z)
    (x_min x_max y_min y_max : double) :
  0 ≤ maxIter < INT_MAX → 0 ≤ width → 0 ≤ height →
  width * height ≤ INT_MAX → team_ok omp →
  shape height width storeN →
  ∃ field hists',
    computeEscapeValues omp storeN
      (replicate (Z.to_nat (omp_max_threads omp))
                 (replicate (Z.to_nat (maxIter + 1)) 0))
      maxIter width height x_min x_max y_min y_max = Some (field, hists') ∧
    Z.of_nat (length hists') = omp_max_threads omp ∧
    Forall (Forall (λ c, 0 ≤ c)) hists' ∧
    partition_of field maxIter hists'.
Proof.
  intros Hm Hw Hh Hwh Hteam Hshape.
  set (zeros := replicate (Z.to_nat (omp_max_threads omp))
                          (replicate (Z.to_nat (maxIter + 1)) 0)).
  pose proof Hteam as [Hthreads Hsched].
  assert (Forall (λ h, Z.of_nat (length h) = maxIter + 1) zeros) as Hz.
  { apply Forall_replicate. rewrite length_replicate. lia. }
  assert (Z.of_nat (length zeros) = omp_max_threads omp) as Hlz.
  { unfold zeros. rewrite length_replicate. lia. }
  set (value := λ y x, escape_count maxIter
         (pixel_point width height x_min x_max y_min y_max x y)).
  set (events := concat ((λ y, (λ x, (omp_schedule omp y, value y x))
                               <$> seqZ 0 width) <$> seqZ 0 height)).
  assert (computeEscapeValues omp storeN zeros maxIter width height
            x_min x_max y_min y_max
          = Some (escape_field maxIter width height x_min x_max y_min y_max,
                  foldl (λ hs e, count_pixel hs e.1 e.2) zeros events)) as ->.
  { apply computeEscapeValues_pure; [lia | done |].
    split; [done|]. split; [done|]. simpl. lia. }
  eexists _, _. split; [done|].
  assert (events.*2
          = concat (escape_field maxIter width height x_min x_max y_min y_max))
    as Hvals.
  { unfold events, escape_field.
    by rewrite (events_values (omp_schedule omp) value). }
  destruct (column_sum_events_exact (maxIter + 1) events zeros) as [Hpos Hsum].
  - done.
  - apply zeros_nonneg.
  - apply (Forall_rows
      (λ e : Z * Z, 0 ≤ e.1 < Z.of_nat (length zeros) ∧ 0 ≤ e.2 < maxIter + 1)
      (λ y x, (omp_schedule omp y, value y x))).
    intros y x. simpl. specialize (Hsched y).
    destruct (escape_loop_count maxIter
      (pixel_point width height x_min x_max y_min y_max x y))
      as [_ [Hn _]]; [lia|]. unfold value. lia.
  - intros i Hi. unfold zeros. rewrite column_sum_zeros, Hvals.
    pose proof (small_frame_counts maxIter width height
      x_min x_max y_min y_max i Hw Hh Hwh) as Hc.
    unfold count_value in Hc. lia.
  - destruct (count_pixel_fold_shape (maxIter + 1) events zeros Hz) as [Hs' Hl'].
    split; [by rewrite Hl'|]. split; [done|].
    split; [done|]. intros i Hi. rewrite Hsum by lia.
    unfold zeros. rewrite column_sum_zeros, Hvals. unfold count_value. lia.
Qed.

(** A pixel counted by thread [tid] leaves the histograms of the other
    threads as they are. *)
Lemma escape_pixel_other {D : Double} (maxIter width height : Z)
    (x_min x_max y_min y_max : double) (tid y x t : Z)
    (st st' : list (list Z) * list (list Z)) :
  escape_pixel maxIter width height x_min x_max y_min y_max tid y x st = Some st' →
  tid ≠ t → vec_get st'.2 t = vec_get st.2 t.
Proof.
  destruct st as [storeN hists]. unfold escape_pixel. intros H Hne.
  apply bind_Some in H as (n & _ & H).
  apply bind_Some in H as (row & _ & H).
  apply bind_Some in H as (row' & _ & H).
  apply bind_Some in H as (storeN' & _ & H).
  apply bind_Some in H as (localHist & _ & H).
  apply bind_Some in H as (count & _ & H).
  apply bind_Some in H as (localHist' & _ & H).
  apply bind_Some in H as (hists' & Hset & H). injection H as <-. simpl.
  apply vec_set_inv in Hset as [Htid ->].
  apply vec_get_insert_ne; [lia | done].
Qed.

(** X4.  The histograms are private: a run of [computeEscapeValues]
    leaves the histogram of a thread that receives no row as it found
    it. *)
Theorem idle_worker_histogram {D : Double} (omp : OpenMP)
    (storeN histPerThread storeN' histPerThread' : list (list Z))
    (maxIter width height : Z) (x_min x_max y_min y_max : double) (t : Z) :
  (∀ y, 0 ≤ y < height → omp_schedule omp y ≠ t) →
  computeEscapeValues omp storeN histPerThread maxIter width height
    x_min x_max y_min y_max = Some (storeN', histPerThread') →
  vec_get histPerThread' t = vec_get histPerThread t.
Proof.
  intros Hidle. unfold computeEscapeValues.
  destruct (decide (omp_max_threads omp ≤ Z.of_nat (length histPerThread)));
    [|done].
  intros Hrun.
  set (I := λ (_ : Z) (st : list (list Z) * list (list Z)),
              vec_get st.2 t = vec_get histPerThread t).
  apply (λ H0 Hs, for_loop_inv I height _ (storeN, histPerThread)
                    (storeN', histPerThread') H0 Hs Hrun); [done|].
  intros y st1 st2 Hy HI Hrow.
  apply (λ H0 Hs, for_loop_inv I width _ st1 st2 H0 Hs Hrow); [done|].
  intros x st3 st4 Hx HI' Hpix. unfold I in *.
  rewrite (escape_pixel_other _ _ _ _ _ _ _ _ _ _ t _ _ Hpix); [done|].
  by apply Hidle.
Qed.

(** ** The bound of the escape loop *)

Section EscapeBound.
Context {D : Double}.

Lemma is_escape_count_unique (maxIter : Z) (c : complex) (n n' : Z) :
  is_escape_count maxIter c n → is_escape_count maxIter c n' → n = n'.
Proof.
  intros (Hn & Hin & Hout) (Hn' & Hin' & Hout').
  destruct (Z.lt_trichotomy n n') as [Hlt|[->|Hgt]]; [|done|].
  - specialize (Hout ltac:(lia)). rewrite Hin' in Hout by lia. done.
  - specialize (Hout' ltac:(lia)). rewrite Hin in Hout' by lia. done.
Qed.

Lemma escape_count_min (M M' : Z) (c : complex) :
  0 ≤ M' ≤ M → escape_count M' c = Z.min M' (escape_count M c).
Proof.
  intros HM.
  destruct (escape_loop_count M c) as [_ (Hn & Hin & Hout)]; [lia|].
  destruct (escape_loop_count M' c) as [_ Hc']; [lia|].
  apply (is_escape_count_unique M' c); [done|].
  split; [lia|]. split.
  - intros k Hk. apply Hin. lia.
  - intros Hlt. rewrite Z.min_r in * by lia. apply Hout. lia.
Qed.

Lemma escape_count_positive (maxIter : Z) (c : complex) :
  inside (Complex (of_Z 0) (of_Z 0)) = true → 1 ≤ maxIter →
  1 ≤ escape_count maxIter c ≤ maxIter.
Proof.
  intros H0 Hm.
  destruct (escape_loop_count maxIter c) as [_ (Hn & _ & Hout)]; [lia|].
  split; [|lia].
  destruct (Z_lt_le_dec (escape_count maxIter c) 1) as [Hlt|]; [|done].
  assert (escape_count maxIter c = 0) as H by lia.
  rewrite H in Hout. specialize (Hout ltac:(lia)).
  change (orbit c (Z.to_nat 0)) with (Complex (of_Z 0) (of_Z 0)) in Hout.
  congruence.
Qed.

End EscapeBound.

(** X1.  Raising the iteration bound does not change the count of a
    point that left the disc: the count under the bound [M'] is the
    smaller of [M'] and the count under any larger bound [M]. *)
Theorem escape_bound_monotone {D : Double} (M M' : Z) (c : complex) :
  0 ≤ M' ≤ M →
  ∃ n n',
    escape_loop (Z.to_nat M) M c (Complex (of_Z 0) (of_Z 0)) 0 = Some n ∧
    escape_loop (Z.to_nat M') M' c (Complex (of_Z 0) (of_Z 0)) 0 = Some n' ∧
    n' = Z.min M' n.
Proof.
  intros HM.
  destruct (escape_loop_count M c) as [Hrun _]; [lia|].
  destruct (escape_loop_count M' c) as [Hrun' _]; [lia|].
  eexists _, _. split; [exact Hrun|]. split; [exact Hrun'|].
  by apply escape_count_min.
Qed.

Lemma filter_none {A} (P : A → Prop) `{∀ x, Decision (P x)} (l : list A) :
  Forall (λ x, ¬ P x) l → filter P l = [].
Proof.
  induction 1 as [|x l Hx _ IH]; [done|].
  by rewrite filter_cons_False.
Qed.

(** X2.  The origin, from which every orbit starts, passes the test of
    the escape loop; so with a bound of at least one no pixel has the
    escape value 0, and bucket 0 of the histogram of a frame stays
    empty. *)
Theorem bucket_zero_empty {D : Double} (omp : OpenMP)
    (maxIter width height : Z) (x_min x_max y_min y_max : double) :
  inside (Complex (of_Z 0) (of_Z 0)) = true →
  1 ≤ maxIter < INT_MAX → 0 ≤ width → 0 ≤ height → team_ok omp →
  ∃ field hist cdf,
    frame_data omp width height maxIter x_min x_max y_min y_max
      = Some (field, hist, cdf) ∧
    Forall (Forall (λ n, 1 ≤ n ≤ maxIter)) field ∧
    vec_get hist 0 = Some 0.
Proof.
  intros H0 Hm Hw Hh Hteam.
  pose proof (frame_data_closed omp maxIter width height
    x_min x_max y_min y_max ltac:(lia) Hw Hh Hteam) as Hdata.
  cbv zeta in Hdata. eexists _, _, _. split; [exact Hdata|].
  assert (Forall (Forall (λ n, 1 ≤ n ≤ maxIter))
            (escape_field maxIter width height x_min x_max y_min y_max)) as Hf.
  { unfold escape_field. apply Forall_fmap, Forall_true. intros y. simpl.
    apply Forall_fmap, Forall_true. intros x. simpl.
    apply escape_count_positive; [done | lia]. }
  split; [done|].
  rewrite vec_get_lookup, lookup_fmap_seqZ by lia. f_equal.
  unfold count_value. rewrite filter_none; [done|].
  apply Forall_concat. eapply List.Forall_impl; [|exact Hf].
  intros row Hrow. simpl. eapply List.Forall_impl; [|exact Hrow].
  intros n Hn. simpl in Hn. lia.
Qed.

(** ** computeCDF on every histogram *)

(** X7.  [computeCDF] has no precondition on the counts or on
    [totalPixels]: on every histogram of at most [INT_MAX] entries, the
    empty one included, it returns a vector of the same length whose
    entry [i] is the running sum, kept in a [long], divided by
    [totalPixels]; a zero [totalPixels] is a floating-point division by
    zero and no error. *)
Theorem computeCDF_total {D : Double} (hist : list Z) (totalPixels : Z) :
  Z.of_nat (length hist) ≤ INT_MAX →
  ∃ cdf,
    computeCDF hist totalPixels = Some cdf ∧
    length cdf = length hist ∧
    ∀ i, 0 ≤ i < Z.of_nat (length hist) →
      vec_get cdf i
      = Some (ddiv (of_Z (wrap64 (prefix_sum hist i))) (of_Z totalPixels)).
Proof.
  intros Hlen. destruct hist as [|h hist].
  - exists []. split; [reflexivity|]. split; [done|]. simpl. intros; lia.
  - rewrite (computeCDF_closed (h :: hist) totalPixels
               (Z.of_nat (length hist))).
    + eexists. split; [done|]. split.
      * rewrite length_fmap, length_seqZ. simpl. lia.
      * intros i Hi. simpl length in Hi.
        by rewrite vec_get_lookup, lookup_fmap_seqZ by lia.
    + simpl length in Hlen. lia.
    + simpl length. lia.
Qed.

(** X8.  Every entry of the CDF of a histogram of non-negative counts
    that sum to [totalPixels] lies between [0 / totalPixels] and
    [1.0]. *)
Theorem cdf_bounded {D : Double} {L : DivisionLaws D} (hist : list Z)
    (totalPixels : Z) (cdf : list double) (v : double) :
  0 < Z.of_nat (length hist) ≤ INT_MAX →
  Forall (λ h, 0 ≤ h ≤ INT_MAX) hist →
  0 < totalPixels ≤ LONG_MAX →
  Zsum hist = totalPixels →
  computeCDF hist totalPixels = Some cdf →
  v ∈ cdf →
  dle (ddiv (of_Z 0) (of_Z totalPixels)) v = true ∧ dle v (of_Z 1) = true.
Proof.
  intros Hlen Hhist Htotal Hsum Hrun Hv.
  rewrite (computeCDF_closed hist totalPixels (Z.of_nat (length hist) - 1))
    in Hrun by lia.
  injection Hrun as <-.
  apply list_elem_of_fmap in Hv as (i & -> & Hi). apply elem_of_seqZ in Hi.
  assert (Z.of_nat (length hist) ≤ 2 ^ 31) as Hlen'
    by (unfold INT_MAX in *; lia).
  pose proof (prefix_sum_range hist i Hhist Hlen') as Hp.
  pose proof (Forall_lower _ _ Hhist) as Hpos.
  pose proof (prefix_sum_mono hist i (Z.of_nat (length hist)) Hpos ltac:(lia))
    as Hle.
  rewrite (prefix_sum_all hist (Z.of_nat (length hist))), Hsum in Hle by lia.
  rewrite wrap64_id by (unfold LONG_MAX; lia).
  unfold LONG_MAX in *. split.
  - apply ddiv_mono; lia.
  - rewrite <- (ddiv_diag totalPixels) by lia. apply ddiv_mono; lia.
Qed.

(** ** colorizeImage *)

Lemma shape_ext {A} (r c : Z) (p1 p2 : list (list A)) :
  shape r c p1 → shape r c p2 →
  (∀ y x, 0 ≤ y < r → 0 ≤ x < c → cell p1 y x = cell p2 y x) →
  p1 = p2.
Proof.
  intros [Hr1 Hc1] [Hr2 Hc2] Hcell.
  apply list_eq_same_length with (Z.to_nat r); [lia | lia |].
  intros j row1 row2 Hj H1 H2. 
  pose proof (Forall_lookup_1 _ _ _ _ Hc1 H1) as Hl1.
  pose proof (Forall_lookup_1 _ _ _ _ Hc2 H2) as Hl2. simpl in Hl1, Hl2.
  apply list_eq_same_length with (Z.to_nat c); [lia | lia |].
  intros k a b Hk Ha Hb.
  specialize (Hcell (Z.of_nat j) (Z.of_nat k) ltac:(lia) ltac:(lia)).
  unfold cell in Hcell.
  rewrite (vec_get_Some p1 j row1 H1), (vec_get_Some p2 j row2 H2) in Hcell.
  simpl in Hcell.
  rewrite (vec_get_Some row1 k a Ha), (vec_get_Some row2 k b Hb) in Hcell.
  congruence.
Qed.

(** X9.  [colorizeImage] is defined exactly when every pixel of the
    image has a colour: the field has a value [n] for it, and [n] is
    [maxIter] or an index of the CDF whose entry has an intensity in the
    range of [int]. *)
Theorem colorizeImage_defined {D : Double} {CV : OpenCV} (image : Mat)
    (storeN : list (list Z)) (cdf : list double) (maxIter : Z) :
  Mat_ok image →
  is_Some (colorizeImage image storeN cdf maxIter) ↔
  ∀ y x, 0 ≤ y < rows image → 0 ≤ x < cols image →
    ∃ n, cell storeN y x = Some n ∧
         (n = maxIter ∨
          ∃ v, vec_get cdf n = Some v ∧ is_Some (intensity v)).
Proof.
  intros Hok. split.
  - intros [image' Hrun] y x Hy Hx.
    destruct (colorizeImage_inv storeN cdf maxIter image image' Hok Hrun)
      as (_ & _ & _ & Hpaint).
    destruct (Hpaint y x Hy Hx) as (rgb & Hrgb & _).
    unfold pixel_color in Hrgb.
    apply bind_Some in Hrgb as (n & Hn & Hrgb). exists n. split; [done|].
    destruct (decide (n = maxIter)) as [|Hne]; [by left|]. right.
    unfold escaped_color in Hrgb.
    apply bind_Some in Hrgb as (v & Hv & Hrgb).
    apply bind_Some in Hrgb as (V & HV & _). exists v. split; [done|].
    by exists V.
  - intros Hcol.
    destruct (colorizeImage_total storeN cdf maxIter image Hok)
      as [image' Hrun]; [|by exists image'].
    intros y x Hy Hx. destruct (Hcol y x Hy Hx) as (n & Hn & Hcase).
    unfold pixel_color. rewrite Hn. simpl.
    destruct (decide (n = maxIter)) as [|Hne]; [by eexists|].
    destruct Hcase as [|(v & Hv & [V HV])]; [done|].
    unfold escaped_color. rewrite Hv. simpl. rewrite HV. simpl. by eexists.
Qed.

(** X10.  [colorizeImage] writes every pixel: the image it returns does
    not depend on what the image held before, only on its dimensions. *)
Theorem colorizeImage_overwrites {D : Double} {CV : OpenCV}
    (image1 image2 image1' : Mat) (storeN : list (list Z))
    (cdf : list double) (maxIter : Z) :
  Mat_ok image1 → Mat_ok image2 →
  rows image2 = rows image1 → cols image2 = cols image1 →
  colorizeImage image1 storeN cdf maxIter = Some image1' →
  colorizeImage image2 storeN cdf maxIter = Some image1'.
Proof.
  intros Hok1 Hok2 HR HC Hrun1.
  destruct (colorizeImage_inv storeN cdf maxIter image1 image1' Hok1 Hrun1)
    as (HR1 & HC1 & Hok1' & Hpaint1).
  destruct (colorizeImage_total storeN cdf maxIter image2 Hok2)
    as [image2' Hrun2].
  { intros y x Hy Hx. destruct (Hpaint1 y x) as (rgb & Hrgb & _); [lia..|].
    by exists rgb. }
  rewrite Hrun2. f_equal.
  destruct (colorizeImage_inv storeN cdf maxIter image2 image2' Hok2 Hrun2)
    as (HR2 & HC2 & Hok2' & Hpaint2).
  destruct image1' as [r1 c1 p1], image2' as [r2 c2 p2]. simpl in *.
  assert (r2 = r1) as -> by congruence.
  assert (c2 = c1) as -> by congruence.
  f_equal. apply (shape_ext r1 c1); [done | done |].
  intros y x Hy Hx.
  destruct (Hpaint1 y x) as (rgb1 & Hrgb1 & Hat1); [lia..|].
  destruct (Hpaint2 y x) as (rgb2 & Hrgb2 & Hat2); [lia..|].
  unfold Mat_at in Hat1, Hat2. simpl in Hat1, Hat2. unfold cell.
  rewrite Hat1, Hat2. congruence.
Qed.

(** ** computeFrame at a negative iteration depth *)

Lemma wrap32_range (z : Z) : INT_MIN ≤ wrap32 z ≤ INT_MAX.
Proof.
  unfold wrap32, INT_MIN, INT_MAX.
  pose proof (Z.mod_pos_bound (z + 2 ^ 31) (2 ^ 32) ltac:(lia)). lia.
Qed.

Lemma frame_data_negative {D : Double} (omp : OpenMP)
    (maxIter width height : Z) (x_min x_max y_min y_max : double) :
  INT_MIN ≤ maxIter < 0 → 0 < width → 0 < height → team_ok omp →
  frame_data omp width height maxIter x_min x_max y_min y_max = None.
Proof.
  intros Hm Hw Hh Hteam. unfold frame_data.
  pose proof Hteam as [Hthreads Hsched].
  rewrite (wrap32_id (maxIter + 1)) by (unfold INT_MIN, INT_MAX in *; lia).
  rewrite (vec_new_Some width) by lia. cbn [mbind option_bind].
  rewrite (vec_new_Some height) by lia. cbn [mbind option_bind].
  destruct (decide (maxIter = -1)) as [->|Hne].
  - repeat (rewrite vec_new_Some by lia; cbn [mbind option_bind]).
    rewrite computeEscapeValues_negative; [done | lia | done | done | done |].
    split; [|split]; simpl.
    + split; [rewrite length_replicate; lia|].
      apply Forall_replicate. rewrite length_replicate. lia.
    + by apply Forall_replicate.
    + rewrite length_replicate. lia.
  - assert (vec_new (maxIter + 1) 0 = None) as ->; [|reflexivity].
    unfold vec_new. by rewrite decide_False by lia.
Qed.

(** X11.  A zoom whose iteration depth [64 + int(log2(zoom) * 64)] is
    negative leaves [computeFrame] undefined on a frame that has a
    pixel: the histograms get a negative length, or, at depth [-1],
    the first pixel is counted outside of an empty histogram. *)
Theorem computeFrame_negative_depth {D : Double} {CV : OpenCV} (omp : OpenMP)
    (width height : Z) (cX cY xRange yRange : double) (m : Memory)
    (maxIter : Z) :
  frame_maxIter (zoom m) = Some maxIter → maxIter < 0 →
  0 < width → 0 < height → team_ok omp →
  computeFrame omp width height cX cY xRange yRange m = None.
Proof.
  intros Hmax Hneg Hw Hh Hteam. unfold computeFrame.
  destruct (frame_viewport cX cY xRange yRange (zoom m))
    as [[[x_min x_max] y_min] y_max].
  rewrite Hmax. cbn [mbind option_bind].
  rewrite frame_data_negative; [done | | done | done | done].
  split; [|done]. unfold frame_maxIter in Hmax.
  apply bind_Some in Hmax as (k & _ & [= <-]).
  pose proof (wrap32_range (64 + k)). lia.
Qed.

(** ** What a run that returns has done *)

Lemma seqZ_of_nat (n : nat) : seqZ 0 (Z.of_nat n) = Z.of_nat <$> seq 0 n.
Proof.
  unfold seqZ. rewrite Nat2Z.id. apply list_fmap_ext. intros _ i _. lia.
Qed.

Section RenderReturn.
Context {D : Double} {CV : OpenCV}.
Variables (omp : OpenMP) (width height : Z).
Variables (cX cY xRange yRange zoomEnd scale : double).

(** The loop returns only at the first zoom that fails its test; the
    counter [frame], the static [frameCount] and the files written have
    followed the iterations. *)
Lemma render_loop_returned (fuel j : nat) (st st' : LoopState) :
  Z.of_nat j + Z.of_nat fuel ≤ INT_MAX →
  zoom (mem st) = zoom_at scale j →
  frame st = Z.of_nat j →
  frameCount (mem st) = Z.of_nat j →
  progress st = progress_upto scale j →
  (images_dir (mem st)).*1 = Z.of_nat <$> seq 0 j →
  (∀ k, (k < j)%nat → dlt (zoom_at scale k) zoomEnd = true) →
  render_loop fuel omp width height cX cY xRange yRange zoomEnd scale st
    = Returned st' →
  ∃ N : nat,
    (j ≤ N ≤ j + fuel)%nat ∧
    (∀ k, (k < N)%nat → dlt (zoom_at scale k) zoomEnd = true) ∧
    dlt (zoom_at scale N) zoomEnd = false ∧
    zoom (mem st') = zoom_at scale N ∧
    frame st' = Z.of_nat N ∧
    frameCount (mem st') = Z.of_nat N ∧
    progress st' = progress_upto scale N ∧
    (images_dir (mem st')).*1 = Z.of_nat <$> seq 0 N.
Proof.
  revert j st.
  induction fuel as [|fuel IH]; intros j st Hmax Hz Hf Hc Hp Hdir Hbelow Hrun.
  - simpl in Hrun. destruct (dlt (zoom (mem st)) zoomEnd) eqn:Htest; [done|].
    injection Hrun as <-. exists j. rewrite Hz in Htest.
    split; [lia|]. done.
  - simpl in Hrun. destruct (dlt (zoom (mem st)) zoomEnd) eqn:Htest.
    + set (m1 := mkMemory (dmul (zoom (mem st)) scale) (image (mem st))
                          (frameCount (mem st)) (images_dir (mem st))) in *.
      destruct (computeFrame omp width height cX cY xRange yRange m1)
        as [m2|] eqn:Hm2; [|done].
      destruct (computeFrame_Some _ _ _ _ _ _ _ _ _ Hm2)
        as (Hz2 & Hc2 & Hdir2 & _). simpl in Hz2, Hc2, Hdir2.
      destruct (IH (S j) (mkLoopState m2 (wrap32 (frame st + 1))
                            (progress st ++ [(frame st, zoom m2)])))
        as (N & HN & Hrest); cbn [mem frame progress zoom frameCount images_dir].
      * lia.
      * by rewrite Hz2, Hz.
      * rewrite Hf, wrap32_id; [lia | unfold INT_MIN, INT_MAX in *; lia].
      * rewrite Hc2, Hc, wrap32_id; [lia | unfold INT_MIN, INT_MAX in *; lia].
      * by rewrite progress_upto_S, Hp, Hf, Hz2, Hz.
      * by rewrite Hdir2, fmap_app, Hdir, seq_S, fmap_app, Hc.
      * intros k Hk. destruct (decide (k = j)) as [->|].
        -- by rewrite <- Hz.
        -- apply Hbelow. lia.
      * done.
      * exists N. split; [lia | done].
    + injection Hrun as <-. exists j. rewrite Hz in Htest.
      split; [lia|]. done.
Qed.

(** While the zoom stays below [zoomEnd] the loop does not return. *)
Lemma render_loop_diverges (fuel j : nat) (st st' : LoopState) :
  (∀ k, dlt (zoom_at scale k) zoomEnd = true) →
  zoom (mem st) = zoom_at scale j →
  render_loop fuel omp width height cX cY xRange yRange zoomEnd scale st
    ≠ Returned st'.
Proof.
  intros Hbelow. revert j st.
  induction fuel as [|fuel IH]; intros j st Hz; simpl;
    rewrite Hz, Hbelow; [done|].
  set (m1 := mkMemory (dmul (zoom_at scale j) scale) (image (mem st))
                      (frameCount (mem st)) (images_dir (mem st))).
  destruct (computeFrame omp width height cX cY xRange yRange m1)
    as [m2|] eqn:Hm2; [|done].
  apply (IH (S j)). simpl.
  by destruct (computeFrame_Some _ _ _ _ _ _ _ _ _ Hm2) as (-> & _).
Qed.

End RenderReturn.

Section MainReturn.
Context {D : Double} {CV : OpenCV}.
Variables (omp : OpenMP) (width height fps : Z) (zoomEnd : double).
Variables (fill : Vec3b) (elapsedSec : double).

Lemma main_returned (fuel : nat) (report : Report) :
  Z.of_nat fuel ≤ INT_MAX →
  main fuel omp width height fps zoomEnd fill elapsedSec = Returned report →
  ∃ N : nat,
    (N ≤ fuel)%nat ∧
    (∀ k, (k < N)%nat → dlt (zoom_at (scalePerFrame_of fps) k) zoomEnd = true) ∧
    dlt (zoom_at (scalePerFrame_of fps) N) zoomEnd = false ∧
    frames_generated report = Z.of_nat N ∧
    final_zoom report = zoom_at (scalePerFrame_of fps) N ∧
    time_per_frame report = ddiv elapsedSec (of_Z (Z.of_nat N)) ∧
    progress_lines report = progress_upto (scalePerFrame_of fps) N ∧
    (frames_written report).*1 = Z.of_nat <$> seq 0 N.
Proof.
  intros Hfuel. unfold main.
  destruct (Mat_create height width fill) as [img|]; [|done].
  destruct (render_loop fuel omp width height centerX centerY xRangeStart
              (yRangeStart width height) zoomEnd (scalePerFrame_of fps)
              (mkLoopState (mkMemory (of_Z 1) img 0 []) 0 []))
    as [st'| |] eqn:Hrun; [|done|done].
  intros [= <-]. simpl.
  destruct (render_loop_returned omp width height centerX centerY xRangeStart
    (yRangeStart width height) zoomEnd (scalePerFrame_of fps) fuel 0
    (mkLoopState (mkMemory (of_Z 1) img 0 []) 0 []) st')
    as (N & HN & Hbelow & Hreached & Hz & Hf & _ & Hp & Hdir);
    [simpl; lia | done | done | done | done | done | intros; lia | exact Hrun |].
  exists N. rewrite Hf. split; [lia|]. done.
Qed.

End MainReturn.

(** X12.  Whenever [main] returns it has left the render loop at the
    first index [N] at which the test [zoom_N < zoomEnd] fails: every
    earlier zoom passed the test, [N] frames were generated, the final
    zoom is [zoom_N], and the time per frame is the elapsed time
    divided by [N]. *)
Theorem main_returns_at_first_crossing {D : Double} {CV : OpenCV}
    (omp : OpenMP) (width height fps : Z) (zoomEnd : double) (fill : Vec3b)
    (elapsedSec : double) (fuel : nat) (report : Report) :
  Z.of_nat fuel ≤ INT_MAX →
  main fuel omp width height fps zoomEnd fill elapsedSec = Returned report →
  ∃ N : nat,
    (N ≤ fuel)%nat ∧
    frames_generated report = Z.of_nat N ∧
    (∀ k, (k < N)%nat → dlt (zoom_at (scalePerFrame_of fps) k) zoomEnd = true) ∧
    dlt (zoom_at (scalePerFrame_of fps) N) zoomEnd = false ∧
    final_zoom report = zoom_at (scalePerFrame_of fps) N ∧
    progress_lines report = progress_upto (scalePerFrame_of fps) N ∧
    time_per_frame report = ddiv elapsedSec (of_Z (Z.of_nat N)).
Proof.
  intros Hfuel Hrun.
  destruct (main_returned omp width height fps zoomEnd fill elapsedSec
    fuel report Hfuel Hrun) as (N & HN & Hb & Hr & Hf & Hz & Ht & Hp & _).
  exists N. done.
Qed.

(** X13.  The frames of a run are written under the numbers
    [0, 1, ..., frames - 1], in this order: the static counter of
    [computeFrame] and the counter [frame] of [main] advance together. *)
Theorem frames_numbered {D : Double} {CV : OpenCV}
    (omp : OpenMP) (width height fps : Z) (zoomEnd : double) (fill : Vec3b)
    (elapsedSec : double) (fuel : nat) (report : Report) :
  Z.of_nat fuel ≤ INT_MAX →
  main fuel omp width height fps zoomEnd fill elapsedSec = Returned report →
  0 ≤ frames_generated report ∧
  (frames_written report).*1 = seqZ 0 (frames_generated report) ∧
  (progress_lines report).*1 = seqZ 0 (frames_generated report).
Proof.
  intros Hfuel Hrun.
  destruct (main_returned omp width height fps zoomEnd fill elapsedSec
    fuel report Hfuel Hrun) as (N & _ & _ & _ & -> & _ & _ & -> & ->).
  rewrite seqZ_of_nat. split; [lia|]. split; [done|].
  unfold progress_upto. rewrite <- list_fmap_compose.
  by apply list_fmap_ext.
Qed.

Lemma main_not_returned {D : Double} {CV : OpenCV}
    (omp : OpenMP) (width height fps : Z) (zoomEnd : double) (fill : Vec3b)
    (elapsedSec : double) (fuel : nat) (report : Report) :
  (∀ k, dlt (zoom_at (scalePerFrame_of fps) k) zoomEnd = true) →
  main fuel omp width height fps zoomEnd fill elapsedSec ≠ Returned report.
Proof.
  intros Hbelow. unfold main.
  destruct (Mat_create height width fill) as [img|]; [|done].
  destruct (render_loop fuel omp width height centerX centerY xRangeStart
              (yRangeStart width height) zoomEnd (scalePerFrame_of fps)
              (mkLoopState (mkMemory (of_Z 1) img 0 []) 0 []))
    as [st'| |] eqn:Hrun; [|done|done].
  intros _. revert Hrun.
  by apply (render_loop_diverges omp width height centerX centerY xRangeStart
              (yRangeStart width height) zoomEnd (scalePerFrame_of fps) fuel 0).
Qed.

(** X14.  When no zoom of the sequence reaches [zoomEnd], [main] never
    gets to its report: however many iterations it is given, it is
    still in the render loop when they are used up, or a frame is
    undefined. *)
Theorem main_never_returns {D : Double} {CV : OpenCV}
    (omp : OpenMP) (width height fps : Z) (zoomEnd : double) (fill : Vec3b)
    (elapsedSec : double) (fuel : nat) :
  (∀ k, dlt (zoom_at (scalePerFrame_of fps) k) zoomEnd = true) →
  main fuel omp width height fps zoomEnd fill elapsedSec = OutOfFuel ∨
  main fuel omp width height fps zoomEnd fill elapsedSec = Undefined.
Proof.
  intros Hbelow.
  destruct (main fuel omp width height fps zoomEnd fill elapsedSec)
    as [report| |] eqn:Hrun; [|by right|by left].
  by apply main_not_returned in Hrun.
Qed.

(** ** The names of the files *)

Module SprintfFacts.
Import Ascii String Sprintf.

Lemma digit_cases (d : Z) :
  0 ≤ d < 10 →
  d = 0 ∨ d = 1 ∨ d = 2 ∨ d = 3 ∨ d = 4 ∨ d = 5 ∨ d = 6 ∨ d = 7 ∨ d = 8 ∨ d = 9.
Proof. lia. Qed.

Lemma digit_value_char (d : Z) : 0 ≤ d < 10 → digit_value (digit_char d) = d.
Proof.
  intros Hd.
  destruct (digit_cases d Hd) as [->|[->|[->|[->|[->|[->|[->|[->|[->| ->]]]]]]]]];
    reflexivity.
Qed.

Lemma digit_char_not_minus (d : Z) :
  0 ≤ d < 10 → Ascii.eqb (digit_char d) "-" = false.
Proof.
  intros Hd.
  destruct (digit_cases d Hd) as [->|[->|[->|[->|[->|[->|[->|[->|[->| ->]]]]]]]]];
    reflexivity.
Qed.

Lemma decimal_value_snoc (s : list ascii) (c : ascii) :
  decimal_value (s ++ [c]) = 10 * decimal_value s + digit_value c.
Proof. unfold decimal_value. by rewrite foldl_snoc. Qed.

Lemma decimal_digits_value (fuel : nat) (n : Z) :
  0 ≤ n < 10 ^ Z.of_nat fuel →
  decimal_value (decimal_digits fuel n) = n.
Proof.
  revert n. induction fuel as [|fuel IH]; intros n Hn.
  - change (10 ^ Z.of_nat 0) with 1 in Hn.
    change (decimal_value (decimal_digits 0 n)) with 0. lia.
  - cbn [decimal_digits]. rewrite decimal_value_snoc.
    rewrite digit_value_char by (apply Z.mod_pos_bound; lia).
    destruct (Z.ltb_spec n 10) as [Hlt|Hge].
    + change (decimal_value []) with 0. rewrite Z.mod_small by lia. lia.
    + rewrite IH.
      * pose proof (Z.div_mod n 10 ltac:(lia)). lia.
      * rewrite Nat2Z.inj_succ, Z.pow_succ_r in Hn by lia.
        split; [apply Z.div_pos; lia|].
        apply Z.div_lt_upper_bound; lia.
Qed.

Lemma decimal_digits_length (fuel m : nat) (n : Z) :
  (1 ≤ m ≤ fuel)%nat → 0 ≤ n < 10 ^ Z.of_nat m →
  (1 ≤ List.length (decimal_digits fuel n) ≤ m)%nat.
Proof.
  revert m n. induction fuel as [|fuel IH]; intros m n Hm Hn; [lia|].
  cbn [decimal_digits]. rewrite length_app. simpl List.length.
  destruct (Z.ltb_spec n 10) as [Hlt|Hge]; [simpl; lia|].
  destruct m as [|[|m]]; [lia | simpl in Hn; lia |].
  destruct (IH (S m) (n / 10)) as [H1 H2]; [lia | | lia].
  rewrite (Nat2Z.inj_succ (S m)), Z.pow_succ_r in Hn by lia.
  split; [apply Z.div_pos; lia|].
  apply Z.div_lt_upper_bound; lia.
Qed.

Lemma decimal_digits_head (fuel : nat) (n : Z) :
  0 ≤ n → (0 < fuel)%nat →
  ∃ c s, decimal_digits fuel n = c :: s ∧ Ascii.eqb c "-" = false.
Proof.
  revert n. induction fuel as [|fuel IH]; intros n Hn Hfuel; [lia|].
  cbn [decimal_digits].
  destruct (Z.ltb_spec n 10) as [Hlt|Hge].
  - eexists _, _. split; [reflexivity|].
    apply digit_char_not_minus, Z.mod_pos_bound. lia.
  - destruct fuel as [|fuel].
    + eexists _, _. split; [reflexivity|].
      apply digit_char_not_minus, Z.mod_pos_bound. lia.
    + destruct (IH (n / 10)) as (c & s & -> & Hc);
        [apply Z.div_pos; lia | lia |].
      eexists _, _. split; [reflexivity | done].
Qed.

Lemma decimal_value_zeros (m : nat) (s : list ascii) :
  decimal_value (replicate m "0"%char ++ s) = decimal_value s.
Proof.
  unfold decimal_value. rewrite foldl_app. f_equal.
  induction m as [|m IH]; [done|]. by rewrite replicate_S_end, foldl_snoc, IH.
Qed.

Lemma pad_zeros_head (w : nat) (s : list ascii) (c : ascii) (s' : list ascii) :
  s = c :: s' → Ascii.eqb c "-" = false →
  ∃ c' s'', pad_zeros w s = c' :: s'' ∧ Ascii.eqb c' "-" = false.
Proof.
  intros -> Hc. unfold pad_zeros.
  destruct (w - List.length (c :: s'))%nat as [|k].
  - by eexists _, _.
  - eexists _, _. split; [reflexivity | done].
Qed.

(** Reading back what [%05d] prints gives the number printed. *)
Lemma format_05d_value (k : Z) :
  INT_MIN ≤ k ≤ INT_MAX → int_value (format_05d k) = k.
Proof.
  intros Hk. unfold format_05d, INT_MIN, INT_MAX in *.
  destruct (Z.ltb_spec k 0) as [Hneg|Hpos].
  - cbn [int_value]. change (Ascii.eqb "-" "-") with true. cbv iota.
    unfold pad_zeros. rewrite decimal_value_zeros.
    unfold decimal. rewrite decimal_digits_value; lia.
  - destruct (decimal_digits_head 10 k) as (c & s & Hd & Hc); [lia | lia |].
    destruct (pad_zeros_head 5 (decimal k) c s Hd Hc) as (c' & s' & Hp & Hc').
    rewrite Hp. cbn [int_value]. rewrite Hc', <- Hp.
    unfold pad_zeros. rewrite decimal_value_zeros.
    unfold decimal. rewrite decimal_digits_value; lia.
Qed.

Lemma filename_inj (f1 f2 : Z) :
  INT_MIN ≤ f1 ≤ INT_MAX → INT_MIN ≤ f2 ≤ INT_MAX →
  filename f1 = filename f2 → f1 = f2.
Proof.
  intros H1 H2 Heq. unfold filename in Heq.
  apply app_inv_head, app_inv_tail in Heq.
  by rewrite <- (format_05d_value f1), <- (format_05d_value f2), Heq.
Qed.

Lemma decimal_length (n : Z) :
  0 ≤ n ≤ 2 ^ 31 → (1 ≤ List.length (decimal n) ≤ 10)%nat.
Proof. intros Hn. apply decimal_digits_length; lia. Qed.

End SprintfFacts.

(** The lengths of the literal parts of a format. *)
Ltac literal_lengths :=
  repeat match goal with
  | |- context [length (String.list_ascii_of_string ?s)] =>
      let n := eval vm_compute in (length (String.list_ascii_of_string s)) in
      change (length (String.list_ascii_of_string s)) with n
  end.

(** X15.  The name [writeFrame] prints for a frame fits the buffer of 256
    characters, the final NUL included, whatever the [int]; for the
    frames 0 to 99999 it is the 22 characters of [images/frame_],
    five digits and [.png]. *)
Theorem filename_fits (frame : Z) :
  INT_MIN ≤ frame ≤ INT_MAX →
  (length (Sprintf.filename frame) + 1 ≤ 29)%nat ∧
  (0 ≤ frame ≤ 99999 → length (Sprintf.filename frame) = 22%nat).
Proof.
  intros Hf. unfold Sprintf.filename, Sprintf.format_05d, Sprintf.pad_zeros.
  unfold INT_MIN, INT_MAX in *. rewrite !length_app.
  literal_lengths.
  destruct (Z.ltb_spec frame 0) as [Hneg|Hpos].
  - pose proof (SprintfFacts.decimal_length (- frame) ltac:(lia)) as Hl.
    split; [|lia]. simpl length. rewrite length_app, length_replicate. lia.
  - pose proof (SprintfFacts.decimal_length frame ltac:(lia)) as Hl.
    rewrite length_app, length_replicate. split; [lia|].
    intros Hsmall.
    pose proof (SprintfFacts.decimal_digits_length 10 5 frame ltac:(lia)
                  ltac:(lia)) as Hl5.
    unfold Sprintf.decimal. lia.
Qed.

(** X17.  The shell command [main] prints for the encoder fits the
    buffer of 512 characters, whatever the [int] [fps]. *)
Theorem cmd_fits (fps : Z) :
  INT_MIN ≤ fps ≤ INT_MAX →
  (length (Sprintf.cmd fps) + 1 ≤ 512)%nat.
Proof.
  intros Hf. unfold Sprintf.cmd, Sprintf.format_d.
  unfold INT_MIN, INT_MAX in *. rewrite !length_app.
  literal_lengths.
  destruct (Z.ltb_spec fps 0) as [Hneg|Hpos].
  - pose proof (SprintfFacts.decimal_length (- fps) ltac:(lia)) as Hl.
    simpl length. lia.
  - pose proof (SprintfFacts.decimal_length fps ltac:(lia)) as Hl. lia.
Qed.

(** X16.  The frames of a run get pairwise distinct file names: no frame
    overwrites the file of another. *)
Theorem frame_files_distinct {D : Double} {CV : OpenCV}
    (omp : OpenMP) (width height fps : Z) (zoomEnd : double) (fill : Vec3b)
    (elapsedSec : double) (fuel : nat) (report : Report) :
  Z.of_nat fuel ≤ INT_MAX →
  main fuel omp width height fps zoomEnd fill elapsedSec = Returned report →
  NoDup (Sprintf.filename <$> (frames_written report).*1).
Proof.
  intros Hfuel Hrun.
  destruct (main_returned omp width height fps zoomEnd fill elapsedSec
    fuel report Hfuel Hrun) as (N & HN & _ & _ & _ & _ & _ & _ & ->).
  apply NoDup_fmap_2_strong.
  - intros f1 f2 H1 H2.
    apply list_elem_of_fmap in H1 as (k1 & -> & Hk1).
    apply list_elem_of_fmap in H2 as (k2 & -> & Hk2).
    apply elem_of_seq in Hk1, Hk2.
    apply SprintfFacts.filename_inj; unfold INT_MIN, INT_MAX in *; lia.
  - apply NoDup_fmap_2; [apply Nat2Z.inj'|apply NoDup_seq].
Qed.

(** X5.  [computeEscapeValues] does not clear the histograms it
    receives: it adds the counts of the field to what they hold, so
    that their columns afterwards sum, in the arithmetic of [int], to
    the sums before plus the counts. *)
Theorem histograms_accumulate {D : Double} (omp : OpenMP)
    (storeN histPerThread : list (list Z)) (maxIter width height : Z)
    (x_min x_max y_min y_max : double) :
  0 ≤ maxIter < INT_MAX → team_ok omp →
  escape_state_ok maxIter width height (omp_max_threads omp)
                  (storeN, histPerThread) →
  Z.of_nat (length histPerThread) ≤ INT_MAX →
  ∃ field histPerThread',
    computeEscapeValues omp storeN histPerThread maxIter width height
      x_min x_max y_min y_max = Some (field, histPerThread') ∧
    length histPerThread' = length histPerThread ∧
    ∀ i, 0 ≤ i ≤ maxIter →
      wrap32 (column_sum histPerThread' i)
      = wrap32 (column_sum histPerThread i + count_value field i).
Proof.
  intros Hm Hteam Hok Hlen.
  destruct (merged_counts omp maxIter width height x_min x_max y_min y_max
    Hm Hteam storeN histPerThread Hok Hlen)
    as (hists' & Hrun & _ & Hl & Hcol & _).
  eexists _, hists'. split; [exact Hrun|]. split; [done|].
  intros i Hi. apply Hcol. lia.
Qed.

(** ** Facts of exact real arithmetic *)

Module ExactFacts.
Import RealArith RealFacts ExactRuns.
Local Open Scope R_scope.

Lemma origin_inside :
  inside (D := Rdouble) (Complex (of_Z 0) (of_Z 0)) = true.
Proof.
  unfold inside, cabs. simpl. rewrite !of_Z_IZR. apply Rleb_true.
  unfold Rhypot. replace (0 * 0 + 0 * 0) with 0 by lra. rewrite sqrt_0. lra.
Qed.

(** The run [fps = 1], [zoomEnd = 2] returns after two frames. *)
Lemma two_frame_run :
  ∃ report,
    main (D := Rdouble) (CV := channel_swap) 2 two_threads 2 2 1
      (of_Z 2) (mkVec3b 7 7 7) 0 = Returned report.
Proof.
  unfold main.
  destruct (Mat_create_ok 2 2 (mkVec3b 7 7 7)) as (img & -> & Hok & HR & HC);
    [lia | lia |].
  destruct (render_loop_from (D := Rdouble) (CV := channel_swap) two_threads
    2 2 centerX centerY xRangeStart (yRangeStart 2 2) (of_Z 2)
    (scalePerFrame_of 1) 2 run_below run_reached
    ltac:(unfold INT_MAX; lia) run_frames
    2 0 2 (mkLoopState (mkMemory (of_Z 1) img 0 []) 0 []))
    as (st' & Hrun & _); try (done || lia).
  rewrite Hrun. by eexists.
Qed.

(** With [fps = -1] the zoom shrinks from frame to frame and stays
    below [zoomEnd = 2]. *)
Lemma shrinking_zoom (k : nat) :
  dlt (zoom_at (D := Rdouble) (scalePerFrame_of (-1)) k) (of_Z 2) = true.
Proof.
  rewrite scalePerFrame_exact, zoom_at_exact. simpl.
  apply Rltb_true. rewrite of_Z_IZR.
  rewrite <- (Rpower_1 2) at 2 by lra.
  apply Rpower_lt; [lra|]. pose proof (pos_INR k). lra.
Qed.

(** The second frame of the run [fps = -1] has the zoom [2^(-1.6)] and
    the depth [64 + int(-102.4) = -38]. *)
Lemma negative_fps_depth :
  frame_maxIter (D := Rdouble)
    (zoom_at (D := Rdouble) (scalePerFrame_of (-1)) 2) = Some (-38)%Z.
Proof.
  rewrite scalePerFrame_exact, zoom_at_exact.
  apply (frame_maxIter_exact _ (-102)); [lia|].
  apply (Rtrunc_between_neg _ 102); [lia | simpl; lra | simpl; lra].
Qed.

End ExactFacts.

(** ** A frame of more than [INT_MAX] pixels *)

Lemma filter_disjoint_length (l : list Z) (i j : Z) :
  i ≠ j →
  (length (filter (λ n, n = i) l) + length (filter (λ n, n = j) l)
   ≤ length l)%nat.
Proof.
  intros Hij. induction l as [|a l IH]; [done|].
  rewrite !filter_cons.
  destruct (decide (a = i)), (decide (a = j)); simpl; lia.
Qed.

Lemma count_rows_lower (P : Z → Prop) `{∀ n, Decision (P n)}
    (f : Z → list Z) (l : list Z) :
  (∀ y, y ∈ l → (1 ≤ length (filter P (f y)))%nat) →
  (length l ≤ length (filter P (concat (f <$> l))))%nat.
Proof.
  induction l as [|y l IH]; intros Hrow; [done|].
  rewrite fmap_cons. simpl concat. rewrite list.filter_app, length_app.
  pose proof (Hrow y ltac:(left)) as Hy.
  assert (length l ≤ length (filter P (concat (f <$> l))))%nat as Hl.
  { apply IH. intros y' Hy'. apply Hrow. by right. }
  simpl length. lia.
Qed.

Lemma Zsum_scale {A} (k : Z) (g : A → Z) (l : list A) :
  Zsum ((λ a, k * g a) <$> l) = k * Zsum (g <$> l).
Proof.
  induction l as [|a l IH]; [simpl; lia|].
  rewrite !fmap_cons, !Zsum_cons, IH. lia.
Qed.

(** A counter that has gone once round the range of [int]. *)
Lemma wrap32_once (c : Z) :
  INT_MAX < c < 2 ^ 32 → wrap32 c = c - 2 ^ 32.
Proof.
  unfold INT_MAX, wrap32. intros Hc.
  replace (c + 2 ^ 31) with (c - 2 ^ 31 + 1 * 2 ^ 32) by lia.
  rewrite Z_mod_plus_full, Z.mod_small; lia.
Qed.

(** A histogram one of whose counts has gone round sums to the number
    of values less [2^32]. *)
Lemma Zsum_wrapped (vals : list Z) (m j : Z) :
  Forall (λ v, 0 ≤ v ≤ m) vals → 0 ≤ j ≤ m →
  Z.of_nat (length vals) < 2 ^ 32 →
  INT_MAX < Z.of_nat (length (filter (λ n, n = j) vals)) →
  Zsum ((λ i, wrap32 (Z.of_nat (length (filter (λ n, n = i) vals))))
        <$> seqZ 0 (m + 1))
  = Z.of_nat (length vals) - 2 ^ 32.
Proof.
  intros Hvals Hj Hlen Hbig.
  rewrite (fmap_seqZ_ext _
    (λ i, Z.of_nat (length (filter (λ n, n = i) vals))
          + - 2 ^ 32 * (if decide (j = i) then 1 else 0))).
  - rewrite Zsum_fmap_add, Zsum_counts, Zsum_scale, Zsum_indicator by done.
    lia.
  - intros i Hi. pose proof (length_filter (λ n, n = i) vals) as Hle.
    destruct (decide (j = i)) as [<-|Hne].
    + rewrite wrap32_once; lia.
    + pose proof (filter_disjoint_length vals i j ltac:(done)).
      rewrite wrap32_id; [lia|]. unfold INT_MIN, INT_MAX in *. lia.
Qed.

(** The merged histogram of a field one of whose counts has gone round
    sums to the number of pixels less [2^32]. *)
Lemma wrapped_histogram_sum (field : list (list Z)) (m j : Z) :
  Forall (λ v, 0 ≤ v ≤ m) (concat field) → 0 ≤ j ≤ m →
  Z.of_nat (length (concat field)) < 2 ^ 32 →
  INT_MAX < count_value field j →
  Zsum ((λ i, wrap32 (count_value field i)) <$> seqZ 0 (m + 1))
  = Z.of_nat (length (concat field)) - 2 ^ 32.
Proof.
  intros Hrange Hj Hsize Hbig. unfold count_value in *.
  by apply (Zsum_wrapped (concat field) m j).
Qed.

Module LargeFrame.
Import RealArith RealFacts ExactRuns.
Local Open Scope R_scope.

Lemma hypot_outside (re im : R) :
  re < -2 ∨ im < -2 → 2 < Rhypot re im.
Proof.
  intros H. unfold Rhypot. rewrite <- (sqrt_square 2) at 1 by lra.
  apply sqrt_lt_1_alt. destruct H; nra.
Qed.

Lemma first_iterate (c : complex (D := Rdouble)) : orbit c 1 = c.
Proof.
  destruct c as [re im]. unfold orbit, cadd, cmul. simpl.
  rewrite !of_Z_IZR. f_equal; lra.
Qed.

(** A point outside the disc of radius 2 leaves it with the first
    iterate. *)
Lemma escape_count_outside (maxIter : Z) (c : complex (D := Rdouble)) :
  (1 ≤ maxIter)%Z → 2 < Rhypot (real c) (imag c) →
  escape_count maxIter c = 1%Z.
Proof.
  intros Hm Hc.
  destruct (escape_loop_count maxIter c) as [_ Hcount]; [lia|].
  apply (is_escape_count_unique maxIter c); [done|].
  split; [lia|]. split.
  - intros k Hk. assert (k = 0%Z) as -> by lia. exact ExactFacts.origin_inside.
  - intros _. change (Z.to_nat 1) with 1%nat. rewrite first_iterate.
    unfold inside, cabs. simpl. rewrite of_Z_IZR.
    apply Bool.not_true_iff_false. intros Hle. apply Rleb_true in Hle. lra.
Qed.

(** The zoom of the first frame of a run at 30 frames per second. *)
Lemma first_zoom_bounds :
  1 < zoom_at (D := Rdouble) (scalePerFrame_of 30) 1 < 119 / 100.
Proof.
  rewrite scalePerFrame_exact, zoom_at_exact. simpl INR.
  set (w := Rpower 2 (1 / 4)).
  assert (0 < w) as Hw by apply Rpower_2_pos.
  assert (w * w * (w * w) = 2) as Hw4.
  { unfold w. rewrite <- !Rpower_plus.
    replace (1 / 4 + 1 / 4 + (1 / 4 + 1 / 4)) with 1 by lra.
    apply Rpower_1. lra. }
  assert (w < 119 / 100) as Hlt.
  { apply Rnot_le_lt. intros Hge.
    assert (119 / 100 * (119 / 100) <= w * w) by nra. nra. }
  split.
  - rewrite <- (Rpower_O 2) at 1 by lra. apply Rpower_lt; lra.
  - apply Rlt_trans with w; [|done]. apply Rpower_lt; lra.
Qed.

Lemma first_depth :
  frame_maxIter (D := Rdouble)
    (zoom_at (D := Rdouble) (scalePerFrame_of 30) 1) = Some 65%Z.
Proof.
  rewrite scalePerFrame_exact, zoom_at_exact.
  apply (frame_maxIter_exact _ 1); [lia|].
  apply Rtrunc_between; [lia|]. simpl. lra.
Qed.

Section Field.
Variables (maxIter height : Z) (x_min x_max y_min y_max : R).
Hypothesis maxIter_pos : (1 ≤ maxIter)%Z.
Hypothesis height_pos : (0 < height)%Z.
Hypothesis left_outside : x_min < -2.
Hypothesis top_outside : y_min < -2.

Let value (y x : Z) : Z :=
  escape_count maxIter
    (pixel_point (D := Rdouble) 2 height x_min x_max y_min y_max x y).

Lemma left_column (y : Z) : value y 0 = 1%Z.
Proof.
  apply escape_count_outside; [done|]. apply hypot_outside. left.
  unfold pixel_point. simpl. rewrite !of_Z_IZR. lra.
Qed.

Lemma top_row (x : Z) : value 0 x = 1%Z.
Proof.
  apply escape_count_outside; [done|]. apply hypot_outside. right.
  unfold pixel_point. simpl. rewrite !of_Z_IZR. lra.
Qed.

(** With the left column and the first row outside the disc, more than
    [height] pixels of a frame of width 2 have the escape value 1. *)
Lemma many_ones :
  (height + 1
   ≤ count_value (escape_field (D := Rdouble) maxIter 2 height
                    x_min x_max y_min y_max) 1)%Z.
Proof.
  unfold count_value, escape_field.
  change (seqZ 0 2) with [0%Z; 1%Z].
  rewrite (seqZ_cons 0 height), fmap_cons by done. simpl concat.
  pose proof (left_column 0) as H00. pose proof (top_row 1) as H01.
  pose proof (count_rows_lower (λ n, n = 1%Z)
    (λ y, [value y 0; value y 1]) (seqZ (Z.succ 0) (Z.pred height))) as Hrest.
  rewrite length_seqZ in Hrest.
  assert (Z.to_nat (Z.pred height)
          ≤ length (filter (λ n, n = 1%Z)
              (concat ((λ y, [value y 0; value y 1])
                       <$> seqZ (Z.succ 0) (Z.pred height)))))%nat as Hr.
  { apply Hrest. intros y _. rewrite left_column.
    rewrite filter_cons_True by done. simpl. lia. }
  unfold value in H00, H01, Hr. rewrite H00, H01.
  rewrite !filter_cons_True by done. simpl length. lia.
Qed.

End Field.

End LargeFrame.

(** C2.  The counters of the histograms are [int]s, where the number of
    pixels of a frame is computed as a [long].  On the first frame of
    the run [mandelbrot 2 2147483647] (width 2, height 2147483647,
    30 frames per second, in exact arithmetic), whose depth is 65, more
    than [INT_MAX] of the 4294967294 pixels lie outside the disc of
    radius 2 and have the escape value 1: the entry 1 of the merged
    histogram is negative, not their number, and the entries sum to
    [-2], not to [width * height]. *)
Theorem C2_counter_overflow :
  let zoom := zoom_at (D := Rdouble) (scalePerFrame_of 30) 1 in
  let view := frame_viewport (D := Rdouble) centerX centerY xRangeStart
                (yRangeStart 2 2147483647) zoom in
  frame_maxIter zoom = Some 65 ∧
  ∃ field hist cdf v,
    frame_data (D := Rdouble) two_threads 2 2147483647 65
      view.1.1.1 view.1.1.2 view.1.2 view.2 = Some (field, hist, cdf) ∧
    INT_MAX < count_value field 1 ∧
    vec_get hist 1 = Some v ∧ v < 0 ∧
    Zsum hist = -2 ∧
    2 * 2147483647 = 4294967294.
Proof.
  intros zoom view. split; [exact LargeFrame.first_depth|].
  pose proof LargeFrame.first_zoom_bounds as Hz. fold zoom in Hz.
  clearbody zoom.
  assert (100 / 119 < 1 / zoom)%R as Hinv.
  { unfold Rdiv at 2. rewrite Rmult_1_l.
    replace (100 / 119)%R with (/ (119 / 100))%R by lra.
    apply Rinv_lt_contravar; [nra | lra]. }
  assert (view.1.1.1 < -2)%R as Hleft.
  { unfold view, frame_viewport. cbn [fst snd dsub ddiv dmul Rdouble].
    unfold xRangeStart, centerX. rewrite !RealFacts.of_Z_IZR.
    cbn [of_Q Rdouble]. unfold Q2R. cbn [Qnum Qden]. lra. }
  assert (view.1.2 < -2)%R as Htop.
  { unfold view, frame_viewport. cbn [fst snd dsub ddiv dmul Rdouble].
    unfold yRangeStart, xRangeStart, centerY. rewrite !RealFacts.of_Z_IZR.
    cbn [of_Q ddiv Rdouble]. unfold Q2R. cbn [Qnum Qden].
    replace (3 / (2 / 2147483647))%R with (6442450941 / 2)%R by lra.
    lra. }
  clearbody view.
  pose proof (LargeFrame.many_ones 65 2147483647
    view.1.1.1 view.1.1.2 view.1.2 view.2 ltac:(lia) ltac:(lia) Hleft Htop)
    as Hones.
  pose proof (frame_data_closed (D := Rdouble) two_threads 65 2 2147483647
    view.1.1.1 view.1.1.2 view.1.2 view.2
    ltac:(unfold INT_MAX; lia) ltac:(lia) ltac:(lia) two_threads_ok) as Hdata.
  cbv zeta in Hdata.
  pose proof (escape_field_size (D := Rdouble) 65 2 2147483647
    view.1.1.1 view.1.1.2 view.1.2 view.2 ltac:(lia) ltac:(lia)) as Hsize.
  pose proof (escape_field_range (D := Rdouble) 65 2 2147483647
    view.1.1.1 view.1.1.2 view.1.2 view.2 ltac:(unfold INT_MAX; lia))
    as Hrange.
  remember (escape_field (D := Rdouble) 65 2 2147483647
              view.1.1.1 view.1.1.2 view.1.2 view.2) as field eqn:Hfield.
  clear Hfield.
  pose proof (count_value_le field 1) as Hle.
  assert (INT_MAX < count_value field 1 < 2 ^ 32) as Hbig
    by (unfold INT_MAX; lia).
  assert (Zsum ((λ i, wrap32 (count_value field i)) <$> seqZ 0 (65 + 1)) = -2)
    as Hsum.
  { rewrite (wrapped_histogram_sum field 65 1); [lia | done | lia | lia | lia]. }
  assert (vec_get ((λ i, wrap32 (count_value field i)) <$> seqZ 0 (65 + 1)) 1
          = Some (count_value field 1 - 2 ^ 32)) as Hget.
  { rewrite vec_get_lookup, lookup_fmap_seqZ by lia.
    by rewrite wrap32_once by done. }
  assert (count_value field 1 - 2 ^ 32 < 0) as Hneg by lia.
  clear Hones Hsize Hrange Hle.
  eexists _, _, _, _. split; [exact Hdata|].
  split; [apply Hbig|]. split; [exact Hget|]. split; [exact Hneg|].
  split; [exact Hsum | reflexivity].
Qed.

(** ** The properties on examples *)

Lemma first_thread_only_ok : team_ok first_thread_only.
Proof. split; simpl; [unfold INT_MAX; lia | intros; lia]. Qed.

Lemma first_thread_run :
  ∃ r, computeEscapeValues (D := Rdouble) first_thread_only
         [[0; 0]; [0; 0]] [[0; 0; 0; 0]; [0; 0; 0; 0]] 3 2 2
         (-2)%R 2%R (-2)%R 2%R = Some r.
Proof.
  eexists. apply computeEscapeValues_pure; [lia | apply first_thread_only_ok |].
  split; [|split]; simpl.
  - split; [reflexivity|]. repeat constructor.
  - repeat constructor.
  - lia.
Qed.

Lemma escape_bound_monotone_witness :
  ∃ n n',
    escape_loop (D := Rdouble) (Z.to_nat 3) 3 (Complex (D := Rdouble) (-2)%R (-2)%R)
      (Complex (of_Z 0) (of_Z 0)) 0 = Some n ∧
    escape_loop (D := Rdouble) (Z.to_nat 1) 1 (Complex (D := Rdouble) (-2)%R (-2)%R)
      (Complex (of_Z 0) (of_Z 0)) 0 = Some n' ∧
    n' = Z.min 1 n.
Proof.
  apply (escape_bound_monotone (D := Rdouble) 3 1 (Complex (D := Rdouble) (-2)%R (-2)%R)).
  lia.
Defined.

Lemma bucket_zero_empty_witness :
  ∃ field hist cdf,
    frame_data (D := Rdouble) two_threads 2 2 3 (-2)%R 2%R (-2)%R 2%R
      = Some (field, hist, cdf) ∧
    Forall (Forall (λ n, 1 ≤ n ≤ 3)) field ∧
    vec_get hist 0 = Some 0.
Proof.
  apply (bucket_zero_empty (D := Rdouble) two_threads 3 2 2).
  - exact ExactFacts.origin_inside.
  - unfold INT_MAX. lia.
  - lia.
  - lia.
  - exact two_threads_ok.
Defined.

Lemma worker_histograms_partition_witness :
  ∃ field hists',
    computeEscapeValues (D := Rdouble) two_threads [[0; 0]; [0; 0]]
      (replicate (Z.to_nat (omp_max_threads two_threads))
                 (replicate (Z.to_nat (3 + 1)) 0))
      3 2 2 (-2)%R 2%R (-2)%R 2%R = Some (field, hists') ∧
    Z.of_nat (length hists') = omp_max_threads two_threads ∧
    Forall (Forall (λ c, 0 ≤ c)) hists' ∧
    partition_of field 3 hists'.
Proof.
  apply (worker_histograms_partition (D := Rdouble) two_threads
           [[0; 0]; [0; 0]] 3 2 2).
  - unfold INT_MAX. lia.
  - lia.
  - lia.
  - unfold INT_MAX. lia.
  - exact two_threads_ok.
  - split; [reflexivity|]. repeat constructor.
Defined.

Lemma idle_worker_histogram_witness :
  ∃ storeN' histPerThread',
    computeEscapeValues (D := Rdouble) first_thread_only
      [[0; 0]; [0; 0]] [[0; 0; 0; 0]; [0; 0; 0; 0]] 3 2 2
      (-2)%R 2%R (-2)%R 2%R = Some (storeN', histPerThread') ∧
    vec_get histPerThread' 1 = vec_get [[0; 0; 0; 0]; [0; 0; 0; 0]] 1.
Proof.
  destruct first_thread_run as [[storeN' hists'] Hrun].
  exists storeN', hists'. split; [exact Hrun|].
  apply (idle_worker_histogram (D := Rdouble) first_thread_only
           [[0; 0]; [0; 0]] [[0; 0; 0; 0]; [0; 0; 0; 0]] storeN' hists'
           3 2 2 (-2)%R 2%R (-2)%R 2%R 1).
  - intros y _. simpl. lia.
  - exact Hrun.
Defined.

Lemma histograms_accumulate_witness :
  ∃ field histPerThread',
    computeEscapeValues (D := Rdouble) two_threads [[0; 0]; [0; 0]]
      [[5; 0; 0; 0]; [0; 0; 0; 1]] 3 2 2 (-2)%R 2%R (-2)%R 2%R
      = Some (field, histPerThread') ∧
    length histPerThread' = length [[5; 0; 0; 0]; [0; 0; 0; 1]] ∧
    ∀ i, 0 ≤ i ≤ 3 →
      wrap32 (column_sum histPerThread' i)
      = wrap32 (column_sum [[5; 0; 0; 0]; [0; 0; 0; 1]] i
                + count_value field i).
Proof.
  apply (histograms_accumulate (D := Rdouble) two_threads [[0; 0]; [0; 0]]
           [[5; 0; 0; 0]; [0; 0; 0; 1]] 3 2 2).
  - unfold INT_MAX. lia.
  - exact two_threads_ok.
  - split; [|split]; simpl.
    + split; [reflexivity|]. repeat constructor.
    + repeat constructor.
    + lia.
  - unfold INT_MAX. simpl. lia.
Defined.

Lemma computeHistogram_defined_witness :
  (Forall (λ h, 2 + 1 ≤ Z.of_nat (length h)) [[0; 1; 1; 9]; [1; 0; 2]] →
   computeHistogram [[0; 1; 1; 9]; [1; 0; 2]] 2
   = Some ((λ i, wrap32 (column_sum [[0; 1; 1; 9]; [1; 0; 2]] i))
           <$> seqZ 0 (2 + 1))) ∧
  (is_Some (computeHistogram [[0; 1; 1; 9]; [1; 0; 2]] 2) →
   Forall (λ h, 2 + 1 ≤ Z.of_nat (length h)) [[0; 1; 1; 9]; [1; 0; 2]]).
Proof.
  apply (computeHistogram_defined [[0; 1; 1; 9]; [1; 0; 2]] 2).
  - unfold INT_MAX. lia.
  - unfold INT_MAX. simpl. lia.
Defined.

Lemma computeCDF_total_witness :
  ∃ cdf,
    computeCDF (D := Rdouble) [1; 3] 0 = Some cdf ∧
    length cdf = length [1; 3] ∧
    ∀ i, 0 ≤ i < Z.of_nat (length [1; 3]) →
      vec_get cdf i
      = Some (ddiv (of_Z (wrap64 (prefix_sum [1; 3] i))) (of_Z 0)).
Proof.
  apply (computeCDF_total (D := Rdouble) [1; 3] 0).
  unfold INT_MAX. simpl. lia.
Defined.

Lemma cdf_bounded_witness :
  ∃ cdf v,
    computeCDF (D := Rdouble) [1; 3] 4 = Some cdf ∧ v ∈ cdf ∧
    dle (ddiv (of_Z 0) (of_Z 4)) v = true ∧ dle v (of_Z 1) = true.
Proof.
  pose proof (computeCDF_closed (D := Rdouble) [1; 3] 4 1
    ltac:(unfold INT_MAX; lia) eq_refl) as Hrun.
  eexists _, _. split; [exact Hrun|].
  assert (ddiv (of_Z (wrap64 (prefix_sum [1; 3] 0))) (of_Z 4)
          ∈ (λ i, ddiv (of_Z (wrap64 (prefix_sum [1; 3] i))) (of_Z 4))
            <$> seqZ 0 (1 + 1)) as Hin by (simpl; left).
  split; [exact Hin|].
  apply (cdf_bounded (D := Rdouble) (L := RealFacts.Rdouble_division) [1; 3] 4
           ((λ i, ddiv (of_Z (wrap64 (prefix_sum [1; 3] i))) (of_Z 4))
            <$> seqZ 0 (1 + 1))
           (ddiv (of_Z (wrap64 (prefix_sum [1; 3] 0))) (of_Z 4))).
  - unfold INT_MAX. simpl. lia.
  - unfold INT_MAX. repeat constructor; lia.
  - unfold LONG_MAX. lia.
  - reflexivity.
  - exact Hrun.
  - exact Hin.
Defined.

Lemma colorizeImage_defined_witness :
  is_Some (colorizeImage (D := Rdouble) (CV := channel_swap)
             (mkMat 1 1 [[mkVec3b 7 7 7]]) [[2]] [] 2) ↔
  ∀ y x, 0 ≤ y < rows (mkMat 1 1 [[mkVec3b 7 7 7]]) →
         0 ≤ x < cols (mkMat 1 1 [[mkVec3b 7 7 7]]) →
    ∃ n, cell [[2]] y x = Some n ∧
         (n = 2 ∨
          ∃ v, vec_get (A := double (Double := Rdouble)) [] n = Some v ∧
               is_Some (intensity v)).
Proof.
  apply (colorizeImage_defined (D := Rdouble) (CV := channel_swap)
           (mkMat 1 1 [[mkVec3b 7 7 7]]) [[2]] [] 2).
  split; [reflexivity|]. repeat constructor.
Defined.

Lemma colorizeImage_overwrites_witness :
  colorizeImage (D := Rdouble) (CV := channel_swap)
    (mkMat 1 1 [[mkVec3b 9 9 9]]) [[2]] [] 2
  = Some (mkMat 1 1 [[mkVec3b 0 0 0]]).
Proof.
  apply (colorizeImage_overwrites (D := Rdouble) (CV := channel_swap)
           (mkMat 1 1 [[mkVec3b 7 7 7]]) (mkMat 1 1 [[mkVec3b 9 9 9]])).
  - split; [reflexivity|]. repeat constructor.
  - split; [reflexivity|]. repeat constructor.
  - reflexivity.
  - reflexivity.
  - exact Samples.colorize_interior.
Defined.

Lemma computeFrame_negative_depth_witness :
  computeFrame (D := Rdouble) (CV := channel_swap) two_threads 2 2
    centerX centerY xRangeStart (yRangeStart 2 2)
    (mkMemory (zoom_at (scalePerFrame_of (-1)) 2) grey_image 1 []) = None.
Proof.
  apply (computeFrame_negative_depth (D := Rdouble) (CV := channel_swap)
           two_threads 2 2 centerX centerY xRangeStart (yRangeStart 2 2)
           (mkMemory (zoom_at (scalePerFrame_of (-1)) 2) grey_image 1 [])
           (-38)).
  - exact ExactFacts.negative_fps_depth.
  - lia.
  - lia.
  - lia.
  - exact two_threads_ok.
Defined.

Lemma main_returns_at_first_crossing_witness :
  ∃ report,
    main (D := Rdouble) (CV := channel_swap) 2 two_threads 2 2 1
      (of_Z 2) (mkVec3b 7 7 7) 0%R = Returned report ∧
    ∃ N : nat,
      (N ≤ 2)%nat ∧
      frames_generated report = Z.of_nat N ∧
      (∀ k, (k < N)%nat →
         dlt (zoom_at (scalePerFrame_of 1) k) (of_Z 2) = true) ∧
      dlt (zoom_at (scalePerFrame_of 1) N) (of_Z 2) = false ∧
      final_zoom report = zoom_at (scalePerFrame_of 1) N ∧
      progress_lines report = progress_upto (scalePerFrame_of 1) N ∧
      time_per_frame report = ddiv 0%R (of_Z (Z.of_nat N)).
Proof.
  destruct ExactFacts.two_frame_run as [report Hrun].
  exists report. split; [exact Hrun|].
  apply (main_returns_at_first_crossing (D := Rdouble) (CV := channel_swap)
           two_threads 2 2 1 (of_Z 2) (mkVec3b 7 7 7) 0%R 2 report).
  - unfold INT_MAX. simpl. lia.
  - exact Hrun.
Defined.

Lemma frames_numbered_witness :
  ∃ report,
    main (D := Rdouble) (CV := channel_swap) 2 two_threads 2 2 1
      (of_Z 2) (mkVec3b 7 7 7) 0%R = Returned report ∧
    0 ≤ frames_generated report ∧
    (frames_written report).*1 = seqZ 0 (frames_generated report) ∧
    (progress_lines report).*1 = seqZ 0 (frames_generated report).
Proof.
  destruct ExactFacts.two_frame_run as [report Hrun].
  exists report. split; [exact Hrun|].
  apply (frames_numbered (D := Rdouble) (CV := channel_swap)
           two_threads 2 2 1 (of_Z 2) (mkVec3b 7 7 7) 0%R 2 report).
  - unfold INT_MAX. simpl. lia.
  - exact Hrun.
Defined.

Lemma main_never_returns_witness :
  main (D := Rdouble) (CV := channel_swap) 5 two_threads 2 2 (-1)
    (of_Z 2) (mkVec3b 7 7 7) 0%R = OutOfFuel ∨
  main (D := Rdouble) (CV := channel_swap) 5 two_threads 2 2 (-1)
    (of_Z 2) (mkVec3b 7 7 7) 0%R = Undefined.
Proof.
  apply (main_never_returns (D := Rdouble) (CV := channel_swap)
           two_threads 2 2 (-1) (of_Z 2) (mkVec3b 7 7 7) 0%R 5).
  exact ExactFacts.shrinking_zoom.
Defined.

Lemma filename_fits_witness :
  (length (Sprintf.filename 7) + 1 ≤ 29)%nat ∧
  (0 ≤ 7 ≤ 99999 → length (Sprintf.filename 7) = 22%nat).
Proof.
  apply (filename_fits 7). unfold INT_MIN, INT_MAX. lia.
Defined.

Lemma frame_files_distinct_witness :
  ∃ report,
    main (D := Rdouble) (CV := channel_swap) 2 two_threads 2 2 1
      (of_Z 2) (mkVec3b 7 7 7) 0%R = Returned report ∧
    NoDup (Sprintf.filename <$> (frames_written report).*1).
Proof.
  destruct ExactFacts.two_frame_run as [report Hrun].
  exists report. split; [exact Hrun|].
  apply (frame_files_distinct (D := Rdouble) (CV := channel_swap)
           two_threads 2 2 1 (of_Z 2) (mkVec3b 7 7 7) 0%R 2 report).
  - unfold INT_MAX. simpl. lia.
  - exact Hrun.
Defined.

Lemma cmd_fits_witness : (length (Sprintf.cmd 30) + 1 ≤ 512)%nat.
Proof.
  apply (cmd_fits 30). unfold INT_MIN, INT_MAX. lia.
Defined.
